(** * Fraud-detection engine of the email-security service

    A shallow embedding of the Go packages [internal/domain] and
    [internal/domain/detection]: the data model, the shared helpers, the
    seven detection strategies and the detector that aggregates their
    signals into a risk score and a risk level.

    Conventions of the embedding.
    - A Go [string] is a sequence of bytes: Rocq's [string]; [len] is the
      number of bytes.
    - A Go [float64] is an IEEE 754 binary64 number: Rocq's primitive
      [float], every operation rounded on its own to nearest-even. This
      is the code generated for amd64 by default; Go allows a compiler to
      fuse [x*y + z] where the processor has the instruction. The language
      strategy, whose threshold one rounding decides, is also given in
      the fused evaluations ([UrgencyFinancialStrategy_DetectIn]).
    - A Go [int] holds lengths, indices and counters; here they are [nat]
      or [Z], and never leave the range of a 64-bit integer because they
      are bounded by the length of a string or of a keyword table
      ([prefixDistance_bound], [countKeywords_bound]).
    - A nil pointer result ([*domain.Detection]) is [None].
    - An index out of range makes a Go program panic; the functions that
      index slices and strings return in the monad [run], whose [Panics]
      is that outcome. *)

From Stdlib Require Import ZArith Floats Ascii String Bool Lia.
From stdpp Require Import base option list gmap strings pretty.

#[local] Open Scope string_scope.
#[local] Open Scope nat_scope.
#[local] Set Warnings "-inexact-float".

(** ** Outcome of a call that may panic *)

Inductive run (A : Type) : Type :=
| Panics : run A
| Returns : A → run A.
Arguments Panics {A}.
Arguments Returns {A} _.

#[global] Instance run_ret : MRet run := @Returns.
#[global] Instance run_bind : MBind run := λ A B k c,
  match c with
  | Panics => Panics
  | Returns a => k a
  end.

(** [for _, i := range idxs { st = body(i, st) }], stopping at a panic. *)
Fixpoint forEach {S : Type} (idxs : list nat) (body : nat → S → run S) (st : S) : run S :=
  match idxs with
  | [] => Returns st
  | i :: rest => st' ← body i st; forEach rest body st'
  end.

(** ** The parts of Go's standard library that the engine calls *)

Definition len (s : string) : nat := String.length s.

(** [s[i]]: the byte at index [i]; out of range panics. *)
Definition byteAt (s : string) (i : nat) : run ascii :=
  match String.get i s with
  | Some c => Returns c
  | None => Panics
  end.

(** [strings.Contains(s, substr)]. *)
Fixpoint Contains (s substr : string) : bool :=
  String.prefix substr s ||
  match s with
  | EmptyString => false
  | String _ rest => Contains rest substr
  end.

(** [strings.HasSuffix(s, suffix)]:
    [len(s) >= len(suffix) && s[len(s)-len(suffix):] == suffix]. *)
Definition HasSuffix (s suffix : string) : bool :=
  (len suffix <=? len s)%nat &&
  String.eqb (String.substring (len s - len suffix) (len suffix) s) suffix.

(** [strings.Count(s, sep)] for a separator of one byte, the only use
    the engine makes of it: the number of bytes of [s] equal to it. *)
Fixpoint Count (s : string) (sep : ascii) : nat :=
  match s with
  | EmptyString => 0
  | String c rest => (if Ascii.eqb c sep then 1 else 0) + Count rest sep
  end.

(** [strings.Split(s, sep)] for a separator of one byte: the pieces of
    [s] between the occurrences of [sep]; a string without [sep] is
    its own single piece. *)
Fixpoint Split (s : string) (sep : ascii) : list string :=
  match s with
  | EmptyString => [EmptyString]
  | String c rest =>
      if Ascii.eqb c sep then EmptyString :: Split rest sep
      else match Split rest sep with
           | [] => [String c EmptyString]
           | piece :: pieces => String c piece :: pieces
           end
  end.

(** [strings.Join(elems, sep)]. *)
Fixpoint Join (elems : list string) (sep : string) : string :=
  match elems with
  | [] => ""
  | [e] => e
  | e :: rest => e ++ sep ++ Join rest sep
  end.

Definition isUpperASCII (c : ascii) : bool :=
  (65 <=? nat_of_ascii c)%nat && (nat_of_ascii c <=? 90)%nat.

Definition lowerByte (c : ascii) : ascii :=
  if isUpperASCII c then ascii_of_nat (nat_of_ascii c + 32) else c.

Fixpoint isASCII (s : string) : bool :=
  match s with
  | EmptyString => true
  | String c rest => (nat_of_ascii c <? 128)%nat && isASCII rest
  end.

Fixpoint mapBytes (f : ascii → ascii) (s : string) : string :=
  match s with
  | EmptyString => EmptyString
  | String c rest => String (f c) (mapBytes f rest)
  end.

(** [int] to [float64]. *)
Definition float64 (n : Z) : float := PrimFloat.of_uint63 (Uint63.of_Z n).

(** [math.MaxFloat64], [math.IsInf(f, -1)], [math.IsNaN], [math.Signbit]. *)
Definition MaxFloat64 : float := 0x1.fffffffffffffp+1023%float.
Definition IsNegInf (f : float) : bool := PrimFloat.ltb f (PrimFloat.opp MaxFloat64).
Definition IsNaN (f : float) : bool := negb (PrimFloat.eqb f f).
Definition Signbit (f : float) : bool := PrimFloat.get_sign f.

(** [math.Min(x, y)], with its special cases:
    [Min(x, -Inf) = Min(-Inf, x) = -Inf], [Min(x, NaN) = Min(NaN, x) = NaN],
    [Min(-0, ±0) = Min(±0, -0) = -0]. *)
Definition Min (x y : float) : float :=
  if IsNegInf x || IsNegInf y then PrimFloat.neg_infinity
  else if IsNaN x || IsNaN y then PrimFloat.nan
  else if PrimFloat.eqb x 0 && PrimFloat.eqb x y then (if Signbit x then x else y)
  else if PrimFloat.ltb x y then x
  else y.

(** The built-in [append] with one element. *)
Definition append {A : Type} (s : list A) (x : A) : list A := (s ++ [x])%list.

(** The built-in [min] and [max] on [int]. *)
Definition min3 (a b c : Z) : Z := Z.min (Z.min a b) c.
Definition max2 (a b : nat) : nat := Nat.max a b.

(** ** Package [domain]: the data model (models.go)

    The timestamps of the records ([CreatedAt], [ReceivedAt], [IngestedAt],
    [ProcessedAt], [AnalyzedAt]) are left out: no function of the detection
    package reads or sets them. *)

Definition UUID : Type := string.

Record User : Type := mkUser {
  User_ID : UUID;
  User_TenantID : UUID;
  ProviderUserID : string;
  User_Email : string;
  DisplayName : string;
  Role : string
}.

Record Email : Type := mkEmail {
  ID : UUID;
  TenantID : UUID;
  UserID : UUID;
  ProviderMessageID : string;
  Subject : string;
  SenderEmail : string;
  SenderName : string;
  RecipientEmail : string;
  HasAttachments : bool;
  AttachmentNames : list string;
  BodyPreview : string;
  Headers : gmap string string
}.

(** [Type] is a keyword of Rocq: the field is [Type_]. *)
Record Detection : Type := mkDetection {
  Type_ : string;
  Confidence : float;
  Evidence : string
}.

(** [AnalyzeEmail] leaves [ID] at its zero value; the field is left out.
    The field [RiskLevel] is [RiskLevel_], the function keeps the name. *)
Record FraudAnalysis : Type := mkFraudAnalysis {
  EmailID : UUID;
  RiskScore : float;
  RiskLevel_ : string;
  DetectedThreats : list Detection
}.

(** [score >= c] is [c <=? score] on floats. *)
Definition RiskLevel (score : float) : string :=
  if PrimFloat.leb 0.85 score then "critical"
  else if PrimFloat.leb 0.70 score then "high"
  else if PrimFloat.leb 0.50 score then "medium"
  else if PrimFloat.leb 0.30 score then "low"
  else "none".

(** ** Package [detection]: context (strategy.go) *)

Record DetectionContext : Type := mkDetectionContext {
  InternalDomains : list string;
  TrustedDomains : list string
}.

Definition NewDetectionContext (internalDomains trustedDomains : list string)
  : DetectionContext :=
  {| InternalDomains := internalDomains; TrustedDomains := trustedDomains |}.

(** ** Helpers that need no case folding (helpers.go) *)

Fixpoint isInternalDomain (domain : string) (internalDomains : list string) : bool :=
  match internalDomains with
  | [] => false
  | internal :: rest =>
      if String.eqb domain internal then true else isInternalDomain domain rest
  end.

Fixpoint containsAny (text : string) (keywords : list string) : bool :=
  match keywords with
  | [] => false
  | keyword :: rest =>
      if Contains text keyword then true else containsAny text rest
  end.

(** *** The table of [levenshteinDistance]

    [matrix] is a slice of slices of [int]; reading or writing a cell
    that does not exist panics. *)

Definition getCell (matrix : list (list Z)) (i j : nat) : run Z :=
  match matrix !! i with
  | Some row =>
      match row !! j with
      | Some v => Returns v
      | None => Panics
      end
  | None => Panics
  end.

Definition setCell (matrix : list (list Z)) (i j : nat) (v : Z) : run (list (list Z)) :=
  match matrix !! i with
  | Some row =>
      if decide (j < length row)%nat
      then Returns (<[i := <[j := v]> row]> matrix)
      else Panics
  | None => Panics
  end.

Definition setRow (matrix : list (list Z)) (i : nat) (row : list Z) : run (list (list Z)) :=
  if decide (i < length matrix)%nat then Returns (<[i := row]> matrix) else Panics.

Definition levenshteinDistance (s1 s2 : string) : run Z :=
  if (len s1 =? 0)%nat then Returns (Z.of_nat (len s2))
  else if (len s2 =? 0)%nat then Returns (Z.of_nat (len s1))
  else
    (* matrix := make([][]int, len(s1)+1); each row make([]int, len(s2)+1) *)
    let matrix := replicate (len s1 + 1) ([] : list Z) in
    matrix ← forEach (seq 0 (length matrix))
                (λ i matrix, setRow matrix i (replicate (len s2 + 1) 0%Z)) matrix;
    (* first column and first row *)
    matrix ← forEach (seq 0 (len s1 + 1))
                (λ i matrix, setCell matrix i 0 (Z.of_nat i)) matrix;
    matrix ← forEach (seq 0 (len s2 + 1))
                (λ j matrix, setCell matrix 0 j (Z.of_nat j)) matrix;
    (* the recurrence, row by row *)
    matrix ← forEach (seq 1 (len s1)) (λ i matrix,
                forEach (seq 1 (len s2)) (λ j matrix,
                  c1 ← byteAt s1 (i - 1);
                  c2 ← byteAt s2 (j - 1);
                  let cost := if Ascii.eqb c1 c2 then 0%Z else 1%Z in
                  deletion ← getCell matrix (i - 1) j;
                  insertion ← getCell matrix i (j - 1);
                  substitution ← getCell matrix (i - 1) (j - 1);
                  setCell matrix i j
                    (min3 (deletion + 1) (insertion + 1) (substitution + cost)))
                matrix) matrix;
    getCell matrix (len s1) (len s2).

(** ** An instance of the two library functions left open below

    The strategies take [strings.Map(unicode.ToLower, s)] and the verb
    [%.<prec>f] of [fmt.Sprintf] as parameters. The instance here serves
    to evaluate the engine on the sample messages: [identityLower] leaves
    a string with a byte outside ASCII as it is (what Go does when the
    string holds no upper-case letter), and [formatFixed] prints the
    decimal expansion of the float rounded to [prec] fractional digits,
    ties to even. *)

Definition identityLower (s : string) : string := s.

Definition roundHalfEven (num den : Z) : Z :=
  let q := (num / den)%Z in
  let r := (num mod den)%Z in
  match (2 * r ?= den)%Z with
  | Lt => q
  | Gt => (q + 1)%Z
  | Eq => if Z.even q then q else (q + 1)%Z
  end.

Fixpoint zeros (n : nat) : string :=
  match n with
  | 0 => ""
  | S n' => "0" ++ zeros n'
  end.

Definition formatFixed (prec : nat) (f : float) : string :=
  let unit := (10 ^ Z.of_nat prec)%Z in
  let print (negative : bool) (scaled : Z) : string :=
    let digits := pretty (scaled mod unit)%Z in
    (if negative then "-" else "") ++ pretty (scaled / unit)%Z
    ++ (if prec =? 0 then ""
        else "." ++ zeros (prec - len digits) ++ digits) in
  match Prim2SF f with
  | S754_nan => "NaN"
  | S754_infinity negative => if negative then "-Inf" else "+Inf"
  | S754_zero negative => print negative 0%Z
  | S754_finite negative m e =>
      print negative
        (if (0 <=? e)%Z then (Z.pos m * 2 ^ e * unit)%Z
         else roundHalfEven (Z.pos m * unit) (2 ^ (- e)))
  end.

(** ** The detection package proper

    Two functions of Go's standard library are taken as given rather than
    re-implemented:
    - [unicodeLower] is [strings.Map(unicode.ToLower, s)], the path that
      [strings.ToLower] takes for a string with a byte outside ASCII;
    - [formatFloat prec f] is what [fmt.Sprintf] prints for the verb
      [%.<prec>f].
    Everything below holds for every choice of the two. *)

Section Detection.

Variable unicodeLower : string → string.
Variable formatFloat : nat → float → string.

(** [strings.ToLower]: ASCII-only strings are lowered byte by byte, the
    others go through the Unicode tables. *)
Definition ToLower (s : string) : string :=
  if isASCII s then mapBytes lowerByte s else unicodeLower s.

(** *** helpers.go *)

Definition extractDomain (email : string) : string :=
  match Split email "@" with
  | [_; domain] => ToLower domain
  | _ => "" (* Malformed email address *)
  end.

Definition hasUrgencyLanguage (email : Email) : bool :=
  let text := ToLower (Subject email ++ " " ++ BodyPreview email) in
  let urgencyKeywords := ["urgent"; "immediately"; "asap"; "right away"; "today"] in
  containsAny text urgencyKeywords.

(** *** display_name_strategy.go *)

Fixpoint hasExecTitleLoop (displayName : string) (execTitles : list string) : bool :=
  match execTitles with
  | [] => false
  | title :: rest =>
      if Contains displayName title then true else hasExecTitleLoop displayName rest
  end.

Definition DisplayNameStrategy_Detect
  (email : Email) (recipient : option User) (context : DetectionContext)
  : run (option Detection) :=
  let displayName := ToLower (SenderName email) in
  let senderDomain := extractDomain (SenderEmail email) in
  let execTitles :=
    ["ceo"; "cfo"; "president"; "director"; "chief"; "vp"; "vice president"] in
  let hasExecTitle := hasExecTitleLoop displayName execTitles in
  let isExternal := negb (isInternalDomain senderDomain (InternalDomains context)) in
  if hasExecTitle && isExternal then
    Returns (Some {|
      Type_ := "DISPLAY_NAME_MISMATCH";
      Confidence := 0.85;
      Evidence := "Display name '" ++ SenderName email
        ++ "' contains executive title but sender domain '" ++ senderDomain
        ++ "' is external" |})
  else Returns None.

(** *** The typosquatting strategy (second file of models.go) *)

Definition similarityOf (distance : Z) (senderDomain trustedDomain : string) : float :=
  let maxLen := float64 (Z.of_nat (max2 (len senderDomain) (len trustedDomain))) in
  PrimFloat.mul (PrimFloat.sub 1.0 (PrimFloat.div (float64 distance) maxLen)) 100.

Fixpoint typosquattingLoop (senderDomain : string) (trustedDomains : list string)
  : run (option Detection) :=
  match trustedDomains with
  | [] => Returns None
  | trustedDomain :: rest =>
      (* Skip if exact match (legitimate email) *)
      if String.eqb senderDomain trustedDomain then typosquattingLoop senderDomain rest
      else
        distance ← levenshteinDistance senderDomain trustedDomain;
        let similarity := similarityOf distance senderDomain trustedDomain in
        if PrimFloat.ltb 85 similarity && PrimFloat.ltb similarity 100 then
          Returns (Some {|
            Type_ := "DOMAIN_TYPOSQUATTING";
            Confidence := 0.90;
            Evidence := "Sender domain '" ++ senderDomain ++ "' is "
              ++ formatFloat 1 similarity ++ "% similar to trusted domain '"
              ++ trustedDomain ++ "' (potential typosquatting)" |})
        else typosquattingLoop senderDomain rest
  end.

Definition TyposquattingStrategy_Detect
  (email : Email) (recipient : option User) (context : DetectionContext)
  : run (option Detection) :=
  let senderDomain := extractDomain (SenderEmail email) in
  typosquattingLoop senderDomain (TrustedDomains context).

(** *** auth_failures_strategy.go *)

Definition authFailures (email : Email) : list string :=
  let failures : list string := [] in
  let failures :=
    match Headers email !! "Received-SPF" with
    | Some spf =>
        if Contains (ToLower spf) "fail" then append failures "SPF_FAIL" else failures
    | None => failures
    end in
  match Headers email !! "Authentication-Results" with
  | Some authResults =>
      let failures :=
        if Contains (ToLower authResults) "dkim=fail"
        then append failures "DKIM_FAIL" else failures in
      if Contains (ToLower authResults) "dmarc=fail"
      then append failures "DMARC_FAIL" else failures
  | None => failures
  end.

Definition AuthFailuresStrategy_Detect
  (email : Email) (recipient : option User) (context : DetectionContext)
  : run (option Detection) :=
  let failures := authFailures email in
  if (2 <=? length failures)%nat then
    Returns (Some {|
      Type_ := "AUTH_FAILURES";
      Confidence := 0.80;
      Evidence := "Email authentication failures: " ++ Join failures ", " |})
  else Returns None.

(** *** The urgency and financial language strategy *)

Fixpoint countKeywords (text : string) (keywords : list string) : nat :=
  match keywords with
  | [] => 0
  | keyword :: rest =>
      (if Contains text keyword then 1 else 0) + countKeywords text rest
  end.

Definition urgencyKeywords : list string :=
  ["urgent"; "immediately"; "asap"; "right away"; "time sensitive";
   "today"; "end of day"; "eod"; "quick"; "need this now"; "hurry"].

Definition financialKeywords : list string :=
  ["wire transfer"; "payment"; "invoice"; "bank account"; "routing number";
   "swift"; "ach"; "wire"; "fund"; "transfer"; "pay"; "urgent payment";
   "gift card"; "itunes"; "google play"; "prepaid card"].

Definition authorityKeywords : list string :=
  ["ceo"; "president"; "director"; "approved"; "authorized"; "confidential";
   "do not discuss"; "between us"; "sensitive"; "private"].

(** [score] of the strategy, from the three counts. *)
Definition languageScore (urgencyCount financialCount authorityCount : nat) : float :=
  PrimFloat.add
    (PrimFloat.add (PrimFloat.mul (float64 (Z.of_nat urgencyCount)) 0.3)
                   (PrimFloat.mul (float64 (Z.of_nat financialCount)) 0.5))
    (PrimFloat.mul (float64 (Z.of_nat authorityCount)) 0.2).

(** [math.Min(0.70+(score-1.5)*0.1, 0.95)]. *)
Definition languageConfidence (score : float) : float :=
  Min (PrimFloat.add 0.70 (PrimFloat.mul (PrimFloat.sub score 1.5) 0.1)) 0.95.

Definition UrgencyFinancialStrategy_Detect
  (email : Email) (recipient : option User) (context : DetectionContext)
  : run (option Detection) :=
  let text := ToLower (Subject email ++ " " ++ BodyPreview email) in
  let urgencyCount := countKeywords text urgencyKeywords in
  let financialCount := countKeywords text financialKeywords in
  let authorityCount := countKeywords text authorityKeywords in
  let score := languageScore urgencyCount financialCount authorityCount in
  if PrimFloat.ltb 1.5 score then
    let confidence := languageConfidence score in
    Returns (Some {|
      Type_ := "URGENCY_FINANCIAL_LANGUAGE";
      Confidence := confidence;
      Evidence := "High-risk language detected (score: " ++ formatFloat 2 score
        ++ "): " ++ pretty urgencyCount ++ " urgency, "
        ++ pretty financialCount ++ " financial, "
        ++ pretty authorityCount ++ " authority keywords" |})
  else Returns None.

(** *** reply_to_strategy.go *)

Fixpoint isFreemailLoop (replyToDomain : string) (freeEmailDomains : list string) : bool :=
  match freeEmailDomains with
  | [] => false
  | freeDomain :: rest =>
      if String.eqb replyToDomain freeDomain then true
      else isFreemailLoop replyToDomain rest
  end.

Definition ReplyToStrategy_Detect
  (email : Email) (recipient : option User) (context : DetectionContext)
  : run (option Detection) :=
  let senderEmail := ToLower (SenderEmail email) in
  (* a missing key reads as the empty string *)
  let replyTo := ToLower (default "" (Headers email !! "Reply-To")) in
  if String.eqb replyTo "" || String.eqb replyTo senderEmail then Returns None
  else
    let senderDomain := extractDomain senderEmail in
    let replyToDomain := extractDomain replyTo in
    let freeEmailDomains :=
      ["gmail.com"; "yahoo.com"; "hotmail.com"; "outlook.com"; "aol.com"] in
    let isFreemail := isFreemailLoop replyToDomain freeEmailDomains in
    if isFreemail && negb (String.eqb replyToDomain senderDomain) then
      Returns (Some {|
        Type_ := "REPLY_TO_MISMATCH";
        Confidence := 0.75;
        Evidence := "Sender: " ++ senderEmail ++ ", Reply-To: " ++ replyTo
          ++ " (free email service, redirects responses)" |})
    else Returns None.

(** *** The attachment strategy *)

Definition highRiskExtensions : list string :=
  [".exe"; ".scr"; ".bat"; ".cmd"; ".com"; ".pif";
   ".vbs"; ".js"; ".jar"; ".msi"; ".app"].

Definition mediumRiskExtensions : list string :=
  [".doc"; ".xls"; ".xlsm"; ".docm"; ".pptm"].

(** The loop over the high-risk extensions; [Some] is its [return]. *)
Fixpoint highRiskLoop (name filename : string) (exts : list string) : option Detection :=
  match exts with
  | [] => None
  | ext :: rest =>
      if HasSuffix filename ext then
        Some {| Type_ := "HIGH_RISK_ATTACHMENT";
                Confidence := 0.90;
                Evidence := "High-risk attachment type: " ++ name |}
      else highRiskLoop name filename rest
  end.

(** The loop over the medium-risk extensions. *)
Fixpoint mediumRiskLoop (email : Email) (name filename : string) (exts : list string)
  : option Detection :=
  match exts with
  | [] => None
  | ext :: rest =>
      if HasSuffix filename ext then
        if hasUrgencyLanguage email then
          Some {| Type_ := "MEDIUM_RISK_ATTACHMENT_WITH_URGENCY";
                  Confidence := 0.70;
                  Evidence := "Medium-risk attachment + urgent language: " ++ name |}
        else mediumRiskLoop email name filename rest
      else mediumRiskLoop email name filename rest
  end.

(** The loop over the attachment names. *)
Fixpoint attachmentLoop (email : Email) (names : list string) : option Detection :=
  match names with
  | [] => None
  | name :: rest =>
      let filename := ToLower name in
      match highRiskLoop name filename highRiskExtensions with
      | Some det => Some det
      | None =>
          let dotCount := Count filename "." in
          if (1 <? dotCount)%nat then
            Some {| Type_ := "SUSPICIOUS_ATTACHMENT_NAME";
                    Confidence := 0.85;
                    Evidence := "Suspicious attachment name (double extension): "
                                ++ name |}
          else
            match mediumRiskLoop email name filename mediumRiskExtensions with
            | Some det => Some det
            | None => attachmentLoop email rest
            end
      end
  end.

Definition AttachmentStrategy_Detect
  (email : Email) (recipient : option User) (context : DetectionContext)
  : run (option Detection) :=
  if negb (HasAttachments email) then Returns None
  else Returns (attachmentLoop email (AttachmentNames email)).

(** *** bec_role_strategy.go *)

Definition cSuiteRoles : list string :=
  ["ceo"; "cfo"; "cto"; "coo"; "president"; "chief"; "vice president"; "vp";
   "pdg"; "président directeur général"; "directeur général"; "dg";
   "daf"; "directeur administratif et financier"; "directeur financier";
   "dsi"; "directeur des systèmes d'information";
   "directeur"; "direction générale"].

Definition financeRoles : list string :=
  ["finance"; "accounting"; "treasurer"; "controller"; "payroll";
   "comptabilité"; "comptable"; "trésorier"; "trésorerie";
   "contrôleur de gestion"; "contrôleur financier";
   "responsable financier"; "responsable comptable";
   "service comptable"; "paie"].

Definition hrRoles : list string :=
  ["hr"; "human resources"; "recruiting"; "talent";
   "drh"; "directeur des ressources humaines"; "ressources humaines";
   "rh"; "responsable rh"; "responsable ressources humaines";
   "recrutement"; "gestionnaire paie"; "service rh"].

Definition becUrgencyKeywords : list string :=
  ["urgent"; "immediately"; "asap"; "today"; "right away"; "now";
   "urgent"; "immédiatement"; "rapidement"; "aujourd'hui";
   "tout de suite"; "au plus vite"; "dans l'immédiat";
   "sans délai"; "prioritaire"; "en urgence"].

Definition wireTransferKeywords : list string :=
  ["wire transfer"; "payment"; "invoice"; "bank account"; "routing"; "iban"; "swift";
   "virement"; "virement bancaire"; "paiement"; "facture";
   "compte bancaire"; "rib"; "relevé d'identité bancaire";
   "iban"; "bic"; "swift"; "coordonnées bancaires";
   "ordre de virement"; "transfert de fonds"].

Definition payrollDocKeywords : list string :=
  ["tax form"; "payroll";
   "bulletin de paie"; "bulletin de salaire"; "fiche de paie";
   "numéro de sécurité sociale"; "n° sécurité sociale";
   "cotisations sociales"; "déclaration de revenus";
   "dsn"; "déclaration sociale nominative";
   "attestation fiscale"; "salaires"].

Definition BECRoleStrategy_Detect
  (email : Email) (recipient : option User) (context : DetectionContext)
  : run (option Detection) :=
  match recipient with
  | None => Returns None
  | Some recipient =>
    if String.eqb (Role recipient) "" then Returns None
    else
      let role := ToLower (Role recipient) in
      let senderDomain := extractDomain (SenderEmail email) in
      let isExternal := negb (isInternalDomain senderDomain (InternalDomains context)) in
      if negb isExternal then Returns None
      else
        let isCsuite := containsAny role cSuiteRoles in
        let isFinance := containsAny role financeRoles in
        let isHR := containsAny role hrRoles in
        if negb isCsuite && negb isFinance && negb isHR then Returns None
        else
          let text := ToLower (Subject email ++ " " ++ BodyPreview email) in
          let hasUrgency := containsAny text becUrgencyKeywords in
          let hasWireTransfer := containsAny text wireTransferKeywords in
          let hasPayrollDoc := containsAny text payrollDocKeywords in
          if isCsuite && hasUrgency && hasWireTransfer then
            Returns (Some {|
              Type_ := "BEC_CSUITE_TARGETING";
              Confidence := 0.90;
              Evidence := "Executive recipient (" ++ Role recipient
                ++ ") + external sender + urgent wire transfer request (potential CEO fraud/Fraude au président)" |})
          else if isFinance && hasWireTransfer then
            Returns (Some {|
              Type_ := "BEC_FINANCE_TARGETING";
              Confidence := 0.85;
              Evidence := "Finance role (" ++ Role recipient
                ++ ") + external sender + payment/wire transfer language (potential invoice fraud)" |})
          else if isHR && hasPayrollDoc then
            Returns (Some {|
              Type_ := "BEC_HR_PAYROLL_SCAM";
              Confidence := 0.80;
              Evidence := "HR role (" ++ Role recipient
                ++ ") + external sender + payroll/tax document request (W-2/bulletin de paie phishing)" |})
          else if (isCsuite || isFinance || isHR) && hasUrgency then
            Returns (Some {|
              Type_ := "BEC_HIGH_VALUE_TARGET";
              Confidence := 0.70;
              Evidence := "High-value role (" ++ Role recipient
                ++ ") + external sender + urgent language" |})
          else Returns None
  end.

(** *** strategy.go: the strategy interface and the detector *)

Record DetectionStrategy : Type := mkDetectionStrategy {
  Detect : Email → option User → DetectionContext → run (option Detection);
  Name : string
}.

Definition NewDisplayNameStrategy : DetectionStrategy :=
  {| Detect := DisplayNameStrategy_Detect; Name := "Display Name Mismatch" |}.
Definition NewTyposquattingStrategy : DetectionStrategy :=
  {| Detect := TyposquattingStrategy_Detect; Name := "Domain Typosquatting" |}.
Definition NewAuthFailuresStrategy : DetectionStrategy :=
  {| Detect := AuthFailuresStrategy_Detect; Name := "Authentication Failures" |}.
Definition NewUrgencyFinancialStrategy : DetectionStrategy :=
  {| Detect := UrgencyFinancialStrategy_Detect; Name := "Urgency + Financial Keywords" |}.
Definition NewReplyToStrategy : DetectionStrategy :=
  {| Detect := ReplyToStrategy_Detect; Name := "Reply-To Mismatch" |}.
Definition NewAttachmentStrategy : DetectionStrategy :=
  {| Detect := AttachmentStrategy_Detect; Name := "Suspicious Attachments" |}.
Definition NewBECRoleStrategy : DetectionStrategy :=
  {| Detect := BECRoleStrategy_Detect; Name := "BEC Role Targeting" |}.

Record Detector : Type := mkDetector {
  strategies : list DetectionStrategy;
  context : DetectionContext
}.

Definition NewDetector (internalDomains trustedDomains : list string) : Detector :=
  let context := NewDetectionContext internalDomains trustedDomains in
  let strategies :=
    [NewDisplayNameStrategy; NewTyposquattingStrategy; NewAuthFailuresStrategy;
     NewUrgencyFinancialStrategy; NewReplyToStrategy; NewAttachmentStrategy;
     NewBECRoleStrategy] in
  {| strategies := strategies; context := context |}.

(** The weight table of [calculateRiskScore]. *)
Definition weights : gmap string float :=
  list_to_map
    [("DOMAIN_TYPOSQUATTING", 1.5%float);
     ("DISPLAY_NAME_MISMATCH", 1.3%float);
     ("AUTH_FAILURES", 1.2%float);
     ("HIGH_RISK_ATTACHMENT", 1.5%float);
     ("SUSPICIOUS_ATTACHMENT_NAME", 1.3%float);
     ("URGENCY_FINANCIAL_LANGUAGE", 1.0%float);
     ("REPLY_TO_MISMATCH", 1.1%float);
     ("MEDIUM_RISK_ATTACHMENT_WITH_URGENCY", 1.0%float);
     ("BEC_CSUITE_TARGETING", 1.6%float);
     ("BEC_FINANCE_TARGETING", 1.5%float);
     ("BEC_HR_W2_SCAM", 1.4%float);
     ("BEC_HIGH_VALUE_TARGET", 1.2%float)].

(** [weight := weights[detection.Type]; if weight == 0 { weight = 1.0 }]:
    a missing key reads as [0]. *)
Definition weightOf (type : string) : float :=
  let weight := default 0%float (weights !! type) in
  if PrimFloat.eqb weight 0 then 1.0%float else weight.

(** The loop of [calculateRiskScore], from the running maximum. *)
Fixpoint maxScoreLoop (detections : list Detection) (maxScore : float) : float :=
  match detections with
  | [] => maxScore
  | detection :: rest =>
      let weight := weightOf (Type_ detection) in
      let score := PrimFloat.mul (Confidence detection) weight in
      if PrimFloat.ltb maxScore score then maxScoreLoop rest score
      else maxScoreLoop rest maxScore
  end.

Definition calculateRiskScore (detections : list Detection) : float :=
  if (length detections =? 0)%nat then 0.0%float
  else Min (maxScoreLoop detections 0.0) 1.0.

(** The loop of [AnalyzeEmail] over the strategies. *)
Fixpoint runStrategies (strats : list DetectionStrategy) (email : Email)
  (recipient : option User) (context : DetectionContext) (detections : list Detection)
  : run (list Detection) :=
  match strats with
  | [] => Returns detections
  | strategy :: rest =>
      det ← Detect strategy email recipient context;
      match det with
      | Some det => runStrategies rest email recipient context (append detections det)
      | None => runStrategies rest email recipient context detections
      end
  end.

Definition AnalyzeEmail (d : Detector) (email : Email) (recipient : option User)
  : run FraudAnalysis :=
  detections ← runStrategies (strategies d) email recipient (context d) [];
  let riskScore := calculateRiskScore detections in
  Returns {|
    EmailID := ID email;
    RiskScore := riskScore;
    RiskLevel_ := RiskLevel riskScore;
    DetectedThreats := detections |}.

(** ** Notions used to state the properties *)

(** Go's [a <= b] and [a < b] on [float64], as propositions. *)
Definition fle (a b : float) : Prop := PrimFloat.leb a b = true.
Definition flt (a b : float) : Prop := PrimFloat.ltb a b = true.

(** The contribution of one signal to the risk score. *)
Definition weighted (detection : Detection) : float :=
  PrimFloat.mul (Confidence detection) (weightOf (Type_ detection)).

(** The threshold function of the risk level, from the words of the
    specification: critical from 0.85, high from 0.70, medium from 0.50,
    low from 0.30, none below. *)
Definition levelOfScore (score : float) : string :=
  if PrimFloat.leb 0.85 score then "critical"
  else if PrimFloat.leb 0.70 score then "high"
  else if PrimFloat.leb 0.50 score then "medium"
  else if PrimFloat.leb 0.30 score then "low"
  else "none".

(** The recurrence that the table of [levenshteinDistance] is filled with:
    [prefixDistance s1 s2 i j] is the value of [matrix[i][j]], the distance
    between [s1[0:i]] and [s2[0:j]]. *)
Definition costAt (s1 s2 : string) (i j : nat) : Z :=
  match String.get i s1, String.get j s2 with
  | Some c1, Some c2 => if Ascii.eqb c1 c2 then 0 else 1
  | _, _ => 1
  end.

Fixpoint prefixDistance (s1 s2 : string) (i : nat) : nat → Z :=
  match i with
  | 0 => λ j, Z.of_nat j
  | S i' =>
      fix row (j : nat) : Z :=
        match j with
        | 0 => Z.of_nat (S i')
        | S j' =>
            min3 (prefixDistance s1 s2 i' (S j') + 1)
                 (row j' + 1)
                 (prefixDistance s1 s2 i' j' + costAt s1 s2 i' j')
        end
  end.

Definition distance (s1 s2 : string) : Z :=
  prefixDistance s1 s2 (len s1) (len s2).

(** A table of [rows] rows of [cols] cells each. *)
Definition shape (matrix : list (list Z)) (rows cols : nat) : Prop :=
  length matrix = rows ∧ ∀ a row, matrix !! a = Some row → length row = cols.

(** The cells that hold their final value when the loops of
    [levenshteinDistance] reach row [i], column [j]. *)
Definition filledUpTo (s1 s2 : string) (matrix : list (list Z)) (i j : nat) : Prop :=
  ∀ a b, a ≤ len s1 → b ≤ len s2 →
    a = 0 ∨ b = 0 ∨ a < i ∨ (a = i ∧ b < j) →
    getCell matrix a b = Returns (prefixDistance s1 s2 a b).

(** A trusted domain that the sender's domain imitates: not the same
    string, and a similarity strictly between 85 and 100. *)
Definition looksAlike (senderDomain trustedDomain : string) : bool :=
  negb (String.eqb senderDomain trustedDomain) &&
  (let similarity :=
     similarityOf (distance senderDomain trustedDomain) senderDomain trustedDomain in
   PrimFloat.ltb 85 similarity && PrimFloat.ltb similarity 100).

Definition typosquattingSignal (senderDomain trustedDomain : string) : Detection :=
  {| Type_ := "DOMAIN_TYPOSQUATTING";
     Confidence := 0.90;
     Evidence := "Sender domain '" ++ senderDomain ++ "' is "
       ++ formatFloat 1
            (similarityOf (distance senderDomain trustedDomain) senderDomain trustedDomain)
       ++ "% similar to trusted domain '" ++ trustedDomain
       ++ "' (potential typosquatting)" |}.

(** The three rules of the attachment strategy for one attachment name,
    in their order. *)
Definition attachmentRule (email : Email) (name : string) : option Detection :=
  let filename := ToLower name in
  if existsb (HasSuffix filename) highRiskExtensions then
    Some {| Type_ := "HIGH_RISK_ATTACHMENT";
            Confidence := 0.90;
            Evidence := "High-risk attachment type: " ++ name |}
  else if 1 <? Count filename "." then
    Some {| Type_ := "SUSPICIOUS_ATTACHMENT_NAME";
            Confidence := 0.85;
            Evidence := "Suspicious attachment name (double extension): " ++ name |}
  else if existsb (HasSuffix filename) mediumRiskExtensions && hasUrgencyLanguage email then
    Some {| Type_ := "MEDIUM_RISK_ATTACHMENT_WITH_URGENCY";
            Confidence := 0.70;
            Evidence := "Medium-risk attachment + urgent language: " ++ name |}
  else None.

(** The three authentication checks. *)
Definition spfFailed (email : Email) : bool :=
  match Headers email !! "Received-SPF" with
  | Some spf => Contains (ToLower spf) "fail"
  | None => false
  end.

Definition dkimFailed (email : Email) : bool :=
  match Headers email !! "Authentication-Results" with
  | Some authResults => Contains (ToLower authResults) "dkim=fail"
  | None => false
  end.

Definition dmarcFailed (email : Email) : bool :=
  match Headers email !! "Authentication-Results" with
  | Some authResults => Contains (ToLower authResults) "dmarc=fail"
  | None => false
  end.

Definition failedChecks (email : Email) : nat :=
  (if spfFailed email then 1 else 0) + (if dkimFailed email then 1 else 0)
  + (if dmarcFailed email then 1 else 0).

(** The rule cascade of the BEC strategy, from the words of the
    specification: abstain without a recipient or a role label, abstain for
    an internal sender, then the four rules in priority order. *)
Definition becRoleRules (email : Email) (recipient : option User)
  (context : DetectionContext) : option Detection :=
  match recipient with
  | None => None
  | Some recipient =>
    let role := ToLower (Role recipient) in
    let text := ToLower (Subject email ++ " " ++ BodyPreview email) in
    let isCsuite := containsAny role cSuiteRoles in
    let isFinance := containsAny role financeRoles in
    let isHR := containsAny role hrRoles in
    let hasUrgency := containsAny text becUrgencyKeywords in
    let hasWireTransfer := containsAny text wireTransferKeywords in
    let hasPayrollDoc := containsAny text payrollDocKeywords in
    if String.eqb (Role recipient) "" then None
    else if isInternalDomain (extractDomain (SenderEmail email)) (InternalDomains context)
    then None
    else if isCsuite && hasUrgency && hasWireTransfer then
      Some {| Type_ := "BEC_CSUITE_TARGETING";
              Confidence := 0.90;
              Evidence := "Executive recipient (" ++ Role recipient
                ++ ") + external sender + urgent wire transfer request (potential CEO fraud/Fraude au président)" |}
    else if isFinance && hasWireTransfer then
      Some {| Type_ := "BEC_FINANCE_TARGETING";
              Confidence := 0.85;
              Evidence := "Finance role (" ++ Role recipient
                ++ ") + external sender + payment/wire transfer language (potential invoice fraud)" |}
    else if isHR && hasPayrollDoc then
      Some {| Type_ := "BEC_HR_PAYROLL_SCAM";
              Confidence := 0.80;
              Evidence := "HR role (" ++ Role recipient
                ++ ") + external sender + payroll/tax document request (W-2/bulletin de paie phishing)" |}
    else if (isCsuite || isFinance || isHR) && hasUrgency then
      Some {| Type_ := "BEC_HIGH_VALUE_TARGET";
              Confidence := 0.70;
              Evidence := "High-value role (" ++ Role recipient
                ++ ") + external sender + urgent language" |}
    else None
  end.

(** The confidence of every score above the threshold, over all the
    counts that the three vocabularies allow. *)
Definition confidenceInRange (u f a : nat) : bool :=
  let score := languageScore u f a in
  negb (PrimFloat.ltb 1.5 score) ||
  (PrimFloat.leb 0.70 (languageConfidence score) &&
   PrimFloat.leb (languageConfidence score) 0.95).

(** The type and the confidence of the signal a strategy returns. *)
Definition typeOf (outcome : run (option Detection)) : run (option string) :=
  match outcome with
  | Panics => Panics
  | Returns signal => Returns (Type_ <$> signal)
  end.

Definition confidenceOf (outcome : run (option Detection)) : run (option float) :=
  match outcome with
  | Panics => Panics
  | Returns signal => Returns (Confidence <$> signal)
  end.

(** *** Sample inputs *)

Definition sampleEmail (subject senderName senderEmail body : string) : Email :=
  {| ID := ""; TenantID := ""; UserID := ""; ProviderMessageID := "";
     Subject := subject; SenderEmail := senderEmail; SenderName := senderName;
     RecipientEmail := ""; HasAttachments := false; AttachmentNames := [];
     BodyPreview := body; Headers := ∅ |}.

Definition sampleUser (role : string) : User :=
  {| User_ID := ""; User_TenantID := ""; ProviderUserID := ""; User_Email := "";
     DisplayName := ""; Role := role |}.

(** The message whose fields are all empty. *)
Definition emptyEmail : Email := sampleEmail "" "" "" "".

(** One urgency keyword, no financial keyword, six authority keywords. *)
Definition boundaryEmail : Email :=
  sampleEmail "urgent" "" ""
    "ceo president director approved authorized confidential".

(** Two signals of medium confidence. *)
Definition sampleSignals : list Detection :=
  [{| Type_ := "URGENCY_FINANCIAL_LANGUAGE"; Confidence := 0.70; Evidence := "" |};
   {| Type_ := "REPLY_TO_MISMATCH"; Confidence := 0.75; Evidence := "" |}].

(** A payroll-document request to a human-resources role. *)
Definition payrollEmail : Email :=
  sampleEmail "payroll" "" "someone@evil.com" "please send the tax form".

Definition payrollSignal : Detection :=
  {| Type_ := "BEC_HR_PAYROLL_SCAM";
     Confidence := 0.80;
     Evidence := "HR role (HR Director) + external sender + payroll/tax document request (W-2/bulletin de paie phishing)" |}.

Definition payrollAnalysis : FraudAnalysis :=
  {| EmailID := ""; RiskScore := 0.80; RiskLevel_ := "high";
     DetectedThreats := [payrollSignal] |}.

(** The message of the integration test of the detector. *)
Definition integrationEmail : Email :=
  {| ID := ""; TenantID := ""; UserID := ""; ProviderMessageID := "";
     Subject := "Urgent Wire Transfer Required";
     SenderEmail := "john@external-evil.com";
     SenderName := "John Smith, CEO";
     RecipientEmail := ""; HasAttachments := false; AttachmentNames := [];
     BodyPreview := "I need you to process this wire transfer immediately. Send to bank account 12345. Do not discuss with anyone. Urgent!";
     Headers := {[ "Reply-To" := "attacker@gmail.com"; "Received-SPF" := "fail" ]} |}.

(** The executive-fraud message of the specification. *)
Definition wireEmail (senderEmail : string) : Email :=
  sampleEmail "URGENT: Wire Transfer Required" "" senderEmail
    "Please process this wire transfer immediately to our new bank account".

Definition sampleContext : DetectionContext :=
  NewDetectionContext ["company.com"] ["microsoft.com"; "paypal.com"].

(** *** Further notions

    The order of the five risk levels. *)
Definition levelRank (level : string) : nat :=
  if String.eqb level "critical" then 4
  else if String.eqb level "high" then 3
  else if String.eqb level "medium" then 2
  else if String.eqb level "low" then 1
  else 0.

(** The signal types that the seven strategies emit. *)
Definition signalTypes : list string :=
  ["DISPLAY_NAME_MISMATCH"; "DOMAIN_TYPOSQUATTING"; "AUTH_FAILURES";
   "URGENCY_FINANCIAL_LANGUAGE"; "REPLY_TO_MISMATCH";
   "HIGH_RISK_ATTACHMENT"; "SUSPICIOUS_ATTACHMENT_NAME";
   "MEDIUM_RISK_ATTACHMENT_WITH_URGENCY";
   "BEC_CSUITE_TARGETING"; "BEC_FINANCE_TARGETING"; "BEC_HR_PAYROLL_SCAM";
   "BEC_HIGH_VALUE_TARGET"].

(** A signal of one of these types, of confidence between 0.70 and 0.95,
    whose contribution to the risk score is at least 0.70. *)
Definition soundSignal (detection : Detection) : bool :=
  existsb (String.eqb (Type_ detection)) signalTypes &&
  PrimFloat.leb 0.70 (Confidence detection) &&
  PrimFloat.leb (Confidence detection) 0.95 &&
  PrimFloat.leb 0.70 (weighted detection).

(** The same for the signal of the language strategy at given counts. *)
Definition soundLanguageSignal (u f a : nat) : bool :=
  let score := languageScore u f a in
  negb (PrimFloat.ltb 1.5 score) ||
  soundSignal {| Type_ := "URGENCY_FINANCIAL_LANGUAGE";
                 Confidence := languageConfidence score;
                 Evidence := "" |}.

(** The titles of the display-name strategy and the free mail services of
    the Reply-To strategy. *)
Definition execTitles : list string :=
  ["ceo"; "cfo"; "president"; "director"; "chief"; "vp"; "vice president"].

Definition freeEmailDomains : list string :=
  ["gmail.com"; "yahoo.com"; "hotmail.com"; "outlook.com"; "aol.com"].

(** The similarity of the typosquatting strategy, from the distance and
    the larger of the two lengths. *)
Definition similarityAt (distance : Z) (maxLen : nat) : float :=
  PrimFloat.mul
    (PrimFloat.sub 1.0 (PrimFloat.div (float64 distance) (float64 (Z.of_nat maxLen))))
    100.

(** No distance from 1 to [maxLen] gives a similarity in the window. *)
Definition outsideWindow (maxLen : nat) : bool :=
  forallb (λ d, negb (PrimFloat.ltb 85 (similarityAt (Z.of_nat d) maxLen) &&
                      PrimFloat.ltb (similarityAt (Z.of_nat d) maxLen) 100))
    (seq 1 maxLen).

(** The counts of the language strategy for a message. *)
Definition keywordCounts (email : Email) : nat * nat * nat :=
  let text := ToLower (Subject email ++ " " ++ BodyPreview email) in
  (countKeywords text urgencyKeywords,
   countKeywords text financialKeywords,
   countKeywords text authorityKeywords).

(** Fewer than four keywords give no score above the threshold. *)
Definition silentBelowFour (u f a : nat) : bool :=
  (4 <=? u + f + a) || negb (PrimFloat.ltb 1.5 (languageScore u f a)).

(** Raising the counts to [u'], [f'], [a'] lowers neither the score nor
    the confidence. *)
Definition countsMonotone (u' f' a' : nat) : bool :=
  forallb (λ u, forallb (λ f, forallb (λ a,
    PrimFloat.leb (languageScore u f a) (languageScore u' f' a') &&
    PrimFloat.leb (languageConfidence (languageScore u f a))
                  (languageConfidence (languageScore u' f' a')))
    (seq 0 (S a'))) (seq 0 (S f'))) (seq 0 (S u')).

(** A string with an upper-case ASCII letter. *)
Fixpoint hasUpperASCII (s : string) : bool :=
  match s with
  | EmptyString => false
  | String c rest => isUpperASCII c || hasUpperASCII rest
  end.

(** An edit script from [a] to [b] of [n] edits, read from the left: bytes
    kept, substituted, deleted from [a] or inserted from [b], each but the
    kept ones counting for one edit. *)
Inductive edits : string → string → nat → Prop :=
  | edits_done : edits "" "" 0
  | edits_keep c a b n : edits a b n → edits (String c a) (String c b) n
  | edits_substitute c c' a b n : edits a b n → edits (String c a) (String c' b) (S n)
  | edits_delete c a b n : edits a b n → edits (String c a) b (S n)
  | edits_insert c a b n : edits a b n → edits a (String c b) (S n).

(** *** [ValidateEmail] (helpers.go) and package [regexp]

    The expressions of package [regexp], as far as [ValidateEmail] uses
    them: byte classes, sequence and repetition. The classes of
    [emailRegex] hold ASCII bytes only, so matching runes and matching
    bytes is the same: a byte from 0x80 on belongs to a rune outside of
    every class. [Plus] and [Repeat2] are [x+] and [x{2,}]; the
    expression is anchored by [^] and [$] (no flag: the end of the text),
    so [MatchString] is a match of the whole text. *)
Inductive Regexp : Type :=
  | NoMatch
  | EmptyMatch
  | CharClass (class : ascii → bool)
  | Concat (r1 r2 : Regexp)
  | Alternate (r1 r2 : Regexp)
  | Star (r : Regexp).

Definition Literal (c : ascii) : Regexp := CharClass (Ascii.eqb c).
Definition Plus (r : Regexp) : Regexp := Concat r (Star r).
Definition Repeat2 (r : Regexp) : Regexp := Concat r (Concat r (Star r)).

Fixpoint nullable (r : Regexp) : bool :=
  match r with
  | NoMatch => false
  | EmptyMatch => true
  | CharClass _ => false
  | Concat r1 r2 => nullable r1 && nullable r2
  | Alternate r1 r2 => nullable r1 || nullable r2
  | Star _ => true
  end.

(** What is left of [r] to match after the byte [c]. *)
Fixpoint derivative (r : Regexp) (c : ascii) : Regexp :=
  match r with
  | NoMatch => NoMatch
  | EmptyMatch => NoMatch
  | CharClass class => if class c then EmptyMatch else NoMatch
  | Concat r1 r2 =>
      if nullable r1
      then Alternate (Concat (derivative r1 c) r2) (derivative r2 c)
      else Concat (derivative r1 c) r2
  | Alternate r1 r2 => Alternate (derivative r1 c) (derivative r2 c)
  | Star r' => Concat (derivative r' c) (Star r')
  end.

Fixpoint MatchString (r : Regexp) (s : string) : bool :=
  match s with
  | EmptyString => nullable r
  | String c rest => MatchString (derivative r c) rest
  end.

Definition inRange (lo hi c : ascii) : bool :=
  (nat_of_ascii lo <=? nat_of_ascii c) && (nat_of_ascii c <=? nat_of_ascii hi).

(** [[a-zA-Z0-9._%+-]], [[a-zA-Z0-9.-]] and [[a-zA-Z]]. *)
Definition localClass (c : ascii) : bool :=
  inRange "a" "z" c || inRange "A" "Z" c || inRange "0" "9" c ||
  Ascii.eqb c "." || Ascii.eqb c "_" || Ascii.eqb c "%" || Ascii.eqb c "+" ||
  Ascii.eqb c "-".

Definition domainClass (c : ascii) : bool :=
  inRange "a" "z" c || inRange "A" "Z" c || inRange "0" "9" c ||
  Ascii.eqb c "." || Ascii.eqb c "-".

Definition letterClass (c : ascii) : bool :=
  inRange "a" "z" c || inRange "A" "Z" c.

(** [^[a-zA-Z0-9._%+-]+@[a-zA-Z0-9.-]+\.[a-zA-Z]{2,}$] *)
Definition emailRegex : Regexp :=
  Concat (Plus (CharClass localClass))
    (Concat (Literal "@")
      (Concat (Plus (CharClass domainClass))
        (Concat (Literal ".") (Repeat2 (CharClass letterClass))))).

Definition ValidateEmail (email : string) : bool := MatchString emailRegex email.

(** Every byte of [s] is in the class. *)
Fixpoint allBytes (class : ascii → bool) (s : string) : bool :=
  match s with
  | EmptyString => true
  | String c rest => class c && allBytes class rest
  end.

(** A trusted domain that differs from the sender's domain by edits of
    fewer than 15 bytes in a hundred of the longer domain. *)
Definition fewEdits (senderDomain trustedDomain : string) : bool :=
  negb (String.eqb senderDomain trustedDomain) &&
  (20 * distance senderDomain trustedDomain
   <? 3 * Z.of_nat (max2 (len senderDomain) (len trustedDomain)))%Z.

(** At every distance from 1 to [maxLen], the similarity is in the window
    exactly when [20 * distance < 3 * maxLen]. *)
Definition windowIsBudget (maxLen : nat) : bool :=
  forallb (λ d, Bool.eqb
                  (PrimFloat.ltb 85 (similarityAt (Z.of_nat d) maxLen) &&
                   PrimFloat.ltb (similarityAt (Z.of_nat d) maxLen) 100)
                  (20 * d <? 3 * maxLen))
    (seq 1 maxLen).

(** The boundary message with one more urgency keyword, and the signal of
    the boundary message. *)
Definition hurriedEmail : Email :=
  sampleEmail "urgent today" "" ""
    "ceo president director approved authorized confidential".

Definition boundarySignal : Detection :=
  {| Type_ := "URGENCY_FINANCIAL_LANGUAGE";
     Confidence := 0.70;
     Evidence := "High-risk language detected (score: 1.50): 1 urgency, 0 financial, 6 authority keywords" |}.

(** A message with two attachments whose names hold no dot. *)
Definition plainAttachmentsEmail : Email :=
  {| ID := ""; TenantID := ""; UserID := ""; ProviderMessageID := "";
     Subject := "urgent"; SenderEmail := "someone@evil.com"; SenderName := "";
     RecipientEmail := ""; HasAttachments := true;
     AttachmentNames := ["README"; "Makefile"];
     BodyPreview := ""; Headers := ∅ |}.

(** *** The evaluations of the language score that Go permits

    The Go specification lets an implementation fuse [x*y + z] into one
    operation that rounds once, and compilers do so where the processor
    has the instruction; the default amd64 build does not. [FMA] is the
    fused operation: for finite operands the exact product (sign, product
    of the mantissas, sum of the exponents) goes to the addition of
    [SpecFloat], which rounds its exact sum once; with a zero, an infinity
    or not a number among the operands the product is exact, or the sum is
    the rounded product, and rounding twice changes nothing. *)
Definition FMA (x y z : float) : float :=
  match Prim2SF x, Prim2SF y, Prim2SF z with
  | S754_finite sx mx ex, S754_finite sy my ey, S754_finite sz mz ez =>
      SF2Prim (SFadd prec emax (S754_finite (xorb sx sy) (mx * my) (ex + ey))
                     (S754_finite sz mz ez))
  | _, _, _ => PrimFloat.add (PrimFloat.mul x y) z
  end.

(** The three additions of
    [(u * 0.3) + (f * 0.5) + (a * 0.2)] and [0.70 + (score - 1.5) * 0.1]:
    the first plain or fused with one of its two products, the second and
    the third plain or fused with their product. *)
Inductive FirstAddition : Type := PlainAddition | FusedLeft | FusedRight.

Record Evaluation : Type := mkEvaluation {
  firstAddition : FirstAddition;
  secondFused : bool;
  confidenceFused : bool
}.

(** The default amd64 build: every operation rounded on its own. *)
Definition unfused : Evaluation :=
  {| firstAddition := PlainAddition; secondFused := false; confidenceFused := false |}.

Definition evaluations : list Evaluation :=
  [mkEvaluation PlainAddition false false; mkEvaluation PlainAddition false true;
   mkEvaluation PlainAddition true false; mkEvaluation PlainAddition true true;
   mkEvaluation FusedLeft false false; mkEvaluation FusedLeft false true;
   mkEvaluation FusedLeft true false; mkEvaluation FusedLeft true true;
   mkEvaluation FusedRight false false; mkEvaluation FusedRight false true;
   mkEvaluation FusedRight true false; mkEvaluation FusedRight true true].

Definition languageScoreIn (evaluation : Evaluation)
  (urgencyCount financialCount authorityCount : nat) : float :=
  let u := float64 (Z.of_nat urgencyCount) in
  let f := float64 (Z.of_nat financialCount) in
  let a := float64 (Z.of_nat authorityCount) in
  let sum :=
    match firstAddition evaluation with
    | PlainAddition => PrimFloat.add (PrimFloat.mul u 0.3) (PrimFloat.mul f 0.5)
    | FusedLeft => FMA u 0.3 (PrimFloat.mul f 0.5)
    | FusedRight => FMA f 0.5 (PrimFloat.mul u 0.3)
    end in
  if secondFused evaluation then FMA a 0.2 sum
  else PrimFloat.add sum (PrimFloat.mul a 0.2).

Definition languageConfidenceIn (evaluation : Evaluation) (score : float) : float :=
  Min (if confidenceFused evaluation then FMA (PrimFloat.sub score 1.5) 0.1 0.70
       else PrimFloat.add 0.70 (PrimFloat.mul (PrimFloat.sub score 1.5) 0.1))
      0.95.

(** [UrgencyFinancialStrategy.Detect] in a given evaluation. *)
Definition UrgencyFinancialStrategy_DetectIn (evaluation : Evaluation)
  (email : Email) (recipient : option User) (context : DetectionContext)
  : run (option Detection) :=
  let text := ToLower (Subject email ++ " " ++ BodyPreview email) in
  let urgencyCount := countKeywords text urgencyKeywords in
  let financialCount := countKeywords text financialKeywords in
  let authorityCount := countKeywords text authorityKeywords in
  let score := languageScoreIn evaluation urgencyCount financialCount authorityCount in
  if PrimFloat.ltb 1.5 score then
    let confidence := languageConfidenceIn evaluation score in
    Returns (Some {|
      Type_ := "URGENCY_FINANCIAL_LANGUAGE";
      Confidence := confidence;
      Evidence := "High-risk language detected (score: " ++ formatFloat 2 score
        ++ "): " ++ pretty urgencyCount ++ " urgency, "
        ++ pretty financialCount ++ " financial, "
        ++ pretty authorityCount ++ " authority keywords" |})
  else Returns None.

(** One urgency keyword and six authority keywords, evaluated with a
    plain second addition: the counts at which the evaluated score leaves
    the exact one, 1.5. *)
Definition atSlip (evaluation : Evaluation) (u f a : nat) : bool :=
  negb (secondFused evaluation) && ((u =? 1) && (f =? 0) && (a =? 6)).

(** Away from these counts the strategy does what the specification
    says of the exact score [(3u + 5f + 2a) / 10]: a signal exactly above
    1.5, of a confidence above 0.70 and at most 0.95. *)
Definition asSpecified (evaluation : Evaluation) (u f a : nat) : bool :=
  let score := languageScoreIn evaluation u f a in
  let confidence := languageConfidenceIn evaluation score in
  atSlip evaluation u f a ||
  (Bool.eqb (PrimFloat.ltb 1.5 score) (15 <? 3 * u + 5 * f + 2 * a) &&
   (negb (PrimFloat.ltb 1.5 score) ||
    (PrimFloat.ltb 0.70 confidence && PrimFloat.leb confidence 0.95))).

Definition asSpecifiedEverywhere (evaluation : Evaluation) : bool :=
  forallb (λ u, forallb (λ f, forallb (asSpecified evaluation u f)
    (seq 0 (S (length authorityKeywords))))
    (seq 0 (S (length financialKeywords))))
    (seq 0 (S (length urgencyKeywords))).

(** * Properties *)

(** ** Order of [float64] values

    The comparisons of primitive floats are those of their IEEE 754
    readings ([Prim2SF]); on these the order is settled by cases. *)

Ltac sf_cases :=
  repeat match goal with
  | s : bool |- _ => destruct s
  end; simpl; try done;
  change (Pos.compare_cont Eq) with Pos.compare;
  repeat match goal with
  | |- context [Z.compare ?a ?b] => destruct (Z.compare_spec a b); simpl; try done
  | |- context [Pos.compare ?a ?b] => destruct (Pos.compare_spec a b); simpl; try done
  end; try lia.

Lemma SFltb_SFleb a b : SFltb a b = true → SFleb a b = true.
Proof. unfold SFltb, SFleb. by destruct (SFcompare a b) as [[]|]. Qed.

Lemma SFeqb_SFleb a b : SFeqb a b = true → SFleb a b = true.
Proof. unfold SFeqb, SFleb. by destruct (SFcompare a b) as [[]|]. Qed.

Lemma SFleb_trans a b c : SFleb a b = true → SFleb b c = true → SFleb a c = true.
Proof.
  unfold SFleb, SFcompare.
  destruct a as [sa|sa| |sa ma ea], b as [sb|sb| |sb mb eb], c as [sc|sc| |sc mc ec];
    sf_cases.
Qed.

Lemma SFleb_refl_l a b : SFleb a b = true → SFleb a a = true.
Proof.
  unfold SFleb, SFcompare.
  destruct a as [sa|sa| |sa ma ea], b as [sb|sb| |sb mb eb]; sf_cases.
Qed.

Lemma SFleb_refl_r a b : SFleb a b = true → SFleb b b = true.
Proof.
  unfold SFleb, SFcompare.
  destruct a as [sa|sa| |sa ma ea], b as [sb|sb| |sb mb eb]; sf_cases.
Qed.

Lemma SFltb_false_SFleb a b :
  SFleb a a = true → SFleb b b = true → SFltb a b = false → SFleb b a = true.
Proof.
  unfold SFleb, SFltb, SFcompare.
  destruct a as [sa|sa| |sa ma ea], b as [sb|sb| |sb mb eb]; sf_cases.
Qed.

Lemma SFleb_antisym_eqb a b : SFleb a b = true → SFleb b a = true → SFeqb a b = true.
Proof.
  unfold SFleb, SFeqb, SFcompare.
  destruct a as [sa|sa| |sa ma ea], b as [sb|sb| |sb mb eb]; sf_cases.
Qed.

Lemma SFleb_SFltb_false a b : SFleb a b = true → SFltb b a = false.
Proof.
  unfold SFleb, SFltb, SFcompare.
  destruct a as [sa|sa| |sa ma ea], b as [sb|sb| |sb mb eb]; sf_cases.
Qed.

Lemma SFeqb_eucl a b c : SFeqb a b = true → SFeqb a c = true → SFeqb b c = true.
Proof.
  unfold SFeqb, SFcompare.
  destruct a as [sa|sa| |sa ma ea], b as [sb|sb| |sb mb eb], c as [sc|sc| |sc mc ec];
    sf_cases.
Qed.

Lemma fle_trans a b c : fle a b → fle b c → fle a c.
Proof. unfold fle. rewrite !FloatAxioms.leb_spec. apply SFleb_trans. Qed.

Lemma flt_fle a b : flt a b → fle a b.
Proof. unfold fle, flt. rewrite FloatAxioms.leb_spec, FloatAxioms.ltb_spec. apply SFltb_SFleb. Qed.

Lemma fle_refl_l a b : fle a b → fle a a.
Proof. unfold fle. rewrite !FloatAxioms.leb_spec. apply SFleb_refl_l. Qed.

Lemma fle_refl_r a b : fle a b → fle b b.
Proof. unfold fle. rewrite !FloatAxioms.leb_spec. apply SFleb_refl_r. Qed.

Lemma not_flt_fle a b : fle a a → fle b b → PrimFloat.ltb a b = false → fle b a.
Proof.
  unfold fle. rewrite !FloatAxioms.leb_spec, FloatAxioms.ltb_spec.
  apply SFltb_false_SFleb.
Qed.

Lemma fle_antisym_eqb a b : fle a b → fle b a → PrimFloat.eqb a b = true.
Proof.
  unfold fle. rewrite !FloatAxioms.leb_spec, FloatAxioms.eqb_spec.
  apply SFleb_antisym_eqb.
Qed.

Lemma fle_not_flt a b : fle a b → PrimFloat.ltb b a = false.
Proof.
  unfold fle. rewrite FloatAxioms.leb_spec, FloatAxioms.ltb_spec.
  apply SFleb_SFltb_false.
Qed.

Lemma feqb_fle a b : PrimFloat.eqb a b = true → fle a b.
Proof.
  unfold fle. rewrite FloatAxioms.leb_spec, FloatAxioms.eqb_spec. apply SFeqb_SFleb.
Qed.

Lemma feqb_eucl a b c :
  PrimFloat.eqb a b = true → PrimFloat.eqb a c = true → PrimFloat.eqb b c = true.
Proof. rewrite !FloatAxioms.eqb_spec. apply SFeqb_eucl. Qed.

Lemma feqb_refl a b : fle a b → PrimFloat.eqb b b = true.
Proof. intros H. apply fle_antisym_eqb; by eapply fle_refl_r. Qed.

(** [math.Min] away from its special cases. *)
Lemma Min_nonneg x y :
  fle 0 x → fle 0 y → PrimFloat.eqb y 0 = false →
  Min x y = if PrimFloat.ltb x y then x else y.
Proof.
  intros Hx Hy Hy0. unfold Min, IsNegInf, IsNaN.
  assert (∀ z, fle 0 z → PrimFloat.ltb z (PrimFloat.opp MaxFloat64) = false) as Hneg.
  { intros z Hz. apply fle_not_flt. eapply fle_trans; [|exact Hz]. by vm_compute. }
  rewrite !Hneg by done. simpl.
  rewrite (feqb_refl _ _ Hx), (feqb_refl _ _ Hy). simpl.
  destruct (PrimFloat.eqb x 0) eqn:Hx0; simpl; [|done].
  destruct (PrimFloat.eqb x y) eqn:Hxy; simpl; [|done].
  pose proof (feqb_eucl _ _ _ Hxy Hx0). congruence.
Qed.

Lemma Min_one_range x : fle 0 x → fle 0 (Min x 1) ∧ fle (Min x 1) 1.
Proof.
  intros Hx. rewrite Min_nonneg by (done || by vm_compute).
  destruct (PrimFloat.ltb x 1) eqn:Hlt; [|by vm_compute].
  split; [done|]. by apply flt_fle.
Qed.

(** *** The sign of a product *)

Lemma shr_1_nonneg mrs : (0 ≤ shr_m mrs)%Z → (0 ≤ shr_m (shr_1 mrs))%Z.
Proof. destruct mrs as [[|[p|p|]|p] r s]; simpl; lia. Qed.

Lemma iter_pos_preserves {A} (P : A → Prop) (f : A → A) :
  (∀ x, P x → P (f x)) → ∀ n x, P x → P (SpecFloat.iter_pos f n x).
Proof. intros Hf. induction n as [n IH|n IH|]; simpl; auto. Qed.

Lemma shr_fexp_nonneg prec emax m e l :
  (0 ≤ m)%Z → (0 ≤ shr_m (shr_fexp prec emax m e l).1)%Z.
Proof.
  intros Hm. unfold shr_fexp, shr.
  assert (0 ≤ shr_m (shr_record_of_loc m l))%Z as H0 by (by destruct l as [|[]]).
  destruct (_ - e)%Z; simpl; try done.
  by apply (iter_pos_preserves (λ r, 0 ≤ shr_m r)%Z), H0; apply shr_1_nonneg.
Qed.

Lemma round_nearest_even_nonneg mx lx : (0 ≤ mx)%Z → (0 ≤ round_nearest_even mx lx)%Z.
Proof. intros. destruct lx as [|[]]; simpl; try destruct (Z.even mx); lia. Qed.

Lemma binary_round_aux_sign prec emax sx mx ex lx :
  (0 ≤ mx)%Z →
  let r := binary_round_aux prec emax sx mx ex lx in
  r = S754_zero sx ∨ r = S754_infinity sx ∨ ∃ m e, r = S754_finite sx m e.
Proof.
  intros Hm. unfold binary_round_aux.
  pose proof (shr_fexp_nonneg prec emax mx ex lx Hm) as H1.
  destruct (shr_fexp prec emax mx ex lx) as [mrs' e']. simpl in H1.
  pose proof (shr_fexp_nonneg prec emax _ e' loc_Exact
                (round_nearest_even_nonneg _ (loc_of_shr_record mrs') H1)) as H2.
  destruct (shr_fexp prec emax _ e' loc_Exact) as [mrs'' e'']. simpl in H2.
  destruct (shr_m mrs'') as [|m|m]; [by left| |lia].
  destruct (e'' <=? _)%Z; [right; right; eauto|by right; left].
Qed.

(** A value that is not below zero, times a positive finite one, is not
    below zero. *)
Lemma fmul_nonneg x w :
  fle 0 x → fle 0 w → PrimFloat.eqb w 0 = false →
  PrimFloat.ltb w PrimFloat.infinity = true →
  fle 0 (PrimFloat.mul x w).
Proof.
  unfold fle.
  rewrite !FloatAxioms.leb_spec, FloatAxioms.eqb_spec, FloatAxioms.ltb_spec,
    FloatAxioms.mul_spec.
  change (Prim2SF 0) with (S754_zero false).
  change (Prim2SF PrimFloat.infinity) with (S754_infinity false).
  destruct (Prim2SF x) as [sx|sx| |sx mx ex], (Prim2SF w) as [sw|sw| |sw mw ew];
    try destruct sx; try destruct sw; try done.
  intros _ _ _ _. unfold SF64mul, SFmul.
  destruct (binary_round_aux_sign prec emax (xorb false false)
              (Z.pos (mx * mw)) (ex + ew) loc_Exact) as [H|[H|(m&e&H)]];
    [done|..]; rewrite H; done.
Qed.

(** ** Loops and the table of [levenshteinDistance] *)

Lemma bind_Returns {A B} (c : run A) (k : A → run B) a :
  c = Returns a → (c ≫= k) = k a.
Proof. by intros ->. Qed.

Lemma forEach_inv {S} (I : nat → S → Prop) (body : nat → S → run S) n :
  ∀ a st,
  I a st →
  (∀ k s, a ≤ k < a + n → I k s → ∃ s', body k s = Returns s' ∧ I (Datatypes.S k) s') →
  ∃ s', forEach (seq a n) body st = Returns s' ∧ I (a + n) s'.
Proof.
  induction n as [|n IH]; intros a st Hst Hbody; simpl.
  - exists st. by rewrite Nat.add_0_r.
  - destruct (Hbody a st) as (s1 & Hb & Hs1); [lia|done|].
    rewrite (bind_Returns _ _ _ Hb).
    destruct (IH (Datatypes.S a) s1 Hs1) as (s' & Hrun & Hs').
    { intros k s Hk. apply Hbody. lia. }
    exists s'. split; [done|]. by replace (a + Datatypes.S n) with (Datatypes.S a + n) by lia.
Qed.

Lemma setCell_spec matrix rows cols i j v :
  shape matrix rows cols → i < rows → j < cols →
  ∃ matrix', setCell matrix i j v = Returns matrix' ∧ shape matrix' rows cols ∧
    getCell matrix' i j = Returns v ∧
    ∀ a b, (a ≠ i ∨ b ≠ j) → getCell matrix' a b = getCell matrix a b.
Proof.
  intros [Hlen Hrows] Hi Hj. unfold setCell.
  destruct (lookup_lt_is_Some_2 matrix i) as [row Hrow]; [lia|].
  rewrite Hrow. pose proof (Hrows _ _ Hrow) as Hlr.
  rewrite decide_True by lia.
  eexists; split; [done|]. split; [|split].
  - split; [by rewrite length_insert|].
    intros a row'. destruct (decide (a = i)) as [->|Hne].
    + rewrite list_lookup_insert_eq by lia. intros [= <-]. by rewrite length_insert.
    + rewrite list_lookup_insert_ne by done. apply Hrows.
  - unfold getCell. rewrite list_lookup_insert_eq by lia.
    by rewrite list_lookup_insert_eq by lia.
  - intros a b Hab. unfold getCell. destruct (decide (a = i)) as [->|Hne].
    + rewrite list_lookup_insert_eq by lia. rewrite Hrow.
      rewrite list_lookup_insert_ne by (destruct Hab; congruence). done.
    + by rewrite list_lookup_insert_ne.
Qed.

Lemma get_in_range s i : i < len s → ∃ c, String.get i s = Some c.
Proof.
  revert i. induction s as [|c s IH]; intros i; simpl; [lia|].
  destruct i as [|i]; [eauto|]. intros. apply IH. lia.
Qed.

Lemma get_out_of_range s i : len s ≤ i → String.get i s = None.
Proof.
  revert i. induction s as [|c s IH]; intros i; simpl; [done|].
  destruct i as [|i]; [lia|]. intros. apply IH. lia.
Qed.

Lemma prefixDistance_step s1 s2 i j :
  prefixDistance s1 s2 (S i) (S j) =
  min3 (prefixDistance s1 s2 i (S j) + 1) (prefixDistance s1 s2 (S i) j + 1)
       (prefixDistance s1 s2 i j + costAt s1 s2 i j).
Proof. reflexivity. Qed.

Lemma prefixDistance_0_r s1 s2 i : prefixDistance s1 s2 i 0 = Z.of_nat i.
Proof. by destruct i. Qed.

(** The allocation loop. *)
Lemma allocate_rows rows cols :
  ∃ matrix,
    forEach (seq 0 (length (replicate rows ([] : list Z))))
      (λ i matrix, setRow matrix i (replicate cols 0%Z))
      (replicate rows []) = Returns matrix ∧
    shape matrix rows cols ∧
    ∀ a b, a < rows → b < cols → getCell matrix a b = Returns 0%Z.
Proof.
  rewrite length_replicate.
  destruct (forEach_inv
    (λ k (m : list (list Z)), length m = rows ∧
       ∀ a, a < k → m !! a = Some (replicate cols 0%Z) )
    (λ i matrix, setRow matrix i (replicate cols 0%Z)) rows 0 (replicate rows []))
    as (m & Hrun & Hlen & Hm).
  - split; [by rewrite length_replicate|]. lia.
  - intros k s Hk [Hlen Hs]. unfold setRow. rewrite decide_True by lia.
    eexists; split; [done|]. split; [by rewrite length_insert|].
    intros a Ha. destruct (decide (a = k)) as [->|Hne].
    + by rewrite list_lookup_insert_eq by lia.
    + rewrite list_lookup_insert_ne by done. apply Hs. lia.
  - exists m. split; [done|]. split; [split; [done|]|].
    + intros a row Ha. pose proof (lookup_lt_Some _ _ _ Ha).
      rewrite Hm in Ha by lia. injection Ha as <-. by rewrite length_replicate.
    + intros a b Ha Hb. unfold getCell. rewrite Hm by lia.
      by rewrite lookup_replicate_2.
Qed.

Lemma Returns_bind {A B} (a : A) (k : A → run B) : (Returns a ≫= k) = k a.
Proof. reflexivity. Qed.

(** Apply [forEach_inv] with invariant [I] to the loop that starts in state [st]. *)
Ltac loop_from st I :=
  match goal with
  | |- context [forEach (seq ?a ?n) ?body st] =>
      let H := fresh "Hloop" in
      pose proof (forEach_inv I body n a st) as H; cbv beta in H
  end.

Ltac run_step := rewrite Returns_bind; cbv beta.

Lemma levenshteinDistance_returns s1 s2 :
  levenshteinDistance s1 s2 = Returns (distance s1 s2).
Proof.
  unfold levenshteinDistance, distance.
  destruct (Nat.eqb_spec (len s1) 0) as [->|Hn1]; [done|].
  destruct (Nat.eqb_spec (len s2) 0) as [->|Hn2]; [by rewrite prefixDistance_0_r|].
  destruct (allocate_rows (len s1 + 1) (len s2 + 1)) as (m1 & -> & Hsh1 & _).
  cbv zeta. run_step.
  (* first column *)
  loop_from m1 (λ k (mt : list (list Z)), shape mt (len s1 + 1) (len s2 + 1) ∧
       ∀ a, a < k → getCell mt a 0 = Returns (Z.of_nat a)).
  destruct Hloop as (m2 & -> & Hsh2 & Hcol).
  { split; [done|]. lia. }
  { intros k s Hk [Hsh Hs].
    destruct (setCell_spec s _ _ k 0 (Z.of_nat k) Hsh) as (s' & -> & ? & ? & Hoth);
      [lia|lia|].
    eexists; split; [done|]. split; [done|].
    intros a Ha. destruct (decide (a = k)) as [->|]; [done|].
    rewrite Hoth by auto. apply Hs. lia. }
  run_step.
  (* first row *)
  loop_from m2 (λ k (mt : list (list Z)), shape mt (len s1 + 1) (len s2 + 1) ∧
       (∀ a, a < len s1 + 1 → getCell mt a 0 = Returns (Z.of_nat a)) ∧
       ∀ b, b < k → getCell mt 0 b = Returns (Z.of_nat b)).
  destruct Hloop as (m3 & -> & Hsh3 & Hcol3 & Hrow3).
  { split; [done|]. split; [done|]. lia. }
  { intros k s Hk (Hsh & Hc & Hr).
    destruct (setCell_spec s _ _ 0 k (Z.of_nat k) Hsh) as (s' & -> & ? & Hset & Hoth);
      [lia|lia|].
    eexists; split; [done|]. split; [done|]. split.
    - intros a Ha. destruct (decide (a = 0 ∧ k = 0)) as [[-> ->]|Hne]; [done|].
      rewrite Hoth by lia. by apply Hc.
    - intros b Hb. destruct (decide (b = k)) as [->|]; [done|].
      rewrite Hoth by auto. apply Hr. lia. }
  run_step.
  (* the recurrence *)
  loop_from m3 (λ k (mt : list (list Z)),
       shape mt (len s1 + 1) (len s2 + 1) ∧ filledUpTo s1 s2 mt k 1).
  destruct Hloop as (m4 & -> & Hsh4 & Hfill).
  { split; [done|]. intros a b Ha Hb Hab.
    destruct (decide (b = 0)) as [->|Hb0].
    - rewrite prefixDistance_0_r. apply Hcol3. lia.
    - assert (a = 0) as -> by lia. apply Hrow3. lia. }
  { intros i mt Hi [Hsh Hf].
    loop_from mt (λ k (mt : list (list Z)),
       shape mt (len s1 + 1) (len s2 + 1) ∧ filledUpTo s1 s2 mt i k).
    destruct Hloop as (mt' & Hrun & Hsh' & Hf'); [done| |].
    - intros j s Hj [Hshs Hfs].
      destruct i as [|i]; [lia|]. destruct j as [|j]; [lia|].
      replace (S i - 1) with i by lia. replace (S j - 1) with j by lia.
      destruct (get_in_range s1 i) as [c1 Hc1]; [lia|].
      destruct (get_in_range s2 j) as [c2 Hc2]; [lia|].
      unfold byteAt. rewrite Hc1, Hc2. do 2 run_step. cbv zeta.
      rewrite (Hfs i (S j)) by lia. run_step.
      rewrite (Hfs (S i) j) by lia. run_step.
      rewrite (Hfs i j) by lia. run_step.
      destruct (setCell_spec s _ _ (S i) (S j)
        (min3 (prefixDistance s1 s2 i (S j) + 1) (prefixDistance s1 s2 (S i) j + 1)
              (prefixDistance s1 s2 i j + (if Ascii.eqb c1 c2 then 0 else 1))) Hshs)
        as (s' & -> & ? & Hset & Hoth); [lia|lia|].
      eexists; split; [done|]. split; [done|].
      intros a b Ha Hb Hab.
      destruct (decide (a = S i ∧ b = S j)) as [[-> ->]|Hne].
      + rewrite Hset, prefixDistance_step. unfold costAt. by rewrite Hc1, Hc2.
      + rewrite Hoth by lia. apply Hfs; [done..|lia].
    - exists mt'. split; [exact Hrun|]. split; [done|].
      intros a b Ha Hb Hab. apply Hf'; [done..|]. lia. }
  run_step. apply Hfill; [done..|]. lia.
Qed.

Lemma costAt_sym s1 s2 i j : costAt s1 s2 i j = costAt s2 s1 j i.
Proof.
  unfold costAt. destruct (String.get i s1), (String.get j s2); try done.
  by rewrite Ascii.eqb_sym.
Qed.

Lemma costAt_range s1 s2 i j : (0 ≤ costAt s1 s2 i j ≤ 1)%Z.
Proof.
  unfold costAt. destruct (String.get i s1), (String.get j s2); try lia.
  destruct (Ascii.eqb _ _); lia.
Qed.

Lemma prefixDistance_sym s1 s2 i : ∀ j,
  prefixDistance s1 s2 i j = prefixDistance s2 s1 j i.
Proof.
  induction i as [|i IHi]; intros j.
  - by rewrite prefixDistance_0_r.
  - induction j as [|j IHj]; [done|].
    rewrite !prefixDistance_step, IHj, !IHi, (costAt_sym s1 s2).
    unfold min3. lia.
Qed.

Lemma prefixDistance_nonneg s1 s2 i : ∀ j, (0 ≤ prefixDistance s1 s2 i j)%Z.
Proof.
  induction i as [|i IHi]; intros j; [simpl; lia|].
  induction j as [|j IHj]; [simpl; lia|].
  rewrite prefixDistance_step. pose proof (IHi j). pose proof (IHi (S j)).
  pose proof (costAt_range s1 s2 i j). unfold min3. lia.
Qed.

(** A cell never exceeds the larger of its two indices: the values of
    the table stay within the lengths of the strings, far from the limits
    of [int]. *)
Lemma prefixDistance_bound s1 s2 i : ∀ j,
  (prefixDistance s1 s2 i j ≤ Z.of_nat (Nat.max i j))%Z.
Proof.
  induction i as [|i IHi]; intros j; [simpl; lia|].
  destruct j as [|j]; [simpl; lia|].
  rewrite prefixDistance_step. pose proof (IHi j).
  pose proof (costAt_range s1 s2 i j). unfold min3. lia.
Qed.

Lemma prefixDistance_diag s i : i ≤ len s → prefixDistance s s i i = 0%Z.
Proof.
  induction i as [|i IH]; [done|]. intros Hi.
  rewrite prefixDistance_step.
  pose proof (prefixDistance_nonneg s s i (S i)).
  pose proof (prefixDistance_nonneg s s (S i) i).
  rewrite IH by lia. unfold costAt.
  destruct (get_in_range s i) as [c ->]; [lia|].
  rewrite Ascii.eqb_refl. unfold min3. lia.
Qed.

Lemma prefixDistance_zero s1 s2 i : ∀ j,
  prefixDistance s1 s2 i j = 0%Z →
  i = j ∧ ∀ k, k < i → String.get k s1 = String.get k s2 ∧ k < len s1.
Proof.
  induction i as [|i IHi]; intros j.
  - simpl. intros. split; [lia|]. lia.
  - destruct j as [|j]; [simpl; lia|].
    rewrite prefixDistance_step. intros H0.
    pose proof (prefixDistance_nonneg s1 s2 i (S j)).
    pose proof (prefixDistance_nonneg s1 s2 (S i) j).
    pose proof (prefixDistance_nonneg s1 s2 i j).
    pose proof (costAt_range s1 s2 i j).
    assert (prefixDistance s1 s2 i j = 0%Z ∧ costAt s1 s2 i j = 0%Z) as [Hd Hc]
      by (unfold min3 in H0; lia).
    destruct (IHi j Hd) as [-> Hk]. split; [done|].
    intros k Hlt. destruct (decide (k = j)) as [->|]; [|apply Hk; lia].
    unfold costAt in Hc.
    destruct (String.get j s1) as [c1|] eqn:E1; [|lia].
    destruct (String.get j s2) as [c2|] eqn:E2; [|lia].
    destruct (Ascii.eqb_spec c1 c2) as [->|]; [|lia]. split; [done|].
    destruct (decide (j < len s1)); [done|].
    rewrite get_out_of_range in E1 by lia. done.
Qed.

Lemma distance_zero_eq a b : distance a b = 0%Z → a = b.
Proof.
  unfold distance. intros H. apply prefixDistance_zero in H as [Hlen Hk].
  apply String.get_correct. intros k.
  destruct (decide (k < len a)) as [Hlt|Hge]; [by apply Hk|].
  rewrite !get_out_of_range; [done|rewrite <- Hlen|]; lia.
Qed.

(** C6. The edit distance is symmetric, is zero between a string and
    itself, is the length of [s] between the empty string and [s], and is
    zero only between identical strings; every call returns (no index
    leaves the table). *)
Theorem levenshteinDistance_properties (a b s : string) :
  levenshteinDistance a b = levenshteinDistance b a ∧
  levenshteinDistance s s = Returns 0%Z ∧
  levenshteinDistance "" s = Returns (Z.of_nat (len s)) ∧
  (levenshteinDistance a b = Returns 0%Z ↔ a = b).
Proof.
  rewrite !levenshteinDistance_returns. unfold distance.
  split; [by rewrite prefixDistance_sym|].
  split; [by rewrite prefixDistance_diag|].
  split; [done|]. split.
  - intros [= H]. by apply distance_zero_eq.
  - intros ->. by rewrite prefixDistance_diag.
Qed.

(** ** The aggregation of the signals *)

(** The weight table holds no zero, so the weight of a type is its entry,
    or 1.0 for a type without entry. *)
Lemma weightOf_table (type : string) :
  weightOf type = default 1.0%float (weights !! type).
Proof.
  unfold weightOf. destruct (weights !! type) as [w|] eqn:E; [|done]. simpl.
  apply elem_of_list_to_map_2 in E.
  repeat (apply elem_of_cons in E as [[= _ ->]|E]; [done|]).
  by apply elem_of_nil in E.
Qed.

Lemma weightOf_positive (type : string) :
  fle 0 (weightOf type) ∧ PrimFloat.eqb (weightOf type) 0 = false ∧
  PrimFloat.ltb (weightOf type) PrimFloat.infinity = true.
Proof.
  rewrite weightOf_table. destruct (weights !! type) as [w|] eqn:E; [|by vm_compute].
  simpl. apply elem_of_list_to_map_2 in E.
  repeat (apply elem_of_cons in E as [[= _ ->]|E]; [by vm_compute|]).
  by apply elem_of_nil in E.
Qed.

Lemma weighted_nonneg (detection : Detection) :
  fle 0 (Confidence detection) → fle 0 (weighted detection).
Proof.
  intros H. destruct (weightOf_positive (Type_ detection)) as (?&?&?).
  by apply fmul_nonneg.
Qed.

(** The running maximum never goes below zero, whatever the signals. *)
Lemma maxScoreLoop_nonneg (detections : list Detection) :
  ∀ maxScore, fle 0 maxScore → fle 0 (maxScoreLoop detections maxScore).
Proof.
  induction detections as [|d ds IH]; intros m Hm; simpl; [done|].
  destruct (PrimFloat.ltb m _) eqn:Hlt; apply IH; [|done].
  eapply fle_trans; [exact Hm|]. by apply flt_fle.
Qed.

(** With contributions that are not below zero, the loop ends on the
    start value or on the contribution of a signal, and on an upper bound
    of both. *)
Lemma maxScoreLoop_max (detections : list Detection) :
  ∀ maxScore, fle 0 maxScore →
  Forall (λ d, fle 0 (weighted d)) detections →
  let result := maxScoreLoop detections maxScore in
  (result = maxScore ∨ ∃ d, d ∈ detections ∧ result = weighted d) ∧
  fle maxScore result ∧
  Forall (λ d, fle (weighted d) result) detections.
Proof.
  induction detections as [|d ds IH]; intros m Hm Hall; simpl.
  { split; [by left|]. split; [by eapply fle_refl_r|constructor]. }
  apply Forall_cons in Hall as [Hd Hds]. fold (weighted d).
  destruct (PrimFloat.ltb m (weighted d)) eqn:Hlt.
  - destruct (IH (weighted d) Hd Hds) as (Hres & Hle & Hrest).
    split; [|split].
    + right. destruct Hres as [->|(d' & Hin & ->)].
      * exists d. split; [left|done].
      * exists d'. split; [by right|done].
    + eapply fle_trans; [|exact Hle]. by apply flt_fle.
    + by constructor.
  - destruct (IH m Hm Hds) as (Hres & Hle & Hrest).
    split; [|split; [done|]].
    + destruct Hres as [->|(d' & Hin & ->)]; [by left|].
      right. exists d'. split; [by right|done].
    + constructor; [|done]. eapply fle_trans; [|exact Hle].
      apply not_flt_fle; [by eapply fle_refl_r..|done].
Qed.

Lemma calculateRiskScore_range (detections : list Detection) :
  fle 0 (calculateRiskScore detections) ∧ fle (calculateRiskScore detections) 1.
Proof.
  unfold calculateRiskScore. destruct (length detections =? 0); [by vm_compute|].
  apply Min_one_range, maxScoreLoop_nonneg. by vm_compute.
Qed.

(** C1. The risk score of no signal is exactly 0.0. For signals whose
    confidence is not below zero, the risk score of a non-empty list is
    the minimum of 1.0 and the largest [confidence * weight] of the list:
    some signal [top] of the list bounds every contribution and the score
    equals (Go's [==]) [Min (weighted top) 1.0]. The weight of a type is
    its entry in the table, and 1.0 for a type without entry. *)
Theorem calculateRiskScore_weighted_max (detections : list Detection) :
  Forall (λ d, fle 0 (Confidence d)) detections →
  (∀ type, weightOf type = default 1.0%float (weights !! type)) ∧
  match detections with
  | [] => calculateRiskScore detections = 0%float
  | _ :: _ =>
      ∃ top, top ∈ detections ∧
        Forall (λ d, fle (weighted d) (weighted top)) detections ∧
        PrimFloat.eqb (calculateRiskScore detections) (Min (weighted top) 1.0) = true
  end.
Proof.
  intros Hconf. split; [apply weightOf_table|].
  destruct detections as [|d0 ds]; [done|].
  assert (Forall (λ d, fle 0 (weighted d)) (d0 :: ds)) as Hall.
  { eapply Forall_impl; [exact Hconf|]. apply weighted_nonneg. }
  unfold calculateRiskScore. change (length (d0 :: ds) =? 0) with false. cbv iota.
  destruct (maxScoreLoop_max (d0 :: ds) 0%float) as (Hres & Hle & Hub);
    [by vm_compute|done|].
  destruct Hres as [Hzero|(top & Hin & Htop)].
  - (* every contribution is a zero *)
    exists d0. rewrite Hzero in Hub |- *.
    apply Forall_cons in Hall as [H0 _].
    pose proof (proj1 (Forall_cons _ _ _) Hub) as [Hd0 _].
    split; [left|]. split.
    + eapply Forall_impl; [exact Hub|]. intros d Hd. simpl in Hd.
      by eapply fle_trans.
    + rewrite (Min_nonneg (weighted d0)) by (done || by vm_compute).
      replace (PrimFloat.ltb (weighted d0) 1) with true.
      * change (Min 0 1) with 0%float. by apply fle_antisym_eqb.
      * symmetry. pose proof (fle_antisym_eqb _ _ Hd0 H0) as Heq.
        revert Heq. rewrite FloatAxioms.eqb_spec, FloatAxioms.ltb_spec.
        change (Prim2SF 0) with (S754_zero false).
        change (Prim2SF 1) with (S754_finite false 4503599627370496 (-52)).
        by destruct (Prim2SF (weighted d0)) as [[]|[]| |[]].
  - exists top. rewrite Htop in Hub |- *. split; [done|]. split; [done|].
    eapply feqb_refl. apply (Min_one_range (weighted top)).
    rewrite Forall_forall in Hall. by apply Hall.
Qed.

(** ** The typosquatting strategy *)

Lemma typosquattingLoop_first (senderDomain : string) (trustedDomains : list string) :
  typosquattingLoop senderDomain trustedDomains =
  Returns (typosquattingSignal senderDomain
             <$> List.find (looksAlike senderDomain) trustedDomains).
Proof.
  induction trustedDomains as [|td rest IH]; simpl; [done|].
  unfold looksAlike at 1. destruct (String.eqb senderDomain td); simpl; [done|].
  rewrite levenshteinDistance_returns, Returns_bind. cbv zeta.
  by destruct (_ && _).
Qed.

Lemma looksAlike_irrefl (domain : string) : looksAlike domain domain = false.
Proof. unfold looksAlike. by rewrite String.eqb_refl. Qed.

(** The recurrence is evaluated through the table, which is the faster. *)
Lemma distance_from_table (s1 s2 : string) (d : Z) :
  levenshteinDistance s1 s2 = Returns d → distance s1 s2 = d.
Proof. rewrite levenshteinDistance_returns. by intros [= ->]. Qed.

Lemma micros0ft_looksAlike : looksAlike "micros0ft.com" "microsoft.com" = true.
Proof.
  unfold looksAlike.
  rewrite (distance_from_table "micros0ft.com" "microsoft.com" 1) by (by vm_compute).
  by vm_compute.
Qed.

Lemma example_looksAlike : looksAlike "example.com" "microsoft.com" = false.
Proof.
  unfold looksAlike.
  rewrite (distance_from_table "example.com" "microsoft.com" 9) by (by vm_compute).
  by vm_compute.
Qed.

(** C5. The typosquatting strategy returns the signal of confidence 0.90
    for the first domain of the trusted list, in the order of the list,
    that differs from the sender's domain and whose similarity
    [(1 - distance/max(len, len)) * 100], computed in [float64] from the
    edit distance that [levenshteinDistance] returns, is strictly between
    85 and 100, and no signal when there is none. A trusted domain equal
    to the sender's domain is never the one selected, and removing it from
    the list changes nothing. A sender at micros0ft.com, with
    microsoft.com trusted, gets the signal, at a similarity of 92.3; a
    sender at example.com gets none. *)
Theorem TyposquattingStrategy_first_match
  (email : Email) (recipient : option User) (context : DetectionContext) :
  let senderDomain := extractDomain (SenderEmail email) in
  let firstMatch := List.find (looksAlike senderDomain) (TrustedDomains context) in
  TyposquattingStrategy_Detect email recipient context =
    Returns (typosquattingSignal senderDomain <$> firstMatch) ∧
  (∀ trustedDomain,
     let similarity :=
       PrimFloat.mul
         (PrimFloat.sub 1.0
            (PrimFloat.div
               (float64 (distance senderDomain trustedDomain))
               (float64 (Z.of_nat (Nat.max (len senderDomain) (len trustedDomain))))))
         100 in
     looksAlike senderDomain trustedDomain =
       negb (String.eqb senderDomain trustedDomain) &&
       (PrimFloat.ltb 85 similarity && PrimFloat.ltb similarity 100) ∧
     similarityOf (distance senderDomain trustedDomain) senderDomain trustedDomain
       = similarity ∧
     Confidence (typosquattingSignal senderDomain trustedDomain) = 0.90%float ∧
     Evidence (typosquattingSignal senderDomain trustedDomain) =
       "Sender domain '" ++ senderDomain ++ "' is " ++ formatFloat 1 similarity
       ++ "% similar to trusted domain '" ++ trustedDomain
       ++ "' (potential typosquatting)" ∧
     levenshteinDistance senderDomain trustedDomain =
       Returns (distance senderDomain trustedDomain)) ∧
  firstMatch ≠ Some senderDomain ∧
  firstMatch =
    List.find (looksAlike senderDomain)
      (List.filter (λ t, negb (String.eqb senderDomain t)) (TrustedDomains context)) ∧
  TyposquattingStrategy_Detect
    (sampleEmail "" "" "user@micros0ft.com" "") None
    (NewDetectionContext [] ["microsoft.com"]) =
    Returns (Some (typosquattingSignal "micros0ft.com" "microsoft.com")) ∧
  levenshteinDistance "micros0ft.com" "microsoft.com" = Returns 1%Z ∧
  similarityOf 1 "micros0ft.com" "microsoft.com" = 92.307692307692307%float ∧
  levenshteinDistance "example.com" "microsoft.com" = Returns 9%Z ∧
  similarityOf 9 "example.com" "microsoft.com" = 30.76923076923077%float ∧
  TyposquattingStrategy_Detect
    (sampleEmail "" "" "user@example.com" "") None
    (NewDetectionContext [] ["microsoft.com"]) = Returns None.
Proof.
  intros senderDomain firstMatch. split; [apply typosquattingLoop_first|].
  split;
    [intros td; split; [done|]; split; [done|]; split; [done|];
     split; [done|apply levenshteinDistance_returns]|].
  split; [|split; [|split; [|split; [by vm_compute|]; split; [by vm_compute|];
                             split; [by vm_compute|]; split; [by vm_compute|]]]].
  - intros H. apply List.find_some in H as [_ H].
    by rewrite looksAlike_irrefl in H.
  - subst firstMatch.
    induction (TrustedDomains context) as [|td rest IH]; simpl; [done|].
    unfold looksAlike at 1. destruct (String.eqb senderDomain td) eqn:E; simpl; [done|].
    unfold looksAlike at 2. rewrite E. simpl. by destruct (_ && _).
  - unfold TyposquattingStrategy_Detect.
    replace (extractDomain (SenderEmail (sampleEmail "" "" "user@micros0ft.com" "")))
      with "micros0ft.com" by (by vm_compute).
    rewrite typosquattingLoop_first.
    unfold NewDetectionContext, TrustedDomains, List.find.
    rewrite micros0ft_looksAlike. reflexivity.
  - unfold TyposquattingStrategy_Detect.
    replace (extractDomain (SenderEmail (sampleEmail "" "" "user@example.com" "")))
      with "example.com" by (by vm_compute).
    rewrite typosquattingLoop_first.
    unfold NewDetectionContext, TrustedDomains, List.find.
    rewrite example_looksAlike. reflexivity.
Qed.

(** *** A quotient [x / x]

    It is 1.0, or not a number (for a zero, an infinity, or not a number). *)

Lemma SFdiv_core_self (m : positive) (e : Z) :
  SFdiv_core_binary prec emax (Z.pos m) e (Z.pos m) e =
  (9007199254740992%Z, (-53)%Z, loc_Exact).
Proof.
  unfold SFdiv_core_binary.
  replace (Zdigits2 (Z.pos m) + e - (Zdigits2 (Z.pos m) + e))%Z with 0%Z by lia.
  replace (e - e)%Z with 0%Z by lia.
  change (Z.min (fexp prec emax 0) 0) with (-53)%Z.
  change (0 - -53)%Z with 53%Z. cbv iota beta zeta.
  rewrite Z.shiftl_mul_pow2 by lia. change (2 ^ 53)%Z with 9007199254740992%Z.
  pose proof (Z.div_mul 9007199254740992 (Z.pos m) ltac:(lia)) as Hq.
  pose proof (Z.mod_mul 9007199254740992 (Z.pos m) ltac:(lia)) as Hr.
  rewrite (Z.mul_comm 9007199254740992) in Hq, Hr.
  unfold Z.div, Z.modulo in Hq, Hr.
  destruct (Z.div_eucl _ _) as [q r]. subst q r.
  unfold new_location, new_location_even, new_location_odd.
  by destruct (Z.even _).
Qed.

Lemma fdiv_self (x : float) :
  PrimFloat.div x x = 1%float ∨ Prim2SF (PrimFloat.div x x) = S754_nan.
Proof.
  destruct (Prim2SF x) as [s|s| |s m e] eqn:Hx.
  1-3: right; rewrite FloatAxioms.div_spec, Hx; done.
  left. rewrite <- (SF2Prim_Prim2SF (PrimFloat.div x x)).
  rewrite FloatAxioms.div_spec, Hx. unfold SF64div, SFdiv.
  rewrite SFdiv_core_self, xorb_nilpotent. by vm_compute.
Qed.

(** A distance equal to the longer length gives no similarity in the
    window of the strategy. *)
Lemma similarity_of_whole_length (x : float) :
  let similarity := PrimFloat.mul (PrimFloat.sub 1 (PrimFloat.div x x)) 100 in
  PrimFloat.ltb 85 similarity && PrimFloat.ltb similarity 100 = false.
Proof.
  destruct (fdiv_self x) as [->|Hnan]; [by vm_compute|].
  cbv zeta. rewrite !FloatAxioms.ltb_spec, FloatAxioms.mul_spec, FloatAxioms.sub_spec, Hnan.
  done.
Qed.

Lemma looksAlike_empty_sender (trustedDomain : string) :
  looksAlike "" trustedDomain = false.
Proof.
  unfold looksAlike. destruct trustedDomain as [|c rest]; [done|].
  change (negb ("" =? String c rest)%string) with true. rewrite andb_true_l.
  unfold distance, similarityOf, max2. change (len "") with 0.
  rewrite Nat.max_0_l. apply similarity_of_whole_length.
Qed.

Lemma find_looksAlike_empty_sender (trustedDomains : list string) :
  List.find (looksAlike "") trustedDomains = None.
Proof.
  induction trustedDomains as [|td rest IH]; [done|].
  simpl. by rewrite looksAlike_empty_sender.
Qed.

(** ** The rule-based strategies *)

Lemma BECRoleStrategy_follows_rules
  (email : Email) (recipient : option User) (context : DetectionContext) :
  BECRoleStrategy_Detect email recipient context =
    Returns (becRoleRules email recipient context).
Proof.
  destruct recipient as [u|]; [|reflexivity].
  unfold BECRoleStrategy_Detect, becRoleRules.
  cbv zeta.
  destruct (String.eqb (Role u) ""); [reflexivity|].
  destruct (isInternalDomain _ _); [reflexivity|].
  generalize (containsAny (ToLower (Role u)) cSuiteRoles)
    (containsAny (ToLower (Role u)) financeRoles)
    (containsAny (ToLower (Role u)) hrRoles)
    (containsAny (ToLower (Subject email ++ " " ++ BodyPreview email)) becUrgencyKeywords)
    (containsAny (ToLower (Subject email ++ " " ++ BodyPreview email)) wireTransferKeywords)
    (containsAny (ToLower (Subject email ++ " " ++ BodyPreview email)) payrollDocKeywords).
  by intros [] [] [] [] [] [].
Qed.

(** C4. The BEC strategy abstains without a recipient, for a recipient
    with an empty role label and for a sender whose domain is internal;
    otherwise it returns the first match of its four rules, in the order
    C-suite with urgency and wire transfer (0.90), finance with wire
    transfer (0.85), HR with payroll documents (0.80), any matched
    category with urgency (0.70), and nothing without a match. The
    executive-fraud message of the specification gets the C-suite signal
    from an external sender and nothing from an internal one or without
    recipient. *)
Theorem BECRoleStrategy_rule_cascade
  (email : Email) (recipient : option User) (context : DetectionContext) :
  BECRoleStrategy_Detect email recipient context =
    Returns (becRoleRules email recipient context) ∧
  BECRoleStrategy_Detect email None context = Returns None ∧
  BECRoleStrategy_Detect email (Some (sampleUser "")) context = Returns None ∧
  (if isInternalDomain (extractDomain (SenderEmail email)) (InternalDomains context)
   then BECRoleStrategy_Detect email recipient context = Returns None
   else True) ∧
  (Type_ <$> becRoleRules (wireEmail "attacker@evil.com") (Some (sampleUser "CEO"))
               sampleContext = Some "BEC_CSUITE_TARGETING" ∧
   Confidence <$> becRoleRules (wireEmail "attacker@evil.com") (Some (sampleUser "CEO"))
               sampleContext = Some 0.90%float ∧
   becRoleRules (wireEmail "colleague@company.com") (Some (sampleUser "CEO"))
               sampleContext = None ∧
   becRoleRules (wireEmail "attacker@evil.com") None sampleContext = None).
Proof.
  split; [apply BECRoleStrategy_follows_rules|]. split; [reflexivity|]. split; [reflexivity|]. split.
  - destruct (isInternalDomain _ _) eqn:E; [|exact I].
    rewrite BECRoleStrategy_follows_rules. destruct recipient as [u|]; [|reflexivity].
    unfold becRoleRules. cbv zeta. rewrite E. by destruct (String.eqb _ _).
  - by vm_compute.
Qed.

(** *** Attachments *)

Lemma highRiskLoop_existsb (name filename : string) (exts : list string) :
  highRiskLoop name filename exts =
  if existsb (HasSuffix filename) exts then
    Some {| Type_ := "HIGH_RISK_ATTACHMENT"; Confidence := 0.90;
            Evidence := "High-risk attachment type: " ++ name |}
  else None.
Proof.
  induction exts as [|ext rest IH]; simpl; [done|].
  by destruct (HasSuffix filename ext).
Qed.

Lemma mediumRiskLoop_existsb (email : Email) (name filename : string) (exts : list string) :
  mediumRiskLoop email name filename exts =
  if existsb (HasSuffix filename) exts && hasUrgencyLanguage email then
    Some {| Type_ := "MEDIUM_RISK_ATTACHMENT_WITH_URGENCY"; Confidence := 0.70;
            Evidence := "Medium-risk attachment + urgent language: " ++ name |}
  else None.
Proof.
  induction exts as [|ext rest IH]; simpl; [done|].
  destruct (HasSuffix filename ext); simpl; [|done].
  rewrite IH. destruct (hasUrgencyLanguage email); [done|].
  by rewrite !andb_false_r.
Qed.

Lemma head_omap_cons {A B} (f : A → option B) (x : A) (l : list A) :
  head (omap f (x :: l)) =
  match f x with Some y => Some y | None => head (omap f l) end.
Proof. simpl. by destruct (f x). Qed.

Lemma attachmentLoop_first (email : Email) (names : list string) :
  attachmentLoop email names = head (omap (attachmentRule email) names).
Proof.
  induction names as [|name rest IH]; [done|].
  rewrite head_omap_cons, <- IH. cbn [attachmentLoop]. cbv zeta.
  unfold attachmentRule. cbv zeta.
  rewrite highRiskLoop_existsb, mediumRiskLoop_existsb.
  destruct (existsb _ highRiskExtensions); [reflexivity|].
  destruct (1 <? _); [reflexivity|].
  by destruct (_ && _).
Qed.

(** C8. The attachment strategy returns no signal for a message that
    declares no attachment; otherwise the signal of the first attachment
    name, in the given order, for which a rule applies, the rules for a
    name being tried in the order high-risk extension (0.90), more than
    one dot (0.85), medium-risk extension together with urgency in the
    subject and body (0.70). The attachments after that one have no
    influence on the result. *)
Theorem AttachmentStrategy_first_rule
  (email : Email) (recipient : option User) (context : DetectionContext) :
  AttachmentStrategy_Detect email recipient context =
    Returns (if HasAttachments email
             then head (omap (attachmentRule email) (AttachmentNames email))
             else None) ∧
  (∀ name,
     let filename := ToLower name in
     attachmentRule email name =
       if existsb (HasSuffix filename) highRiskExtensions then
         Some {| Type_ := "HIGH_RISK_ATTACHMENT"; Confidence := 0.90;
                 Evidence := "High-risk attachment type: " ++ name |}
       else if 1 <? Count filename "." then
         Some {| Type_ := "SUSPICIOUS_ATTACHMENT_NAME"; Confidence := 0.85;
                 Evidence := "Suspicious attachment name (double extension): " ++ name |}
       else if existsb (HasSuffix filename) mediumRiskExtensions
               && hasUrgencyLanguage email then
         Some {| Type_ := "MEDIUM_RISK_ATTACHMENT_WITH_URGENCY"; Confidence := 0.70;
                 Evidence := "Medium-risk attachment + urgent language: " ++ name |}
       else None) ∧
  (∀ before name after,
     AttachmentNames email = (before ++ name :: after)%list →
     HasAttachments email = true →
     Forall (λ n, attachmentRule email n = None) before →
     is_Some (attachmentRule email name) →
     AttachmentStrategy_Detect email recipient context =
       Returns (attachmentRule email name)).
Proof.
  assert (AttachmentStrategy_Detect email recipient context =
    Returns (if HasAttachments email
             then head (omap (attachmentRule email) (AttachmentNames email))
             else None)) as Hfirst.
  { unfold AttachmentStrategy_Detect.
    destruct (HasAttachments email); simpl; [|done].
    by rewrite attachmentLoop_first. }
  split; [exact Hfirst|]. split; [done|].
  intros before name after Hnames Hhas Hbefore [det Hdet].
  rewrite Hfirst, Hhas, Hnames, omap_app.
  replace (omap (attachmentRule email) before) with ([] : list Detection).
  - simpl. by rewrite Hdet.
  - symmetry. clear Hnames. induction before as [|n rest IH]; [done|].
    apply Forall_cons in Hbefore as [Hn Hrest]. simpl. rewrite Hn. by apply IH.
Qed.

(** *** Authentication failures *)

Lemma authFailures_length (email : Email) :
  length (authFailures email) = failedChecks email.
Proof.
  unfold authFailures, failedChecks, spfFailed, dkimFailed, dmarcFailed, append.
  destruct (Headers email !! "Received-SPF") as [spf|];
    destruct (Headers email !! "Authentication-Results") as [auth|];
    repeat match goal with
    | |- context [if ?b then _ else _] => destruct b
    end; done.
Qed.

(** C9. The authentication strategy returns a signal of type AUTH_FAILURES
    and confidence 0.80 exactly when at least two of the three checks
    fail (Received-SPF contains "fail", Authentication-Results contains
    "dkim=fail", Authentication-Results contains "dmarc=fail", on the
    lower-cased header values), and no signal otherwise; without the
    headers no check fails. *)
Theorem AuthFailuresStrategy_two_of_three
  (email : Email) (recipient : option User) (context : DetectionContext) :
  AuthFailuresStrategy_Detect email recipient context =
    Returns (if 2 <=? failedChecks email then
               Some {| Type_ := "AUTH_FAILURES"; Confidence := 0.80;
                       Evidence := "Email authentication failures: "
                                   ++ Join (authFailures email) ", " |}
             else None) ∧
  failedChecks email =
    (if spfFailed email then 1 else 0) + (if dkimFailed email then 1 else 0)
    + (if dmarcFailed email then 1 else 0) ∧
  spfFailed email =
    from_option (λ v, Contains (ToLower v) "fail") false
      (Headers email !! "Received-SPF") ∧
  dkimFailed email =
    from_option (λ v, Contains (ToLower v) "dkim=fail") false
      (Headers email !! "Authentication-Results") ∧
  dmarcFailed email =
    from_option (λ v, Contains (ToLower v) "dmarc=fail") false
      (Headers email !! "Authentication-Results").
Proof.
  split; [|split; [done|]; split; [|split]].
  - unfold AuthFailuresStrategy_Detect. cbv zeta. rewrite authFailures_length.
    by destruct (2 <=? _).
  - unfold spfFailed. by destruct (_ !! _).
  - unfold dkimFailed. by destruct (_ !! _).
  - unfold dmarcFailed. by destruct (_ !! _).
Qed.

(** *** Urgency and financial language *)

(** A keyword counts once, however often it occurs. *)
Lemma countKeywords_presence (text : string) (keywords : list string) :
  countKeywords text keywords = length (List.filter (Contains text) keywords).
Proof.
  induction keywords as [|k rest IH]; simpl; [done|].
  rewrite IH. by destruct (Contains text k).
Qed.

Lemma countKeywords_bound (text : string) (keywords : list string) :
  countKeywords text keywords ≤ length keywords.
Proof.
  induction keywords as [|k rest IH]; simpl; [done|].
  destruct (Contains text k); lia.
Qed.

Lemma confidenceInRange_all (u f a : nat) :
  u ≤ length urgencyKeywords → f ≤ length financialKeywords →
  a ≤ length authorityKeywords → confidenceInRange u f a = true.
Proof.
  intros Hu Hf Ha.
  assert (forallb (λ u, forallb (λ f, forallb (confidenceInRange u f)
            (seq 0 (S (length authorityKeywords))))
            (seq 0 (S (length financialKeywords))))
            (seq 0 (S (length urgencyKeywords))) = true) as Hall by (by vm_compute).
  rewrite forallb_forall in Hall.
  specialize (Hall u ltac:(apply in_seq; lia)). rewrite forallb_forall in Hall.
  specialize (Hall f ltac:(apply in_seq; lia)). rewrite forallb_forall in Hall.
  apply Hall, in_seq. lia.
Qed.

Lemma asSpecified_all (evaluation : Evaluation) (u f a : nat) :
  u ≤ length urgencyKeywords → f ≤ length financialKeywords →
  a ≤ length authorityKeywords → asSpecified evaluation u f a = true.
Proof.
  intros Hu Hf Ha.
  assert (forallb asSpecifiedEverywhere evaluations = true) as Hall by (by vm_compute).
  rewrite forallb_forall in Hall.
  assert (In evaluation evaluations) as Hin.
  { destruct evaluation as [[] [] []]; simpl; tauto. }
  specialize (Hall _ Hin). unfold asSpecifiedEverywhere in Hall.
  rewrite forallb_forall in Hall.
  specialize (Hall u ltac:(apply in_seq; lia)). rewrite forallb_forall in Hall.
  specialize (Hall f ltac:(apply in_seq; lia)). rewrite forallb_forall in Hall.
  apply Hall, in_seq. lia.
Qed.

Lemma atSlip_confidence (evaluation : Evaluation) :
  secondFused evaluation = false →
  PrimFloat.ltb 1.5 (languageScoreIn evaluation 1 0 6) = true ∧
  languageScoreIn evaluation 1 0 6 = 0x1.8000000000001p+0%float ∧
  languageConfidenceIn evaluation (languageScoreIn evaluation 1 0 6) = 0.70%float.
Proof.
  destruct evaluation as [[] [] []]; simpl; intros [=]; repeat split; by vm_compute.
Qed.

(** C7. The strategy counts the keywords of its three vocabularies that
    are present in the lower-cased subject and body, computes
    [score = 0.3*urgency + 0.5*financial + 0.2*authority] in [float64] and
    returns a signal exactly when the evaluated score is above 1.5, of
    confidence [Min(0.70 + (score - 1.5) * 0.1, 0.95)]. In every
    evaluation that Go permits this is what the specification says of the
    exact score, a signal exactly above 1.5 with a confidence above 0.70
    and at most 0.95, but for one urgency and six authority keywords when
    the second addition is not fused, as in the default build: the exact
    score is 1.5, the evaluated one 1.5000000000000002, and a signal of
    confidence 0.70 is returned; an evaluation that fuses this addition
    returns none. The message of the failing input has these counts. *)
Theorem UrgencyFinancialStrategy_score_confidence
  (evaluation : Evaluation) (email : Email) (recipient : option User)
  (context : DetectionContext) :
  let text := ToLower (Subject email ++ " " ++ BodyPreview email) in
  let present keywords := length (List.filter (Contains text) keywords) in
  let urgencyCount := present urgencyKeywords in
  let financialCount := present financialKeywords in
  let authorityCount := present authorityKeywords in
  let tenths := 3 * urgencyCount + 5 * financialCount + 2 * authorityCount in
  let score := languageScoreIn evaluation urgencyCount financialCount authorityCount in
  let confidence := languageConfidenceIn evaluation score in
  (∃ evidence,
     UrgencyFinancialStrategy_DetectIn evaluation email recipient context =
       Returns (if PrimFloat.ltb 1.5 score then
                  Some {| Type_ := "URGENCY_FINANCIAL_LANGUAGE";
                          Confidence := confidence;
                          Evidence := evidence |}
                else None)) ∧
  (if negb (secondFused evaluation) &&
      ((urgencyCount =? 1) && (financialCount =? 0) && (authorityCount =? 6))
   then tenths = 15 ∧ PrimFloat.ltb 1.5 score = true ∧
        score = 0x1.8000000000001p+0%float ∧ confidence = 0.70%float
   else PrimFloat.ltb 1.5 score = (15 <? tenths) ∧
        (if PrimFloat.ltb 1.5 score
         then flt 0.70 confidence ∧ fle confidence 0.95 else True)) ∧
  UrgencyFinancialStrategy_DetectIn unfused email recipient context =
    UrgencyFinancialStrategy_Detect email recipient context ∧
  languageScoreIn unfused urgencyCount financialCount authorityCount =
    PrimFloat.add
      (PrimFloat.add (PrimFloat.mul (float64 (Z.of_nat urgencyCount)) 0.3)
                     (PrimFloat.mul (float64 (Z.of_nat financialCount)) 0.5))
      (PrimFloat.mul (float64 (Z.of_nat authorityCount)) 0.2) ∧
  languageConfidenceIn unfused score =
    Min (PrimFloat.add 0.70 (PrimFloat.mul (PrimFloat.sub score 1.5) 0.1)) 0.95 ∧
  (∃ signal,
     UrgencyFinancialStrategy_Detect boundaryEmail recipient context =
       Returns (Some signal) ∧
     Confidence signal = 0.70%float ∧
     PrimFloat.ltb 0.70 (Confidence signal) = false) ∧
  UrgencyFinancialStrategy_DetectIn
    {| firstAddition := PlainAddition; secondFused := true; confidenceFused := false |}
    boundaryEmail recipient context = Returns None.
Proof.
  intros text present urgencyCount financialCount authorityCount tenths score confidence.
  assert (urgencyCount = countKeywords text urgencyKeywords) as Hu
    by (symmetry; apply countKeywords_presence).
  assert (financialCount = countKeywords text financialKeywords) as Hf
    by (symmetry; apply countKeywords_presence).
  assert (authorityCount = countKeywords text authorityKeywords) as Ha
    by (symmetry; apply countKeywords_presence).
  split; [|split; [|split; [|split; [|split; [|split]]]]].
  - eexists. unfold UrgencyFinancialStrategy_DetectIn. cbv zeta.
    fold text. rewrite <- Hu, <- Hf, <- Ha. fold score. fold confidence.
    destruct (PrimFloat.ltb 1.5 score); reflexivity.
  - assert (urgencyCount ≤ length urgencyKeywords) as Hub
      by (rewrite Hu; apply countKeywords_bound).
    assert (financialCount ≤ length financialKeywords) as Hfb
      by (rewrite Hf; apply countKeywords_bound).
    assert (authorityCount ≤ length authorityKeywords) as Hab
      by (rewrite Ha; apply countKeywords_bound).
    pose proof (asSpecified_all evaluation _ _ _ Hub Hfb Hab) as Hheld.
    unfold asSpecified, atSlip in Hheld. cbv zeta in Hheld.
    fold score in Hheld. fold confidence in Hheld. fold tenths in Hheld.
    destruct (negb (secondFused evaluation) &&
              ((urgencyCount =? 1) && (financialCount =? 0) && (authorityCount =? 6)))
      eqn:Hslip.
    + apply andb_prop in Hslip as [Hplain Hcounts].
      apply andb_prop in Hcounts as [Hcounts H6]. apply andb_prop in Hcounts as [H1 H0].
      apply Nat.eqb_eq in H1, H0, H6. apply negb_true_iff in Hplain.
      destruct (atSlip_confidence evaluation Hplain) as (Habove & Hscore & Hconfidence).
      subst tenths confidence score. rewrite H1, H0, H6.
      split; [done|]. by split; [|split].
    + rewrite orb_false_l in Hheld. apply andb_prop in Hheld as [Hexact Hrange].
      apply eqb_prop in Hexact. split; [done|].
      destruct (PrimFloat.ltb 1.5 score); [|exact I].
      simpl in Hrange. by apply andb_prop in Hrange.
  - unfold UrgencyFinancialStrategy_DetectIn, UrgencyFinancialStrategy_Detect.
    reflexivity.
  - reflexivity.
  - reflexivity.
  - unfold UrgencyFinancialStrategy_Detect. cbv zeta.
    replace (ToLower (Subject boundaryEmail ++ " " ++ BodyPreview boundaryEmail))
      with "urgent ceo president director approved authorized confidential"
      by (by vm_compute).
    replace (countKeywords _ urgencyKeywords) with 1 by (by vm_compute).
    replace (countKeywords _ financialKeywords) with 0 by (by vm_compute).
    replace (countKeywords _ authorityKeywords) with 6 by (by vm_compute).
    replace (PrimFloat.ltb 1.5 (languageScore 1 0 6)) with true by (by vm_compute).
    eexists. split; [reflexivity|]. split; by vm_compute.
  - by vm_compute.
Qed.

(** ** The detector *)

Lemma DisplayNameStrategy_returns email recipient context :
  ∃ signal, DisplayNameStrategy_Detect email recipient context = Returns signal.
Proof. unfold DisplayNameStrategy_Detect. cbv zeta. destruct (_ && _); eauto. Qed.

Lemma TyposquattingStrategy_returns email recipient context :
  ∃ signal, TyposquattingStrategy_Detect email recipient context = Returns signal.
Proof. unfold TyposquattingStrategy_Detect. rewrite typosquattingLoop_first. eauto. Qed.

Lemma AuthFailuresStrategy_returns email recipient context :
  ∃ signal, AuthFailuresStrategy_Detect email recipient context = Returns signal.
Proof. unfold AuthFailuresStrategy_Detect. cbv zeta. destruct (2 <=? _); eauto. Qed.

Lemma UrgencyFinancialStrategy_returns email recipient context :
  ∃ signal, UrgencyFinancialStrategy_Detect email recipient context = Returns signal.
Proof. unfold UrgencyFinancialStrategy_Detect. cbv zeta. destruct (PrimFloat.ltb _ _); eauto. Qed.

Lemma ReplyToStrategy_returns email recipient context :
  ∃ signal, ReplyToStrategy_Detect email recipient context = Returns signal.
Proof.
  unfold ReplyToStrategy_Detect. cbv zeta.
  destruct (_ || _); [eauto|]. destruct (_ && _); eauto.
Qed.

Lemma AttachmentStrategy_returns email recipient context :
  ∃ signal, AttachmentStrategy_Detect email recipient context = Returns signal.
Proof. unfold AttachmentStrategy_Detect. destruct (negb _); eauto. Qed.

Lemma BECRoleStrategy_returns email recipient context :
  ∃ signal, BECRoleStrategy_Detect email recipient context = Returns signal.
Proof. rewrite BECRoleStrategy_follows_rules. eauto. Qed.

Lemma runStrategies_returns strats email recipient context :
  Forall (λ s, ∃ signal, Detect s email recipient context = Returns signal) strats →
  ∀ detections, ∃ detections',
    runStrategies strats email recipient context detections = Returns detections'.
Proof.
  induction 1 as [|s rest [signal Hs] _ IH]; intros detections; simpl; [eauto|].
  rewrite Hs, Returns_bind. destruct signal; apply IH.
Qed.

Lemma AnalyzeEmail_returns internalDomains trustedDomains email recipient :
  ∃ analysis,
    AnalyzeEmail (NewDetector internalDomains trustedDomains) email recipient
    = Returns analysis.
Proof.
  assert (Forall (λ s, ∃ signal, Detect s email recipient
                    (context (NewDetector internalDomains trustedDomains))
                    = Returns signal)
            (strategies (NewDetector internalDomains trustedDomains))) as Hall.
  { repeat constructor; simpl.
    - apply DisplayNameStrategy_returns.
    - apply TyposquattingStrategy_returns.
    - apply AuthFailuresStrategy_returns.
    - apply UrgencyFinancialStrategy_returns.
    - apply ReplyToStrategy_returns.
    - apply AttachmentStrategy_returns.
    - apply BECRoleStrategy_returns. }
  unfold AnalyzeEmail.
  destruct (runStrategies_returns _ _ _ _ Hall []) as [detections ->].
  rewrite Returns_bind. eauto.
Qed.

(** What [AnalyzeEmail] puts in the analysis it returns. *)
Lemma AnalyzeEmail_fields (d : Detector) email recipient analysis :
  AnalyzeEmail d email recipient = Returns analysis →
  EmailID analysis = ID email ∧
  RiskScore analysis = calculateRiskScore (DetectedThreats analysis) ∧
  RiskLevel_ analysis = RiskLevel (RiskScore analysis).
Proof.
  unfold AnalyzeEmail. destruct (runStrategies _ _ _ _ _) as [|detections]; [done|].
  rewrite Returns_bind. by intros [= <-].
Qed.

(** C2. For every message and every recipient, present or not,
    [AnalyzeEmail] returns an analysis; its risk score is at least 0.0 and
    at most 1.0, and its risk level is the threshold function of that
    score: critical from 0.85, high from 0.70, medium from 0.50, low from
    0.30, none below. *)
Theorem AnalyzeEmail_score_and_level
  (internalDomains trustedDomains : list string) (email : Email)
  (recipient : option User) :
  ∃ analysis,
    AnalyzeEmail (NewDetector internalDomains trustedDomains) email recipient
      = Returns analysis ∧
    fle 0 (RiskScore analysis) ∧ fle (RiskScore analysis) 1 ∧
    RiskLevel_ analysis = levelOfScore (RiskScore analysis) ∧
    levelOfScore (RiskScore analysis) =
      (if PrimFloat.leb 0.85 (RiskScore analysis) then "critical"
       else if PrimFloat.leb 0.70 (RiskScore analysis) then "high"
       else if PrimFloat.leb 0.50 (RiskScore analysis) then "medium"
       else if PrimFloat.leb 0.30 (RiskScore analysis) then "low"
       else "none").
Proof.
  destruct (AnalyzeEmail_returns internalDomains trustedDomains email recipient)
    as [analysis Hrun].
  exists analysis. split; [done|].
  apply AnalyzeEmail_fields in Hrun as (_ & Hscore & Hlevel).
  rewrite Hscore at 1 2. split; [apply calculateRiskScore_range|].
  split; [apply calculateRiskScore_range|]. by split.
Qed.

(** C3. The type BEC_HR_PAYROLL_SCAM has no entry in the weight table
    (BEC_HR_W2_SCAM has one, 1.4), so its weight is the default 1.0: an
    analysis whose only signal is that one, of confidence 0.80, has the
    risk score 0.80 exactly and the level "high". *)
Theorem hr_payroll_signal_default_weight
  (internalDomains trustedDomains : list string) (email : Email)
  (recipient : option User) (analysis : FraudAnalysis) (evidence : string) :
  AnalyzeEmail (NewDetector internalDomains trustedDomains) email recipient
    = Returns analysis →
  DetectedThreats analysis =
    [{| Type_ := "BEC_HR_PAYROLL_SCAM"; Confidence := 0.80; Evidence := evidence |}] →
  weights !! "BEC_HR_PAYROLL_SCAM" = None ∧
  weights !! "BEC_HR_W2_SCAM" = Some 1.4%float ∧
  weightOf "BEC_HR_PAYROLL_SCAM" = 1.0%float ∧
  RiskScore analysis = 0.80%float ∧
  RiskLevel_ analysis = "high".
Proof.
  intros Hrun Hthreats.
  apply AnalyzeEmail_fields in Hrun as (_ & Hscore & Hlevel).
  rewrite Hthreats in Hscore. rewrite Hlevel, Hscore.
  split; [by vm_compute|]. split; [by vm_compute|]. split; [by vm_compute|].
  split; by vm_compute.
Qed.

(** *** Degenerate input *)

Lemma Split_without_separator (s : string) (sep : ascii) :
  Count s sep = 0 → Split s sep = [s].
Proof.
  induction s as [|c rest IH]; simpl; [done|].
  destruct (Ascii.eqb c sep); [done|]. intros H. by rewrite IH.
Qed.

(** C10. For the message whose fields are all empty and no recipient,
    whatever the internal and trusted domains, each of the seven
    strategies returns no signal and [AnalyzeEmail] returns the analysis
    of score 0.0, level "none" and no signal. An address without '@' has
    the empty domain. *)
Theorem AnalyzeEmail_degenerate_input
  (internalDomains trustedDomains : list string) :
  let d := NewDetector internalDomains trustedDomains in
  Forall (λ strategy, Detect strategy emptyEmail None (context d) = Returns None)
    (strategies d) ∧
  length (strategies d) = 7 ∧
  AnalyzeEmail d emptyEmail None =
    Returns {| EmailID := ""; RiskScore := 0.0; RiskLevel_ := "none";
               DetectedThreats := [] |} ∧
  (∀ address, Count address "@" = 0 → extractDomain address = "").
Proof.
  intros d.
  assert (Forall (λ strategy, Detect strategy emptyEmail None (context d) = Returns None)
            (strategies d)) as Hall.
  { repeat constructor.
    simpl. unfold TyposquattingStrategy_Detect. rewrite typosquattingLoop_first.
    change (extractDomain (SenderEmail emptyEmail)) with "".
    by rewrite find_looksAlike_empty_sender. }
  split; [exact Hall|]. split; [done|]. split.
  - unfold AnalyzeEmail.
    assert (∀ strats detections,
      Forall (λ strategy, Detect strategy emptyEmail None (context d) = Returns None)
        strats →
      runStrategies strats emptyEmail None (context d) detections = Returns detections)
      as Hnone.
    { induction strats as [|s rest IH]; intros detections Hs; [done|].
      apply Forall_cons in Hs as [Hs Hrest]. cbn [runStrategies].
      rewrite Hs, Returns_bind. by apply IH. }
    by rewrite Hnone.
  - intros address Hno. unfold extractDomain.
    by rewrite Split_without_separator.
Qed.

(** * Further properties of the code *)

(** ** The risk level *)

(** X1. [RiskLevel] is monotone: a score that is not smaller gets a level
    that is not lower in the order none, low, medium, high, critical. *)
Theorem RiskLevel_monotone (score1 score2 : float) :
  fle score1 score2 →
  levelRank (RiskLevel score1) ≤ levelRank (RiskLevel score2).
Proof.
  intros Hle. unfold RiskLevel.
  assert (∀ c, PrimFloat.leb c score1 = true → PrimFloat.leb c score2 = true) as Hup.
  { intros c Hc. by apply (fle_trans c score1 score2). }
  destruct (PrimFloat.leb 0.85 score1) eqn:A1, (PrimFloat.leb 0.70 score1) eqn:A2,
    (PrimFloat.leb 0.50 score1) eqn:A3, (PrimFloat.leb 0.30 score1) eqn:A4,
    (PrimFloat.leb 0.85 score2) eqn:B1, (PrimFloat.leb 0.70 score2) eqn:B2,
    (PrimFloat.leb 0.50 score2) eqn:B3, (PrimFloat.leb 0.30 score2) eqn:B4;
    try (vm_compute; lia); exfalso;
    repeat match goal with
    | H : PrimFloat.leb _ score1 = true |- _ => apply Hup in H
    end; congruence.
Qed.

(** ** [extractDomain] *)

Lemma Split_length (s : string) (sep : ascii) :
  length (Split s sep) = S (Count s sep).
Proof.
  induction s as [|c rest IH]; simpl; [done|].
  destruct (Ascii.eqb c sep); simpl; [by rewrite IH|].
  destruct (Split rest sep); simpl in *; lia.
Qed.

Lemma Split_two_pieces (local domain : string) (sep : ascii) :
  Count local sep = 0 → Count domain sep = 0 →
  Split (local ++ String sep domain) sep = [local; domain].
Proof.
  intros Hl Hd. induction local as [|c rest IH]; simpl in *.
  - rewrite Ascii.eqb_refl. by rewrite Split_without_separator.
  - destruct (Ascii.eqb c sep); [done|]. by rewrite IH.
Qed.

Lemma extractDomain_malformed (address : string) :
  Count address "@" ≠ 1 → extractDomain address = "".
Proof.
  intros Hcount. unfold extractDomain.
  pose proof (Split_length address "@") as Hlen.
  destruct (Split address "@") as [|p1 [|p2 [|p3 rest]]]; simpl in Hlen; try done.
  lia.
Qed.

(** X2. [extractDomain] is empty unless the address has exactly one '@';
    for [local@domain] with no other '@' it is the lower-cased [domain]. An
    address with two '@' has the empty domain, as one with none. *)
Theorem extractDomain_one_separator :
  (∀ address, Count address "@" ≠ 1 → extractDomain address = "") ∧
  (∀ local domain, Count local "@" = 0 → Count domain "@" = 0 →
     extractDomain (local ++ "@" ++ domain) = ToLower domain).
Proof.
  split; [apply extractDomain_malformed|].
  - intros local domain Hl Hd. unfold extractDomain.
    change (local ++ "@" ++ domain) with (local ++ String "@" domain).
    by rewrite Split_two_pieces.
Qed.

(** ** Bounds of the edit distance *)

Lemma prefixDistance_lower s1 s2 i : ∀ j,
  (Z.abs (Z.of_nat i - Z.of_nat j) ≤ prefixDistance s1 s2 i j)%Z.
Proof.
  induction i as [|i IHi]; intros j; [simpl; lia|].
  induction j as [|j IHj]; [simpl; lia|].
  rewrite prefixDistance_step. pose proof (IHi j). pose proof (IHi (S j)).
  pose proof (costAt_range s1 s2 i j). unfold min3. lia.
Qed.

(** X3. The edit distance of two strings is at least the difference of
    their lengths and at most the larger length. *)
Theorem levenshteinDistance_bounds (a b : string) :
  ∃ d, levenshteinDistance a b = Returns d ∧
    (Z.abs (Z.of_nat (len a) - Z.of_nat (len b)) ≤ d)%Z ∧
    (d ≤ Z.of_nat (Nat.max (len a) (len b)))%Z.
Proof.
  exists (distance a b). split; [apply levenshteinDistance_returns|].
  split; [apply prefixDistance_lower|apply prefixDistance_bound].
Qed.

(** ** The risk score as a maximum *)

Lemma SFleb_ltb_trans a b c : SFleb a b = true → SFltb b c = true → SFltb a c = true.
Proof.
  unfold SFleb, SFltb, SFcompare.
  destruct a as [sa|sa| |sa ma ea], b as [sb|sb| |sb mb eb], c as [sc|sc| |sc mc ec];
    sf_cases.
Qed.

Lemma SFltb_false_step m r s :
  SFltb m s = false → SFleb m r = true → SFltb r s = false.
Proof.
  unfold SFleb, SFltb, SFcompare.
  destruct m as [sa|sa| |sa ma ea], r as [sb|sb| |sb mb eb], s as [sc|sc| |sc mc ec];
    sf_cases.
Qed.

Lemma SFeqb_ltb_compat a b c : SFeqb a b = true → SFltb a c = SFltb b c.
Proof.
  unfold SFeqb, SFltb, SFcompare.
  destruct a as [sa|sa| |sa ma ea], b as [sb|sb| |sb mb eb], c as [sc|sc| |sc mc ec];
    sf_cases.
Qed.

Lemma fle_flt_trans a b c : fle a b → flt b c → flt a c.
Proof.
  unfold fle, flt. rewrite FloatAxioms.leb_spec, !FloatAxioms.ltb_spec.
  apply SFleb_ltb_trans.
Qed.

Lemma not_flt_step m r s : PrimFloat.ltb m s = false → fle m r → PrimFloat.ltb r s = false.
Proof.
  unfold fle. rewrite FloatAxioms.leb_spec, !FloatAxioms.ltb_spec.
  apply SFltb_false_step.
Qed.

Lemma feqb_ltb_compat a b c :
  PrimFloat.eqb a b = true → PrimFloat.ltb a c = PrimFloat.ltb b c.
Proof. rewrite FloatAxioms.eqb_spec, !FloatAxioms.ltb_spec. apply SFeqb_ltb_compat. Qed.

Lemma maxScoreLoop_app (front back : list Detection) (maxScore : float) :
  maxScoreLoop (front ++ back) maxScore = maxScoreLoop back (maxScoreLoop front maxScore).
Proof.
  revert maxScore. induction front as [|d front IH]; intros m; simpl; [done|].
  by destruct (PrimFloat.ltb m _).
Qed.

(** [math.Min(x, 1.0)] is monotone on the values that are not below zero. *)
Lemma Min_one_monotone x y : fle 0 x → fle x y → fle (Min x 1) (Min y 1).
Proof.
  intros Hx Hxy. assert (fle 0 y) as Hy by (by eapply fle_trans).
  rewrite !Min_nonneg by (done || by vm_compute).
  destruct (PrimFloat.ltb x 1) eqn:Hx1, (PrimFloat.ltb y 1) eqn:Hy1.
  - done.
  - by apply flt_fle.
  - pose proof (fle_flt_trans _ _ _ Hxy Hy1) as H. unfold flt in H. congruence.
  - by vm_compute.
Qed.

Lemma Min_one_feqb x y :
  fle 0 x → PrimFloat.eqb x y = true → PrimFloat.eqb (Min x 1) (Min y 1) = true.
Proof.
  intros Hx Hxy. pose proof (feqb_fle _ _ Hxy) as Hle.
  assert (fle 0 y) as Hy by (by eapply fle_trans).
  rewrite !Min_nonneg by (done || by vm_compute).
  rewrite <- (feqb_ltb_compat _ _ _ Hxy).
  by destruct (PrimFloat.ltb x 1).
Qed.

(** X6. One more signal never lowers the risk score, whatever the
    signals are. *)
Theorem calculateRiskScore_append (detections : list Detection) (detection : Detection) :
  fle (calculateRiskScore detections) (calculateRiskScore (detections ++ [detection])).
Proof.
  assert (calculateRiskScore (detections ++ [detection]) =
          Min (maxScoreLoop (detections ++ [detection]) 0) 1) as ->.
  { unfold calculateRiskScore. by destruct detections. }
  assert (fle 0 (maxScoreLoop detections 0)) as Hm.
  { apply maxScoreLoop_nonneg. by vm_compute. }
  assert (fle (Min (maxScoreLoop detections 0) 1)
              (Min (maxScoreLoop (detections ++ [detection]) 0) 1)) as Hmono.
  { apply Min_one_monotone; [done|]. rewrite maxScoreLoop_app. simpl.
    destruct (PrimFloat.ltb _ _) eqn:Hlt; [by apply flt_fle|by eapply fle_refl_r]. }
  unfold calculateRiskScore at 1. destruct detections as [|d ds]; [|exact Hmono].
  simpl (length [] =? 0). cbv iota.
  eapply fle_trans; [|exact Hmono]. by vm_compute.
Qed.

(** The loop ends on the start value or on a contribution, on a value
    not below the start value, that no contribution exceeds. *)
Lemma maxScoreLoop_unexceeded (detections : list Detection) :
  ∀ maxScore, fle 0 maxScore →
  let result := maxScoreLoop detections maxScore in
  (result = maxScore ∨ ∃ d, d ∈ detections ∧ result = weighted d) ∧
  fle maxScore result ∧
  Forall (λ d, PrimFloat.ltb result (weighted d) = false) detections.
Proof.
  induction detections as [|d ds IH]; intros m Hm; simpl.
  { split; [by left|]. split; [by eapply fle_refl_r|constructor]. }
  fold (weighted d). destruct (PrimFloat.ltb m (weighted d)) eqn:Hlt.
  - assert (fle 0 (weighted d)) as Hd.
    { eapply fle_trans; [exact Hm|]. by apply flt_fle. }
    destruct (IH (weighted d) Hd) as (Hres & Hle & Hrest).
    split; [|split].
    + right. destruct Hres as [->|(d' & Hin & ->)].
      * exists d. split; [left|done].
      * exists d'. split; [by right|done].
    + eapply fle_trans; [|exact Hle]. by apply flt_fle.
    + constructor; [|done]. by apply fle_not_flt.
  - destruct (IH m Hm) as (Hres & Hle & Hrest).
    split; [|split; [done|]].
    + destruct Hres as [->|(d' & Hin & ->)]; [by left|].
      right. exists d'. split; [by right|done].
    + constructor; [|done]. by eapply not_flt_step.
Qed.

(** X7. The risk score does not depend on the order of the signals: two
    lists with the same signals in another order have equal scores (Go's
    [==]). *)
Theorem calculateRiskScore_permutation (detections detections' : list Detection) :
  detections ≡ₚ detections' →
  PrimFloat.eqb (calculateRiskScore detections) (calculateRiskScore detections') = true.
Proof.
  intros Hperm.
  assert (∀ l l' : list Detection, l ≡ₚ l' →
            fle (maxScoreLoop l 0) (maxScoreLoop l' 0)) as Hle.
  { intros l l' Hp.
    destruct (maxScoreLoop_unexceeded l 0) as (Hres & Hge & _); [by vm_compute|].
    destruct (maxScoreLoop_unexceeded l' 0) as (_ & Hge' & Hub'); [by vm_compute|].
    destruct Hres as [->|(d & Hin & Hd)]; [done|].
    rewrite Hd. rewrite Hp in Hin. rewrite Forall_forall in Hub'.
    apply not_flt_fle; [by eapply fle_refl_r| |by apply Hub'].
    rewrite <- Hd. by eapply fle_refl_r. }
  assert (PrimFloat.eqb (maxScoreLoop detections 0) (maxScoreLoop detections' 0) = true)
    as Heq by (apply fle_antisym_eqb; by apply Hle).
  unfold calculateRiskScore.
  rewrite (Permutation_length Hperm).
  destruct (length detections' =? 0); [by vm_compute|].
  apply Min_one_feqb; [|done]. apply maxScoreLoop_nonneg. by vm_compute.
Qed.

(** ** The two strategies on the sender's identity *)

Lemma isInternalDomain_elem_of (domain : string) (internalDomains : list string) :
  isInternalDomain domain internalDomains = true ↔ domain ∈ internalDomains.
Proof.
  induction internalDomains as [|d rest IH]; simpl.
  - split; [done|]. by intros ?%elem_of_nil.
  - rewrite elem_of_cons. destruct (String.eqb_spec domain d) as [->|Hne].
    + split; [by left|done].
    + rewrite IH. split; [by right|]. by intros [?|?].
Qed.

Lemma hasExecTitleLoop_existsb (displayName : string) (titles : list string) :
  hasExecTitleLoop displayName titles = existsb (Contains displayName) titles.
Proof.
  induction titles as [|t rest IH]; simpl; [done|].
  rewrite IH. by destruct (Contains displayName t).
Qed.

(** X11. The display-name strategy returns its signal, of confidence
    0.85, exactly when the lower-cased display name contains one of the
    seven titles and the sender's domain is not, as it is written, one of
    the internal domains. A sender address without exactly one '@' has the
    empty domain: it gets the signal exactly when the name contains a
    title and the empty string is not listed among the internal domains. *)
Theorem DisplayNameStrategy_title_and_external
  (email : Email) (recipient : option User) (context : DetectionContext) :
  let hasTitle := existsb (Contains (ToLower (SenderName email))) execTitles in
  let senderDomain := extractDomain (SenderEmail email) in
  (∃ evidence,
     DisplayNameStrategy_Detect email recipient context =
       Returns (if hasTitle && negb (bool_decide (senderDomain ∈ InternalDomains context))
                then Some {| Type_ := "DISPLAY_NAME_MISMATCH"; Confidence := 0.85;
                             Evidence := evidence |}
                else None)) ∧
  (Count (SenderEmail email) "@" ≠ 1 →
     senderDomain = "" ∧
     ∃ evidence,
       DisplayNameStrategy_Detect email recipient context =
         Returns (if hasTitle && negb (bool_decide ("" ∈ InternalDomains context))
                  then Some {| Type_ := "DISPLAY_NAME_MISMATCH"; Confidence := 0.85;
                               Evidence := evidence |}
                  else None)).
Proof.
  intros hasTitle senderDomain.
  assert (∃ evidence,
     DisplayNameStrategy_Detect email recipient context =
       Returns (if hasTitle && negb (bool_decide (senderDomain ∈ InternalDomains context))
                then Some {| Type_ := "DISPLAY_NAME_MISMATCH"; Confidence := 0.85;
                             Evidence := evidence |}
                else None)) as Hrule.
  { eexists. unfold DisplayNameStrategy_Detect. cbv zeta.
    rewrite hasExecTitleLoop_existsb. fold execTitles. fold hasTitle. fold senderDomain.
    replace (bool_decide (senderDomain ∈ InternalDomains context))
      with (isInternalDomain senderDomain (InternalDomains context)).
    + destruct (hasTitle && _); reflexivity.
    + destruct (isInternalDomain _ _) eqn:E.
      * symmetry. by apply bool_decide_eq_true, isInternalDomain_elem_of.
      * symmetry. apply bool_decide_eq_false. rewrite <- isInternalDomain_elem_of.
        congruence. }
  split; [exact Hrule|].
  intros Hcount. pose proof (extractDomain_malformed _ Hcount) as Hempty.
  split; [exact Hempty|].
  destruct Hrule as [evidence Hrule]. exists evidence.
  rewrite Hrule. subst senderDomain. by rewrite Hempty.
Qed.

Lemma isFreemailLoop_elem_of (domain : string) (domains : list string) :
  isFreemailLoop domain domains = bool_decide (domain ∈ domains).
Proof.
  induction domains as [|d rest IH]; simpl; [done|].
  destruct (String.eqb_spec domain d) as [->|Hne].
  - symmetry. apply bool_decide_eq_true. by left.
  - rewrite IH. apply bool_decide_ext. rewrite elem_of_cons.
    split; [by right|]. by intros [?|?].
Qed.

(** X12. The Reply-To strategy returns its signal, of confidence 0.75,
    exactly when the lower-cased Reply-To header is not empty, differs
    from the lower-cased sender address, and has a domain that is one of
    the five free mail services and differs from the sender's domain. A
    message without Reply-To header gets no signal, and so does one whose
    sender is at the same free mail service. *)
Theorem ReplyToStrategy_freemail_redirect
  (email : Email) (recipient : option User) (context : DetectionContext) :
  let senderEmail := ToLower (SenderEmail email) in
  let replyTo := ToLower (default "" (Headers email !! "Reply-To")) in
  let replyToDomain := extractDomain replyTo in
  (∃ evidence,
     ReplyToStrategy_Detect email recipient context =
       Returns (if negb (String.eqb replyTo "") && negb (String.eqb replyTo senderEmail)
                   && bool_decide (replyToDomain ∈ freeEmailDomains)
                   && negb (String.eqb replyToDomain (extractDomain senderEmail))
                then Some {| Type_ := "REPLY_TO_MISMATCH"; Confidence := 0.75;
                             Evidence := evidence |}
                else None)) ∧
  (Headers email !! "Reply-To" = None →
     ReplyToStrategy_Detect email recipient context = Returns None).
Proof.
  intros senderEmail replyTo replyToDomain. split.
  - eexists. unfold ReplyToStrategy_Detect. cbv zeta.
    fold senderEmail. fold replyTo. fold replyToDomain.
    rewrite isFreemailLoop_elem_of. fold freeEmailDomains.
    destruct (String.eqb replyTo ""); [reflexivity|].
    destruct (String.eqb replyTo senderEmail); [reflexivity|]. simpl.
    destruct (_ && _); reflexivity.
  - intros Hnone. unfold ReplyToStrategy_Detect. rewrite Hnone. reflexivity.
Qed.

(** ** The signals of an analysis *)

Lemma soundLanguageSignal_all (u f a : nat) :
  u ≤ length urgencyKeywords → f ≤ length financialKeywords →
  a ≤ length authorityKeywords → soundLanguageSignal u f a = true.
Proof.
  intros Hu Hf Ha.
  assert (forallb (λ u, forallb (λ f, forallb (soundLanguageSignal u f)
            (seq 0 (S (length authorityKeywords))))
            (seq 0 (S (length financialKeywords))))
            (seq 0 (S (length urgencyKeywords))) = true) as Hall by (by vm_compute).
  rewrite forallb_forall in Hall.
  specialize (Hall u ltac:(apply in_seq; lia)). rewrite forallb_forall in Hall.
  specialize (Hall f ltac:(apply in_seq; lia)). rewrite forallb_forall in Hall.
  apply Hall, in_seq. lia.
Qed.

Lemma DisplayNameStrategy_sound email recipient context d :
  DisplayNameStrategy_Detect email recipient context = Returns (Some d) →
  soundSignal d = true.
Proof.
  unfold DisplayNameStrategy_Detect. cbv zeta.
  destruct (_ && _); [|done]. by intros [= <-].
Qed.

Lemma TyposquattingStrategy_sound email recipient context d :
  TyposquattingStrategy_Detect email recipient context = Returns (Some d) →
  soundSignal d = true.
Proof.
  unfold TyposquattingStrategy_Detect. rewrite typosquattingLoop_first.
  destruct (List.find _ _); [|done]. by intros [= <-].
Qed.

Lemma AuthFailuresStrategy_sound email recipient context d :
  AuthFailuresStrategy_Detect email recipient context = Returns (Some d) →
  soundSignal d = true.
Proof.
  unfold AuthFailuresStrategy_Detect. cbv zeta.
  destruct (2 <=? _); [|done]. by intros [= <-].
Qed.

Lemma UrgencyFinancialStrategy_sound email recipient context d :
  UrgencyFinancialStrategy_Detect email recipient context = Returns (Some d) →
  soundSignal d = true.
Proof.
  unfold UrgencyFinancialStrategy_Detect. cbv zeta.
  set (text := ToLower _).
  pose proof (soundLanguageSignal_all _ _ _
    (countKeywords_bound text urgencyKeywords)
    (countKeywords_bound text financialKeywords)
    (countKeywords_bound text authorityKeywords)) as Hsound.
  unfold soundLanguageSignal in Hsound. cbv zeta in Hsound.
  destruct (PrimFloat.ltb 1.5 _); [|done]. by intros [= <-].
Qed.

Lemma ReplyToStrategy_sound email recipient context d :
  ReplyToStrategy_Detect email recipient context = Returns (Some d) →
  soundSignal d = true.
Proof.
  unfold ReplyToStrategy_Detect. cbv zeta.
  destruct (_ || _); [done|]. destruct (_ && _); [|done]. by intros [= <-].
Qed.

Lemma AttachmentStrategy_sound email recipient context d :
  AttachmentStrategy_Detect email recipient context = Returns (Some d) →
  soundSignal d = true.
Proof.
  unfold AttachmentStrategy_Detect. destruct (negb _); [done|].
  rewrite attachmentLoop_first. intros [= Hhead].
  apply head_Some_elem_of, list_elem_of_omap in Hhead as (name & _ & Hrule).
  unfold attachmentRule in Hrule. cbv zeta in Hrule.
  destruct (existsb _ highRiskExtensions); [by injection Hrule as <-|].
  destruct (1 <? _); [by injection Hrule as <-|].
  destruct (_ && _); [by injection Hrule as <-|done].
Qed.

Lemma BECRoleStrategy_sound email recipient context d :
  BECRoleStrategy_Detect email recipient context = Returns (Some d) →
  soundSignal d = true.
Proof.
  rewrite BECRoleStrategy_follows_rules. intros [= Hrule].
  destruct recipient as [u|]; [|done].
  unfold becRoleRules in Hrule. cbv zeta in Hrule.
  repeat match type of Hrule with
  | (if ?b then _ else _) = _ => destruct b; [try done; by injection Hrule as <-|]
  end. done.
Qed.

Lemma runStrategies_outputs strats outputs email recipient context :
  Forall2 (λ s o, Detect s email recipient context = Returns o) strats outputs →
  ∀ detections,
    runStrategies strats email recipient context detections =
    Returns (detections ++ omap id outputs)%list.
Proof.
  induction 1 as [|s o strats outputs Hs _ IH]; intros detections; simpl.
  - by rewrite app_nil_r.
  - rewrite Hs, Returns_bind. destruct o as [d|]; simpl.
    + rewrite IH. unfold append. by rewrite <- app_assoc.
    + apply IH.
Qed.

Lemma AnalyzeEmail_outputs
  (internalDomains trustedDomains : list string) (email : Email)
  (recipient : option User) :
  ∃ o1 o2 o3 o4 o5 o6 o7,
    DisplayNameStrategy_Detect email recipient
      (NewDetectionContext internalDomains trustedDomains) = Returns o1 ∧
    TyposquattingStrategy_Detect email recipient
      (NewDetectionContext internalDomains trustedDomains) = Returns o2 ∧
    AuthFailuresStrategy_Detect email recipient
      (NewDetectionContext internalDomains trustedDomains) = Returns o3 ∧
    UrgencyFinancialStrategy_Detect email recipient
      (NewDetectionContext internalDomains trustedDomains) = Returns o4 ∧
    ReplyToStrategy_Detect email recipient
      (NewDetectionContext internalDomains trustedDomains) = Returns o5 ∧
    AttachmentStrategy_Detect email recipient
      (NewDetectionContext internalDomains trustedDomains) = Returns o6 ∧
    BECRoleStrategy_Detect email recipient
      (NewDetectionContext internalDomains trustedDomains) = Returns o7 ∧
    AnalyzeEmail (NewDetector internalDomains trustedDomains) email recipient =
      Returns {|
        EmailID := ID email;
        RiskScore := calculateRiskScore (omap id [o1; o2; o3; o4; o5; o6; o7]);
        RiskLevel_ :=
          RiskLevel (calculateRiskScore (omap id [o1; o2; o3; o4; o5; o6; o7]));
        DetectedThreats := omap id [o1; o2; o3; o4; o5; o6; o7] |}.
Proof.
  set (ctx := NewDetectionContext internalDomains trustedDomains).
  destruct (DisplayNameStrategy_returns email recipient ctx) as [o1 H1].
  destruct (TyposquattingStrategy_returns email recipient ctx) as [o2 H2].
  destruct (AuthFailuresStrategy_returns email recipient ctx) as [o3 H3].
  destruct (UrgencyFinancialStrategy_returns email recipient ctx) as [o4 H4].
  destruct (ReplyToStrategy_returns email recipient ctx) as [o5 H5].
  destruct (AttachmentStrategy_returns email recipient ctx) as [o6 H6].
  destruct (BECRoleStrategy_returns email recipient ctx) as [o7 H7].
  exists o1, o2, o3, o4, o5, o6, o7. repeat (split; [done|]).
  unfold AnalyzeEmail.
  rewrite (runStrategies_outputs _ [o1; o2; o3; o4; o5; o6; o7]).
  - by rewrite Returns_bind.
  - repeat constructor; done.
Qed.

(** X8. The signals of an analysis are the signals that the seven
    strategies return for the message, each at most one, in the order
    display name, typosquatting, authentication, language, Reply-To,
    attachments, BEC; the score is computed from them and the identifier
    is that of the message. *)
Theorem AnalyzeEmail_collects_in_order
  (internalDomains trustedDomains : list string) (email : Email)
  (recipient : option User) :
  ∃ o1 o2 o3 o4 o5 o6 o7,
    DisplayNameStrategy_Detect email recipient
      (NewDetectionContext internalDomains trustedDomains) = Returns o1 ∧
    TyposquattingStrategy_Detect email recipient
      (NewDetectionContext internalDomains trustedDomains) = Returns o2 ∧
    AuthFailuresStrategy_Detect email recipient
      (NewDetectionContext internalDomains trustedDomains) = Returns o3 ∧
    UrgencyFinancialStrategy_Detect email recipient
      (NewDetectionContext internalDomains trustedDomains) = Returns o4 ∧
    ReplyToStrategy_Detect email recipient
      (NewDetectionContext internalDomains trustedDomains) = Returns o5 ∧
    AttachmentStrategy_Detect email recipient
      (NewDetectionContext internalDomains trustedDomains) = Returns o6 ∧
    BECRoleStrategy_Detect email recipient
      (NewDetectionContext internalDomains trustedDomains) = Returns o7 ∧
    AnalyzeEmail (NewDetector internalDomains trustedDomains) email recipient =
      Returns {|
        EmailID := ID email;
        RiskScore := calculateRiskScore (omap id [o1; o2; o3; o4; o5; o6; o7]);
        RiskLevel_ :=
          RiskLevel (calculateRiskScore (omap id [o1; o2; o3; o4; o5; o6; o7]));
        DetectedThreats := omap id [o1; o2; o3; o4; o5; o6; o7] |}.
Proof. apply AnalyzeEmail_outputs. Qed.

Lemma NewDetector_sound internalDomains trustedDomains email recipient analysis :
  AnalyzeEmail (NewDetector internalDomains trustedDomains) email recipient
    = Returns analysis →
  Forall (λ d, soundSignal d = true) (DetectedThreats analysis).
Proof.
  destruct (AnalyzeEmail_outputs internalDomains trustedDomains email recipient)
    as (o1 & o2 & o3 & o4 & o5 & o6 & o7 & H1 & H2 & H3 & H4 & H5 & H6 & H7 & ->).
  assert (Forall (λ d, soundSignal d = true) (omap id [o1; o2; o3; o4; o5; o6; o7]))
    as Hall.
  { apply Forall_forall. intros d Hd.
    apply list_elem_of_omap in Hd as (o & Ho & Hid). simpl in Hid. subst o.
    repeat (apply elem_of_cons in Ho as [<-|Ho]);
      [ apply DisplayNameStrategy_sound in H1
      | apply TyposquattingStrategy_sound in H2
      | apply AuthFailuresStrategy_sound in H3
      | apply UrgencyFinancialStrategy_sound in H4
      | apply ReplyToStrategy_sound in H5
      | apply AttachmentStrategy_sound in H6
      | apply BECRoleStrategy_sound in H7
      | by apply elem_of_nil in Ho ]; done. }
  by intros [= <-].
Qed.

(** X9. Every signal of an analysis has one of the twelve signal types
    of the strategies and a confidence between 0.70 and 0.95. *)
Theorem AnalyzeEmail_signals_in_range
  (internalDomains trustedDomains : list string) (email : Email)
  (recipient : option User) :
  ∃ analysis,
    AnalyzeEmail (NewDetector internalDomains trustedDomains) email recipient
      = Returns analysis ∧
    Forall (λ d, Type_ d ∈ signalTypes ∧
                 fle 0.70 (Confidence d) ∧ fle (Confidence d) 0.95)
      (DetectedThreats analysis).
Proof.
  destruct (AnalyzeEmail_returns internalDomains trustedDomains email recipient)
    as [analysis Hrun].
  exists analysis. split; [done|].
  eapply Forall_impl; [exact (NewDetector_sound _ _ _ _ _ Hrun)|].
  intros d Hd. unfold soundSignal in Hd.
  apply andb_prop in Hd as [Hd _]. apply andb_prop in Hd as [Hd Hhi].
  apply andb_prop in Hd as [Htype Hlo]. split; [|done].
  apply existsb_exists in Htype as (t & Hin & Ht).
  apply String.eqb_eq in Ht as <-. by apply list_elem_of_In.
Qed.

Lemma calculateRiskScore_strong (detections : list Detection) :
  detections ≠ [] →
  Forall (λ d, fle 0.70 (weighted d)) detections →
  fle 0.70 (calculateRiskScore detections).
Proof.
  intros Hne Hall. destruct detections as [|d0 ds]; [done|].
  unfold calculateRiskScore. change (length (d0 :: ds) =? 0) with false. cbv iota.
  destruct (maxScoreLoop_unexceeded (d0 :: ds) 0%float) as (_ & Hge & Hub);
    [by vm_compute|].
  apply Forall_cons in Hall as [H0 _]. apply Forall_cons in Hub as [Hub0 _].
  assert (fle 0.70 (maxScoreLoop (d0 :: ds) 0)) as Hmax.
  { eapply fle_trans; [exact H0|].
    apply not_flt_fle; [by eapply fle_refl_r|by eapply fle_refl_r|done]. }
  rewrite Min_nonneg by (done || by vm_compute).
  destruct (PrimFloat.ltb _ 1); [done|by vm_compute].
Qed.

(** X10. An analysis is never of level "low" or "medium": without signal
    the score is 0.0 and the level "none"; with a signal the score is at
    least 0.70 and the level "high" or "critical". *)
Theorem AnalyzeEmail_none_high_or_critical
  (internalDomains trustedDomains : list string) (email : Email)
  (recipient : option User) :
  ∃ analysis,
    AnalyzeEmail (NewDetector internalDomains trustedDomains) email recipient
      = Returns analysis ∧
    (DetectedThreats analysis = [] ∧ RiskScore analysis = 0%float ∧
       RiskLevel_ analysis = "none" ∨
     DetectedThreats analysis ≠ [] ∧ fle 0.70 (RiskScore analysis) ∧
       (RiskLevel_ analysis = "high" ∨ RiskLevel_ analysis = "critical")).
Proof.
  destruct (AnalyzeEmail_returns internalDomains trustedDomains email recipient)
    as [analysis Hrun].
  exists analysis. split; [done|].
  pose proof (NewDetector_sound _ _ _ _ _ Hrun) as Hsound.
  apply AnalyzeEmail_fields in Hrun as (_ & Hscore & Hlevel).
  destruct (DetectedThreats analysis) as [|d ds] eqn:Hds.
  - left. rewrite Hlevel, Hscore. by vm_compute.
  - right. split; [done|].
    assert (fle 0.70 (RiskScore analysis)) as Hstrong.
    { rewrite Hscore. apply calculateRiskScore_strong; [done|].
      eapply Forall_impl; [exact Hsound|]. intros d' Hd'. unfold soundSignal in Hd'.
      by apply andb_prop in Hd' as [_ Hd']. }
    split; [done|]. rewrite Hlevel. unfold RiskLevel.
    destruct (PrimFloat.leb 0.85 _); [by right|].
    unfold fle in Hstrong. rewrite Hstrong. by left.
Qed.

Lemma SFltb_leb_trans a b c : SFltb a b = true → SFleb b c = true → SFltb a c = true.
Proof.
  unfold SFleb, SFltb, SFcompare.
  destruct a as [sa|sa| |sa ma ea], b as [sb|sb| |sb mb eb], c as [sc|sc| |sc mc ec];
    sf_cases.
Qed.

Lemma flt_fle_trans a b c : flt a b → fle b c → flt a c.
Proof.
  unfold fle, flt. rewrite FloatAxioms.leb_spec, !FloatAxioms.ltb_spec.
  apply SFltb_leb_trans.
Qed.
(** ** Limits of the typosquatting strategy *)

(** X13. A sender address without exactly one '@' never gets the
    typosquatting signal, whatever the trusted domains. *)
Theorem TyposquattingStrategy_malformed_sender
  (email : Email) (recipient : option User) (context : DetectionContext) :
  Count (SenderEmail email) "@" ≠ 1 →
  TyposquattingStrategy_Detect email recipient context = Returns None.
Proof.
  intros Hcount. unfold TyposquattingStrategy_Detect.
  rewrite typosquattingLoop_first, extractDomain_malformed by done.
  by rewrite find_looksAlike_empty_sender.
Qed.

Lemma looksAlike_long_enough (senderDomain trustedDomain : string) :
  looksAlike senderDomain trustedDomain = true →
  7 ≤ Nat.max (len senderDomain) (len trustedDomain).
Proof.
  unfold looksAlike. intros H. apply andb_prop in H as [Hne Hwin].
  destruct (decide (7 ≤ Nat.max (len senderDomain) (len trustedDomain)))
    as [|Hshort]; [done|exfalso].
  change (similarityOf (distance senderDomain trustedDomain) senderDomain trustedDomain)
    with (similarityAt (distance senderDomain trustedDomain)
            (Nat.max (len senderDomain) (len trustedDomain))) in Hwin.
  pose proof (prefixDistance_bound senderDomain trustedDomain
                (len senderDomain) (len trustedDomain)) as Hub.
  pose proof (prefixDistance_nonneg senderDomain trustedDomain
                (len senderDomain) (len trustedDomain)) as Hlb.
  fold (distance senderDomain trustedDomain) in Hub, Hlb.
  assert (distance senderDomain trustedDomain ≠ 0%Z) as Hnz.
  { intros H0. apply distance_zero_eq in H0 as ->.
    by rewrite String.eqb_refl in Hne. }
  set (n := Nat.max (len senderDomain) (len trustedDomain)) in *.
  assert (forallb outsideWindow (seq 0 7) = true) as Hall by (by vm_compute).
  rewrite forallb_forall in Hall.
  specialize (Hall n ltac:(apply in_seq; lia)). unfold outsideWindow in Hall.
  rewrite forallb_forall in Hall.
  specialize (Hall (Z.to_nat (distance senderDomain trustedDomain))
                ltac:(apply in_seq; lia)).
  rewrite Z2Nat.id in Hall by done. by rewrite Hwin in Hall.
Qed.

(** X14. The typosquatting strategy needs seven bytes: when the sender's
    domain and every trusted domain have at most six bytes, no signal is
    returned, since one edit among six bytes is a similarity of 83.3. *)
Theorem TyposquattingStrategy_short_domains
  (email : Email) (recipient : option User) (context : DetectionContext) :
  len (extractDomain (SenderEmail email)) ≤ 6 →
  Forall (λ trusted, len trusted ≤ 6) (TrustedDomains context) →
  TyposquattingStrategy_Detect email recipient context = Returns None.
Proof.
  intros Hsender Htrusted. unfold TyposquattingStrategy_Detect.
  rewrite typosquattingLoop_first.
  destruct (List.find _ _) as [td|] eqn:Hfind; [exfalso|done].
  apply List.find_some in Hfind as [Hin Hlooks].
  apply looksAlike_long_enough in Hlooks.
  rewrite Forall_forall in Htrusted.
  specialize (Htrusted td ltac:(by apply list_elem_of_In)). simpl in Htrusted. lia.
Qed.

(** ** Limits of the language strategy *)

Lemma silentBelowFour_all (u f a : nat) :
  u ≤ length urgencyKeywords → f ≤ length financialKeywords →
  a ≤ length authorityKeywords → silentBelowFour u f a = true.
Proof.
  intros Hu Hf Ha.
  assert (forallb (λ u, forallb (λ f, forallb (silentBelowFour u f)
            (seq 0 (S (length authorityKeywords))))
            (seq 0 (S (length financialKeywords))))
            (seq 0 (S (length urgencyKeywords))) = true) as Hall by (by vm_compute).
  rewrite forallb_forall in Hall.
  specialize (Hall u ltac:(apply in_seq; lia)). rewrite forallb_forall in Hall.
  specialize (Hall f ltac:(apply in_seq; lia)). rewrite forallb_forall in Hall.
  apply Hall, in_seq. lia.
Qed.

(** X15. The language strategy needs four keywords: a message in which
    fewer than four keywords of the three vocabularies are present gets
    no signal. *)
Theorem UrgencyFinancialStrategy_needs_four_keywords
  (email : Email) (recipient : option User) (context : DetectionContext) :
  (let '(u, f, a) := keywordCounts email in u + f + a) < 4 →
  UrgencyFinancialStrategy_Detect email recipient context = Returns None.
Proof.
  unfold keywordCounts, UrgencyFinancialStrategy_Detect. cbv zeta.
  set (text := ToLower _). intros Hfew.
  pose proof (silentBelowFour_all _ _ _
    (countKeywords_bound text urgencyKeywords)
    (countKeywords_bound text financialKeywords)
    (countKeywords_bound text authorityKeywords)) as Hsilent.
  unfold silentBelowFour in Hsilent.
  apply orb_prop in Hsilent as [Hmany|Hsilent].
  - apply Nat.leb_le in Hmany. lia.
  - apply negb_true_iff in Hsilent. by rewrite Hsilent.
Qed.

Lemma countsMonotone_all (u u' f f' a a' : nat) :
  u ≤ u' → u' ≤ length urgencyKeywords →
  f ≤ f' → f' ≤ length financialKeywords →
  a ≤ a' → a' ≤ length authorityKeywords →
  fle (languageScore u f a) (languageScore u' f' a') ∧
  fle (languageConfidence (languageScore u f a))
      (languageConfidence (languageScore u' f' a')).
Proof.
  intros Hu Hu' Hf Hf' Ha Ha'.
  assert (forallb (λ u', forallb (λ f', forallb (countsMonotone u' f')
            (seq 0 (S (length authorityKeywords))))
            (seq 0 (S (length financialKeywords))))
            (seq 0 (S (length urgencyKeywords))) = true) as Hall by (by vm_compute).
  rewrite forallb_forall in Hall.
  specialize (Hall u' ltac:(apply in_seq; lia)). rewrite forallb_forall in Hall.
  specialize (Hall f' ltac:(apply in_seq; lia)). rewrite forallb_forall in Hall.
  specialize (Hall a' ltac:(apply in_seq; lia)). unfold countsMonotone in Hall.
  rewrite forallb_forall in Hall.
  specialize (Hall u ltac:(apply in_seq; lia)). rewrite forallb_forall in Hall.
  specialize (Hall f ltac:(apply in_seq; lia)). rewrite forallb_forall in Hall.
  specialize (Hall a ltac:(apply in_seq; lia)).
  by apply andb_prop in Hall.
Qed.

(** X16. More keywords never weaken the language signal: when each of
    the three counts of a second message is at least that of a first, a
    signal for the first comes with a signal for the second, of a
    confidence that is not lower. *)
Theorem UrgencyFinancialStrategy_monotone
  (email email' : Email) (recipient recipient' : option User)
  (context context' : DetectionContext) (signal : Detection) :
  (keywordCounts email).1.1 ≤ (keywordCounts email').1.1 →
  (keywordCounts email).1.2 ≤ (keywordCounts email').1.2 →
  (keywordCounts email).2 ≤ (keywordCounts email').2 →
  UrgencyFinancialStrategy_Detect email recipient context = Returns (Some signal) →
  ∃ signal',
    UrgencyFinancialStrategy_Detect email' recipient' context' = Returns (Some signal') ∧
    fle (Confidence signal) (Confidence signal').
Proof.
  unfold keywordCounts, UrgencyFinancialStrategy_Detect. cbv zeta. cbn [fst snd].
  set (text := ToLower (Subject email ++ " " ++ BodyPreview email)).
  set (text' := ToLower (Subject email' ++ " " ++ BodyPreview email')).
  intros Hu Hf Ha.
  destruct (countsMonotone_all _ _ _ _ _ _
    Hu (countKeywords_bound text' urgencyKeywords)
    Hf (countKeywords_bound text' financialKeywords)
    Ha (countKeywords_bound text' authorityKeywords)) as [Hscore Hconf].
  destruct (PrimFloat.ltb 1.5 (languageScore (countKeywords text urgencyKeywords)
              (countKeywords text financialKeywords)
              (countKeywords text authorityKeywords))) eqn:Hfire; [|done].
  intros [= <-].
  assert (flt 1.5 (languageScore (countKeywords text' urgencyKeywords)
                     (countKeywords text' financialKeywords)
                     (countKeywords text' authorityKeywords))) as Hfire'.
  { apply flt_fle_trans with (b := languageScore (countKeywords text urgencyKeywords)
                     (countKeywords text financialKeywords)
                     (countKeywords text authorityKeywords)); done. }
  unfold flt in Hfire'. rewrite Hfire'. eexists. split; [reflexivity|]. exact Hconf.
Qed.

(** ** Case of the configured domains *)

Lemma lowerByte_not_upper (c : ascii) : isUpperASCII (lowerByte c) = false.
Proof. destruct c as [[] [] [] [] [] [] [] []]; reflexivity. Qed.

Lemma mapBytes_lowerByte_no_upper (s : string) :
  hasUpperASCII (mapBytes lowerByte s) = false.
Proof.
  induction s as [|c rest IH]; simpl; [done|].
  by rewrite lowerByte_not_upper, IH.
Qed.

Lemma Split_isASCII (s : string) (sep : ascii) :
  isASCII s = true → Forall (λ piece, isASCII piece = true) (Split s sep).
Proof.
  induction s as [|c rest IH]; simpl; [by repeat constructor|].
  intros [Hc Hrest]%andb_prop. specialize (IH Hrest).
  destruct (Ascii.eqb c sep); [by constructor|].
  destruct (Split rest sep) as [|piece pieces]; [by repeat constructor; simpl; rewrite Hc|].
  apply Forall_cons in IH as [Hp Hps]. constructor; [|done]. simpl. by rewrite Hc, Hp.
Qed.

Lemma extractDomain_no_upper (address : string) :
  isASCII address = true → hasUpperASCII (extractDomain address) = false.
Proof.
  intros Hascii. unfold extractDomain.
  pose proof (Split_isASCII address "@" Hascii) as Hpieces.
  destruct (Split address "@") as [|p1 [|p2 [|p3 rest]]]; try done.
  apply Forall_cons in Hpieces as [_ Hpieces]. apply Forall_cons in Hpieces as [Hp2 _].
  unfold ToLower. rewrite Hp2. apply mapBytes_lowerByte_no_upper.
Qed.

(** X17. The internal domains are compared as they are written, and the
    sender's domain is lower-cased first: an internal domain written with
    an upper-case ASCII letter matches no ASCII sender address, whose
    domain then counts as external. *)
Theorem isInternalDomain_upper_case_never_matches
  (address : string) (internalDomains : list string) :
  isASCII address = true →
  Forall (λ domain, hasUpperASCII domain = true) internalDomains →
  isInternalDomain (extractDomain address) internalDomains = false.
Proof.
  intros Hascii Hupper. apply not_true_is_false. intros Hin.
  apply isInternalDomain_elem_of in Hin. rewrite Forall_forall in Hupper.
  specialize (Hupper _ Hin). simpl in Hupper.
  by rewrite extractDomain_no_upper in Hupper.
Qed.

(** ** The urgency test of the helpers *)

Lemma containsAny_true (text : string) (keywords : list string) :
  containsAny text keywords = true ↔ ∃ k, k ∈ keywords ∧ Contains text k = true.
Proof.
  induction keywords as [|k rest IH]; simpl.
  - split; [done|]. by intros (k & ?%elem_of_nil & _).
  - destruct (Contains text k) eqn:E.
    + split; [|done]. intros _. exists k. split; [left|done].
    + rewrite IH. split.
      * intros (k' & Hin & Hk'). exists k'. split; [by right|done].
      * intros (k' & Hin & Hk'). apply elem_of_cons in Hin as [->|Hin]; [congruence|].
        by exists k'.
Qed.

Lemma countKeywords_positive (text : string) (keywords : list string) :
  containsAny text keywords = true → 1 ≤ countKeywords text keywords.
Proof.
  induction keywords as [|k rest IH]; simpl; [done|].
  destruct (Contains text k); [lia|]. intros H. specialize (IH H). lia.
Qed.

(** X18. The three urgency vocabularies are nested: when the urgency test
    of the helpers, the one of the attachment strategy, finds a keyword in
    a message, the language strategy counts at least one urgency keyword
    and the BEC strategy finds urgency language. *)
Theorem hasUrgencyLanguage_implies_others (email : Email) :
  hasUrgencyLanguage email = true →
  let text := ToLower (Subject email ++ " " ++ BodyPreview email) in
  1 ≤ countKeywords text urgencyKeywords ∧
  containsAny text becUrgencyKeywords = true.
Proof.
  unfold hasUrgencyLanguage. cbv zeta.
  set (text := ToLower _). intros (k & Hin & Hk)%containsAny_true.
  assert (k ∈ urgencyKeywords ∧ k ∈ becUrgencyKeywords) as [H1 H2].
  { repeat (apply elem_of_cons in Hin as [->|Hin];
              [split; apply list_elem_of_In; vm_compute; tauto|]).
    by apply elem_of_nil in Hin. }
  split.
  - apply countKeywords_positive, containsAny_true. by exists k.
  - apply containsAny_true. by exists k.
Qed.

(** ** Attachment names without a dot *)

Lemma Count_append (a b : string) (c : ascii) :
  Count (a ++ b) c = Count a c + Count b c.
Proof. induction a as [|x a IH]; simpl; [done|]. rewrite IH. lia. Qed.

Lemma substring_whole (s : string) : String.substring 0 (len s) s = s.
Proof. induction s as [|c rest IH]; simpl; [done|]. by rewrite IH. Qed.

Lemma substring_suffix (s : string) : ∀ k,
  k ≤ len s → ∃ front, s = front ++ String.substring k (len s - k) s.
Proof.
  induction s as [|c rest IH]; intros k Hk.
  - exists "". by destruct k.
  - destruct k as [|k].
    + exists "". rewrite Nat.sub_0_r, substring_whole. done.
    + destruct (IH k) as [front Hfront]; [simpl in Hk; lia|].
      exists (String c front).
      change (len (String c rest) - S k) with (len rest - k).
      change (String c rest = String c (front ++ String.substring k (len rest - k) rest)).
      by f_equal.
Qed.

Lemma HasSuffix_append (s suffix : string) :
  HasSuffix s suffix = true → ∃ front, s = front ++ suffix.
Proof.
  unfold HasSuffix. intros [Hlen Heq]%andb_prop.
  apply Nat.leb_le in Hlen. apply String.eqb_eq in Heq.
  destruct (substring_suffix s (len s - len suffix) ltac:(lia)) as [front Hfront].
  replace (len s - (len s - len suffix)) with (len suffix) in Hfront by lia.
  rewrite Heq in Hfront. by exists front.
Qed.

Lemma extension_needs_dot (filename : string) (extensions : list string) :
  Forall (λ ext, 1 ≤ Count ext ".") extensions →
  Count filename "." = 0 →
  existsb (HasSuffix filename) extensions = false.
Proof.
  intros Hdots Hnone. apply not_true_is_false. intros H.
  apply existsb_exists in H as (ext & Hin & Hsuffix).
  apply HasSuffix_append in Hsuffix as [front ->].
  rewrite Count_append in Hnone. rewrite Forall_forall in Hdots.
  specialize (Hdots ext ltac:(by apply list_elem_of_In)). simpl in Hdots. lia.
Qed.

(** X19. An attachment is flagged only through a dot in its name: when
    no lower-cased attachment name holds a dot, the attachment strategy
    returns no signal, whatever the rest of the message. *)
Theorem AttachmentStrategy_names_without_dot
  (email : Email) (recipient : option User) (context : DetectionContext) :
  Forall (λ name, Count (ToLower name) "." = 0) (AttachmentNames email) →
  AttachmentStrategy_Detect email recipient context = Returns None.
Proof.
  intros Hnames. unfold AttachmentStrategy_Detect.
  destruct (negb _); [done|]. rewrite attachmentLoop_first. f_equal.
  induction (AttachmentNames email) as [|name rest IH]; [done|].
  apply Forall_cons in Hnames as [Hname Hrest].
  rewrite head_omap_cons. unfold attachmentRule at 1. cbv zeta.
  rewrite !extension_needs_dot by (done || by repeat constructor).
  rewrite Hname. simpl. by apply IH.
Qed.

(** ** The edit distance as the least number of edits *)

Lemma edits_from_empty (b : string) : edits "" b (len b).
Proof. induction b; simpl; by constructor. Qed.

Lemma edits_to_empty (a : string) : edits a "" (len a).
Proof. induction a; simpl; by constructor. Qed.

(** The four steps at the right end of the strings, where the table of
    [levenshteinDistance] takes them. *)
Lemma edits_keep_end (c : ascii) a b n :
  edits a b n → edits (a ++ String c "") (b ++ String c "") n.
Proof. induction 1; simpl; try by constructor. apply edits_keep, edits_done. Qed.

Lemma edits_substitute_end (c c' : ascii) a b n :
  edits a b n → edits (a ++ String c "") (b ++ String c' "") (S n).
Proof. induction 1; simpl; try by constructor. apply edits_substitute, edits_done. Qed.

Lemma edits_delete_end (c : ascii) a b n :
  edits a b n → edits (a ++ String c "") b (S n).
Proof. induction 1; simpl; try by constructor. apply edits_delete, edits_done. Qed.

Lemma edits_insert_end (c : ascii) a b n :
  edits a b n → edits a (b ++ String c "") (S n).
Proof. induction 1; simpl; try by constructor. apply edits_insert, edits_done. Qed.

Lemma substring_none (s : string) : String.substring 0 0 s = "".
Proof. by destruct s. Qed.

Lemma substring_next (s : string) : ∀ i c,
  String.get i s = Some c →
  String.substring 0 (S i) s = String.substring 0 i s ++ String c "".
Proof.
  induction s as [|x s IH]; intros i c; [done|].
  destruct i as [|i].
  - intros [= ->]. simpl. by rewrite substring_none.
  - intros Hget. change (String.get i s = Some c) in Hget.
    change (String x (String.substring 0 (S i) s) =
            String x (String.substring 0 i s ++ String c "")).
    by rewrite (IH i c).
Qed.

Lemma substring_len (s : string) : ∀ i, i ≤ len s → len (String.substring 0 i s) = i.
Proof.
  induction s as [|x s IH]; intros [|i] Hi; simpl in *; try done; [lia|].
  rewrite IH; [done|lia].
Qed.

(** Every cell of the table is reached by an edit script between the
    two prefixes. *)
Lemma prefixDistance_achieved (s1 s2 : string) (i : nat) : ∀ j,
  i ≤ len s1 → j ≤ len s2 →
  edits (String.substring 0 i s1) (String.substring 0 j s2)
        (Z.to_nat (prefixDistance s1 s2 i j)).
Proof.
  induction i as [|i IHi]; intros j Hi Hj.
  - rewrite substring_none. simpl. rewrite Nat2Z.id.
    rewrite <- (substring_len s2 j Hj) at 2. apply edits_from_empty.
  - induction j as [|j IHj].
    + rewrite substring_none, prefixDistance_0_r, Nat2Z.id.
      rewrite <- (substring_len s1 (S i) Hi) at 2. apply edits_to_empty.
    + destruct (get_in_range s1 i ltac:(lia)) as [c1 Hc1].
      destruct (get_in_range s2 j ltac:(lia)) as [c2 Hc2].
      pose proof (IHi (S j) ltac:(lia) Hj) as Hdelete.
      pose proof (IHj ltac:(lia)) as Hinsert.
      pose proof (IHi j ltac:(lia) ltac:(lia)) as Hboth.
      pose proof (prefixDistance_nonneg s1 s2 i (S j)).
      pose proof (prefixDistance_nonneg s1 s2 (S i) j).
      pose proof (prefixDistance_nonneg s1 s2 i j).
      rewrite prefixDistance_step. unfold min3.
      destruct (Z.min_spec (Z.min (prefixDistance s1 s2 i (S j) + 1)
                                  (prefixDistance s1 s2 (S i) j + 1))
                           (prefixDistance s1 s2 i j + costAt s1 s2 i j))
        as [[_ ->]|[_ ->]].
      * destruct (Z.min_spec (prefixDistance s1 s2 i (S j) + 1)
                             (prefixDistance s1 s2 (S i) j + 1)) as [[_ ->]|[_ ->]].
        -- rewrite (substring_next s1 i c1 Hc1).
           rewrite Z2Nat.inj_add, Nat.add_1_r by lia. by apply edits_delete_end.
        -- rewrite (substring_next s2 j c2 Hc2).
           rewrite Z2Nat.inj_add, Nat.add_1_r by lia. by apply edits_insert_end.
      * rewrite (substring_next s1 i c1 Hc1), (substring_next s2 j c2 Hc2).
        unfold costAt. rewrite Hc1, Hc2.
        destruct (Ascii.eqb_spec c1 c2) as [->|_].
        -- rewrite Z.add_0_r. by apply edits_keep_end.
        -- rewrite Z2Nat.inj_add, Nat.add_1_r by lia. by apply edits_substitute_end.
Qed.

Lemma distance_achieved (a b : string) : edits a b (Z.to_nat (distance a b)).
Proof.
  pose proof (prefixDistance_achieved a b (len a) (len b) ltac:(lia) ltac:(lia)) as H.
  by rewrite !substring_whole in H.
Qed.

(** A byte more at the left of the strings costs what the step costs. *)
Lemma prefixDistance_prepend_both (c c' : ascii) (a b : string) (i : nat) : ∀ j,
  (prefixDistance (String c a) (String c' b) (S i) (S j)
   ≤ prefixDistance a b i j + (if Ascii.eqb c c' then 0 else 1))%Z.
Proof.
  induction i as [|i IHi].
  - induction j as [|j IHj]; rewrite prefixDistance_step; unfold min3.
    + change (costAt (String c a) (String c' b) 0 0) with (if Ascii.eqb c c' then 0 else 1)%Z.
      change (prefixDistance (String c a) (String c' b) 0 0) with 0%Z.
      change (prefixDistance a b 0 0) with 0%Z. lia.
    + change (prefixDistance a b 0 (S j)) with (Z.of_nat (S j)).
      change (prefixDistance a b 0 j) with (Z.of_nat j) in IHj. lia.
  - induction j as [|j IHj].
    + specialize (IHi 0). rewrite prefixDistance_step. unfold min3.
      rewrite !prefixDistance_0_r in *. lia.
    + rewrite (prefixDistance_step (String c a)), (prefixDistance_step a b).
      change (costAt (String c a) (String c' b) (S i) (S j)) with (costAt a b i j).
      pose proof (IHi (S j)). pose proof (IHi j). unfold min3. lia.
Qed.

Lemma prefixDistance_prepend_left (c : ascii) (a b : string) (i : nat) : ∀ j,
  (prefixDistance (String c a) b (S i) j ≤ prefixDistance a b i j + 1)%Z.
Proof.
  induction i as [|i IHi].
  - intros [|j]; [simpl; lia|]. rewrite prefixDistance_step. unfold min3.
    change (prefixDistance (String c a) b 0 (S j)) with (Z.of_nat (S j)).
    change (prefixDistance a b 0 (S j)) with (Z.of_nat (S j)). lia.
  - induction j as [|j IHj]; [rewrite !prefixDistance_0_r; lia|].
    rewrite (prefixDistance_step (String c a)), (prefixDistance_step a b).
    change (costAt (String c a) b (S i) j) with (costAt a b i j).
    pose proof (IHi (S j)). pose proof (IHi j). unfold min3. lia.
Qed.

(** No edit script is shorter than the distance. *)
Lemma distance_least (a b : string) (n : nat) :
  edits a b n → (distance a b ≤ Z.of_nat n)%Z.
Proof.
  unfold distance. induction 1 as [|c a b n _ IH|c c' a b n _ IH|c a b n _ IH|c a b n _ IH].
  - done.
  - pose proof (prefixDistance_prepend_both c c a b (len a) (len b)) as H.
    rewrite Ascii.eqb_refl in H. simpl len. lia.
  - pose proof (prefixDistance_prepend_both c c' a b (len a) (len b)) as H.
    simpl len. destruct (Ascii.eqb c c'); lia.
  - pose proof (prefixDistance_prepend_left c a b (len a) (len b)) as H.
    simpl len. lia.
  - pose proof (prefixDistance_prepend_left c b a (len b) (len a)) as H.
    rewrite (prefixDistance_sym a), (prefixDistance_sym b a) in *.
    simpl len in *. lia.
Qed.

(** X4. [levenshteinDistance] returns the least number of byte edits
    (substitutions, deletions, insertions) that turn the first string into
    the second: some edit script has that many edits, and none has fewer. *)
Theorem levenshteinDistance_least_edit_script (a b : string) :
  ∃ d, levenshteinDistance a b = Returns (Z.of_nat d) ∧
       edits a b d ∧ ∀ n, edits a b n → d ≤ n.
Proof.
  exists (Z.to_nat (distance a b)).
  pose proof (prefixDistance_nonneg a b (len a) (len b)) as Hpos. fold (distance a b) in Hpos.
  rewrite levenshteinDistance_returns, Z2Nat.id by done.
  split; [done|]. split; [apply distance_achieved|].
  intros n Hn%distance_least. lia.
Qed.

(** Edit scripts compose. *)
Lemma edits_compose (a b : string) (n : nat) :
  edits a b n → ∀ c m, edits b c m → ∃ k, k ≤ n + m ∧ edits a c k.
Proof.
  induction 1 as [|x a b n _ IH|x y a b n _ IH|x a b n _ IH|x a b n _ IH]; intros c m Hbc.
  - by exists m.
  - remember (String x b) as b0 eqn:Eb. revert Eb.
    induction Hbc as [|z b' c n' Hbc _|z z' b' c n' Hbc _|z b' c n' Hbc _|z b' c n' _ IHbc];
      intros Eb.
    + done.
    + injection Eb as -> ->. destruct (IH _ _ Hbc) as (k & Hk & Hac).
      exists k. split; [lia|by constructor].
    + injection Eb as -> ->. destruct (IH _ _ Hbc) as (k & Hk & Hac).
      exists (S k). split; [lia|by constructor].
    + injection Eb as -> ->. destruct (IH _ _ Hbc) as (k & Hk & Hac).
      exists (S k). split; [lia|by constructor].
    + destruct (IHbc Eb) as (k & Hk & Hac).
      exists (S k). split; [lia|by constructor].
  - remember (String y b) as b0 eqn:Eb. revert Eb.
    induction Hbc as [|z b' c n' Hbc _|z z' b' c n' Hbc _|z b' c n' Hbc _|z b' c n' _ IHbc];
      intros Eb.
    + done.
    + injection Eb as -> ->. destruct (IH _ _ Hbc) as (k & Hk & Hac).
      exists (S k). split; [lia|by constructor].
    + injection Eb as -> ->. destruct (IH _ _ Hbc) as (k & Hk & Hac).
      exists (S k). split; [lia|by constructor].
    + injection Eb as -> ->. destruct (IH _ _ Hbc) as (k & Hk & Hac).
      exists (S k). split; [lia|by constructor].
    + destruct (IHbc Eb) as (k & Hk & Hac).
      exists (S k). split; [lia|by constructor].
  - destruct (IH _ _ Hbc) as (k & Hk & Hac).
    exists (S k). split; [lia|by constructor].
  - remember (String x b) as b0 eqn:Eb. revert Eb.
    induction Hbc as [|z b' c n' Hbc _|z z' b' c n' Hbc _|z b' c n' Hbc _|z b' c n' _ IHbc];
      intros Eb.
    + done.
    + injection Eb as -> ->. destruct (IH _ _ Hbc) as (k & Hk & Hac).
      exists (S k). split; [lia|by constructor].
    + injection Eb as -> ->. destruct (IH _ _ Hbc) as (k & Hk & Hac).
      exists (S k). split; [lia|by constructor].
    + injection Eb as -> ->. destruct (IH _ _ Hbc) as (k & Hk & Hac).
      exists k. split; [lia|done].
    + destruct (IHbc Eb) as (k & Hk & Hac).
      exists (S k). split; [lia|by constructor].
Qed.

(** X5. The edit distance obeys the triangle inequality: going through a
    third string never gives fewer edits. *)
Theorem levenshteinDistance_triangle (a b c : string) :
  ∃ dab dbc dac,
    levenshteinDistance a b = Returns dab ∧
    levenshteinDistance b c = Returns dbc ∧
    levenshteinDistance a c = Returns dac ∧
    (dac ≤ dab + dbc)%Z.
Proof.
  exists (distance a b), (distance b c), (distance a c).
  rewrite !levenshteinDistance_returns. repeat split.
  destruct (edits_compose _ _ _ (distance_achieved a b) _ _ (distance_achieved b c))
    as (k & Hk & Hac).
  apply distance_least in Hac.
  pose proof (prefixDistance_nonneg a b (len a) (len b)).
  pose proof (prefixDistance_nonneg b c (len b) (len c)).
  unfold distance in *. lia.
Qed.

(** ** [ValidateEmail] and [extractDomain] *)

Lemma MatchString_NoMatch (s : string) : MatchString NoMatch s = false.
Proof. induction s; simpl; done. Qed.

Lemma MatchString_EmptyMatch (s : string) : MatchString EmptyMatch s = true → s = "".
Proof. destruct s; simpl; [done|]. by rewrite MatchString_NoMatch. Qed.

Lemma MatchString_Alternate (s : string) : ∀ r1 r2,
  MatchString (Alternate r1 r2) s = MatchString r1 s || MatchString r2 s.
Proof. induction s as [|c s IH]; intros r1 r2; simpl; [done|]. apply IH. Qed.

Lemma MatchString_Concat (s : string) : ∀ r1 r2,
  MatchString (Concat r1 r2) s = true →
  ∃ s1 s2, s = s1 ++ s2 ∧ MatchString r1 s1 = true ∧ MatchString r2 s2 = true.
Proof.
  induction s as [|c s IH]; intros r1 r2; simpl.
  - intros [H1 H2]%andb_prop. by exists "", "".
  - destruct (nullable r1) eqn:Hnull.
    + rewrite MatchString_Alternate. intros [H|H]%orb_prop.
      * destruct (IH _ _ H) as (s1 & s2 & -> & H1 & H2).
        by exists (String c s1), s2.
      * by exists "", (String c s).
    + intros H. destruct (IH _ _ H) as (s1 & s2 & -> & H1 & H2).
      by exists (String c s1), s2.
Qed.

Lemma MatchString_CharClass (class : ascii → bool) (s : string) :
  MatchString (CharClass class) s = true → ∃ c, s = String c "" ∧ class c = true.
Proof.
  destruct s as [|c s]; simpl; [done|].
  destruct (class c) eqn:Hc; [|by rewrite MatchString_NoMatch].
  intros ->%MatchString_EmptyMatch. by exists c.
Qed.

Lemma MatchString_Star_CharClass (class : ascii → bool) (s : string) :
  MatchString (Star (CharClass class)) s = true → allBytes class s = true.
Proof.
  induction s as [|c s IH]; simpl; [done|].
  intros (s1 & s2 & -> & H1 & H2)%MatchString_Concat.
  destruct (class c); [|by rewrite MatchString_NoMatch in H1].
  apply MatchString_EmptyMatch in H1 as ->. by apply IH.
Qed.

Lemma MatchString_Plus_CharClass (class : ascii → bool) (s : string) :
  MatchString (Plus (CharClass class)) s = true → 1 ≤ len s ∧ allBytes class s = true.
Proof.
  intros (s1 & s2 & -> & H1 & H2)%MatchString_Concat.
  apply MatchString_CharClass in H1 as (c & -> & Hc).
  apply MatchString_Star_CharClass in H2.
  change (String c "" ++ s2) with (String c s2). simpl. rewrite Hc, H2.
  split; [lia|done].
Qed.

Lemma allBytes_impl (class class' : ascii → bool) (s : string) :
  (∀ c, class c = true → class' c = true) →
  allBytes class s = true → allBytes class' s = true.
Proof.
  intros Himpl. induction s as [|c s IH]; simpl; [done|].
  intros [Hc Hs]%andb_prop. by rewrite (Himpl c Hc), IH.
Qed.

Lemma allBytes_append (class : ascii → bool) (a b : string) :
  allBytes class (a ++ b) = allBytes class a && allBytes class b.
Proof. induction a as [|c a IH]; simpl; [done|]. by rewrite IH, andb_assoc. Qed.

Lemma allBytes_Count (class : ascii → bool) (sep : ascii) (s : string) :
  class sep = false → allBytes class s = true → Count s sep = 0.
Proof.
  intros Hsep. induction s as [|c s IH]; simpl; [done|].
  intros [Hc Hs]%andb_prop. rewrite (IH Hs).
  destruct (Ascii.eqb_spec c sep) as [->|_]; [congruence|done].
Qed.

Lemma allBytes_isASCII (s : string) :
  allBytes (λ c, nat_of_ascii c <? 128) s = isASCII s.
Proof. induction s as [|c s IH]; simpl; [done|]. by rewrite IH. Qed.

Lemma domainClass_of_localClass (c : ascii) :
  letterClass c = true ∨ domainClass c = true ∨ Ascii.eqb "@" c = true ∨
  Ascii.eqb "." c = true → (nat_of_ascii c <? 128) = true.
Proof.
  destruct c as [[] [] [] [] [] [] [] []]; vm_compute; intuition congruence.
Qed.

Lemma localClass_ASCII (c : ascii) : localClass c = true → (nat_of_ascii c <? 128) = true.
Proof. destruct c as [[] [] [] [] [] [] [] []]; vm_compute; congruence. Qed.

Lemma letterClass_domainClass (c : ascii) : letterClass c = true → domainClass c = true.
Proof. destruct c as [[] [] [] [] [] [] [] []]; vm_compute; congruence. Qed.

Lemma len_append (a b : string) : len (a ++ b) = len a + len b.
Proof. induction a as [|c a IH]; simpl; [done|]. by rewrite IH. Qed.

Lemma len_mapBytes (f : ascii → ascii) (s : string) : len (mapBytes f s) = len s.
Proof. induction s as [|c s IH]; simpl; [done|]. by rewrite IH. Qed.

Lemma Count_lowered_dot (s : string) : Count (mapBytes lowerByte s) "." = Count s ".".
Proof.
  induction s as [|c s IH]; simpl; [done|]. rewrite IH. f_equal.
  destruct c as [[] [] [] [] [] [] [] []]; reflexivity.
Qed.

(** The shape of the accepted addresses. *)
Lemma ValidateEmail_shape (address : string) :
  ValidateEmail address = true →
  ∃ local name tld,
    address = local ++ String "@" (name ++ String "." tld) ∧
    1 ≤ len local ∧ allBytes localClass local = true ∧
    1 ≤ len name ∧ allBytes domainClass name = true ∧
    2 ≤ len tld ∧ allBytes letterClass tld = true.
Proof.
  unfold ValidateEmail, emailRegex.
  intros (local & s1 & -> & Hlocal & H)%MatchString_Concat.
  apply MatchString_Concat in H as (at_ & s2 & -> & Hat & H).
  apply MatchString_Concat in H as (name & s3 & -> & Hname & H).
  apply MatchString_Concat in H as (dot & tld & -> & Hdot & Htld).
  apply MatchString_Plus_CharClass in Hlocal as [Hl1 Hl2].
  apply MatchString_Plus_CharClass in Hname as [Hn1 Hn2].
  apply MatchString_CharClass in Hat as (c_at & -> & <-%Ascii.eqb_eq).
  apply MatchString_CharClass in Hdot as (c_dot & -> & <-%Ascii.eqb_eq).
  unfold Repeat2 in Htld.
  apply MatchString_Concat in Htld as (t1 & t & -> & Ht1 & Htld).
  apply MatchString_Concat in Htld as (t2 & t3 & -> & Ht2 & Ht3).
  apply MatchString_CharClass in Ht1 as (c1 & -> & Hc1).
  apply MatchString_CharClass in Ht2 as (c2 & -> & Hc2).
  apply MatchString_Star_CharClass in Ht3.
  exists local, name, (String c1 (String c2 t3)).
  repeat split; try done; simpl; [lia|]. by rewrite Hc1, Hc2, Ht3.
Qed.

(** X20. An address that [ValidateEmail] accepts is ASCII and has
    exactly one '@', and [extractDomain] gives it a domain of at least
    four bytes with a dot: no accepted address is malformed for the
    strategies. *)
Theorem ValidateEmail_has_domain (address : string) :
  ValidateEmail address = true →
  isASCII address = true ∧ Count address "@" = 1 ∧
  4 ≤ len (extractDomain address) ∧ 1 ≤ Count (extractDomain address) ".".
Proof.
  intros (local & name & tld & -> & Hl1 & Hl & Hn1 & Hn & Ht2 & Ht)%ValidateEmail_shape.
  apply (allBytes_impl _ _ _ letterClass_domainClass) in Ht.
  assert (Count local "@" = 0) as Hlocal by (by apply (allBytes_Count localClass)).
  assert (Count (name ++ String "." tld) "@" = 0) as Hdomain.
  { apply (allBytes_Count domainClass); [done|].
    rewrite allBytes_append. simpl. by rewrite Hn, Ht. }
  assert (isASCII (name ++ String "." tld) = true) as Hascii.
  { rewrite <- allBytes_isASCII, allBytes_append. simpl.
    rewrite (allBytes_impl domainClass _ name), (allBytes_impl domainClass _ tld); try done.
    all: intros c Hc; apply domainClass_of_localClass; tauto. }
  split; [|split].
  - rewrite <- allBytes_isASCII, allBytes_append. simpl.
    rewrite (allBytes_isASCII (name ++ String "." tld)), Hascii, andb_true_r.
    apply (allBytes_impl localClass); [apply localClass_ASCII|done].
  - rewrite Count_append. simpl. rewrite Hlocal. simpl in Hdomain. lia.
  - unfold extractDomain. rewrite Split_two_pieces by done.
    unfold ToLower. rewrite Hascii.
    rewrite len_mapBytes, Count_lowered_dot, len_append, Count_append. simpl.
    lia.
Qed.

Lemma MatchString_Concat_append (s1 : string) : ∀ r1 r2 s2,
  MatchString r1 s1 = true → MatchString r2 s2 = true →
  MatchString (Concat r1 r2) (s1 ++ s2) = true.
Proof.
  induction s1 as [|c s1 IH]; intros r1 r2 s2 H1 H2.
  - change ("" ++ s2) with s2. simpl in H1. destruct s2 as [|c s2]; simpl.
    + by rewrite H1.
    + rewrite H1, MatchString_Alternate. simpl in H2. rewrite H2. apply orb_true_r.
  - change (String c s1 ++ s2) with (String c (s1 ++ s2)). simpl in *.
    specialize (IH _ r2 s2 H1 H2).
    destruct (nullable r1); [|done]. by rewrite MatchString_Alternate, IH.
Qed.

Lemma allBytes_Star (class : ascii → bool) (s : string) :
  allBytes class s = true → MatchString (Star (CharClass class)) s = true.
Proof.
  induction s as [|c s IH]; simpl; [done|].
  intros [Hc Hs]%andb_prop. rewrite Hc.
  by apply (MatchString_Concat_append "" EmptyMatch), IH.
Qed.

Lemma allBytes_Plus (class : ascii → bool) (s : string) :
  1 ≤ len s → allBytes class s = true → MatchString (Plus (CharClass class)) s = true.
Proof.
  destruct s as [|c s]; simpl; [lia|].
  intros _ [Hc Hs]%andb_prop.
  apply (MatchString_Concat_append (String c "") (CharClass class));
    [simpl; by rewrite Hc|by apply allBytes_Star].
Qed.

(** X21. [ValidateEmail] accepts exactly the addresses [local@name.tld]
    whose local part is not empty and made of letters, digits and
    [._%+-], whose [name] is not empty and made of letters, digits, dots
    and hyphens, and whose [tld] has at least two bytes, all letters;
    nothing may precede or follow, not even a line end. *)
Theorem ValidateEmail_accepts_exactly (address : string) :
  ValidateEmail address = true ↔
  ∃ local name tld,
    address = local ++ String "@" (name ++ String "." tld) ∧
    1 ≤ len local ∧ allBytes localClass local = true ∧
    1 ≤ len name ∧ allBytes domainClass name = true ∧
    2 ≤ len tld ∧ allBytes letterClass tld = true.
Proof.
  split; [apply ValidateEmail_shape|].
  intros (local & name & tld & -> & Hl1 & Hl & Hn1 & Hn & Ht2 & Ht).
  unfold ValidateEmail, emailRegex.
  apply MatchString_Concat_append; [by apply allBytes_Plus|].
  apply (MatchString_Concat_append (String "@" "")); [done|].
  apply MatchString_Concat_append; [by apply allBytes_Plus|].
  apply (MatchString_Concat_append (String "." "")); [done|].
  destruct tld as [|c1 [|c2 tld]]; simpl in Ht2; [lia|lia|].
  simpl in Ht. apply andb_prop in Ht as [Hc1 Ht]. apply andb_prop in Ht as [Hc2 Ht].
  apply (MatchString_Concat_append (String c1 "")); [simpl; by rewrite Hc1|].
  apply (MatchString_Concat_append (String c2 "")); [simpl; by rewrite Hc2|].
  by apply allBytes_Star.
Qed.

(** ** The window of the typosquatting strategy in edits *)

Lemma looksAlike_fewEdits (senderDomain trustedDomain : string) :
  len senderDomain ≤ 255 → len trustedDomain ≤ 255 →
  looksAlike senderDomain trustedDomain = fewEdits senderDomain trustedDomain.
Proof.
  intros Hs Ht. unfold looksAlike, fewEdits.
  destruct (String.eqb senderDomain trustedDomain) eqn:Heq; [done|].
  simpl negb. rewrite !andb_true_l. cbv zeta.
  change (similarityOf (distance senderDomain trustedDomain) senderDomain trustedDomain)
    with (similarityAt (distance senderDomain trustedDomain)
            (Nat.max (len senderDomain) (len trustedDomain))).
  unfold max2.
  pose proof (prefixDistance_bound senderDomain trustedDomain
                (len senderDomain) (len trustedDomain)) as Hub.
  pose proof (prefixDistance_nonneg senderDomain trustedDomain
                (len senderDomain) (len trustedDomain)) as Hlb.
  fold (distance senderDomain trustedDomain) in Hub, Hlb.
  assert (distance senderDomain trustedDomain ≠ 0%Z) as Hnz.
  { intros H0. apply distance_zero_eq in H0 as ->.
    by rewrite String.eqb_refl in Heq. }
  set (n := Nat.max (len senderDomain) (len trustedDomain)) in *.
  assert (forallb windowIsBudget (seq 0 256) = true) as Hall by (by vm_compute).
  rewrite forallb_forall in Hall.
  specialize (Hall n ltac:(apply in_seq; lia)). unfold windowIsBudget in Hall.
  rewrite forallb_forall in Hall.
  specialize (Hall (Z.to_nat (distance senderDomain trustedDomain))
                ltac:(apply in_seq; lia)).
  rewrite Z2Nat.id in Hall by done. apply eqb_prop in Hall. rewrite Hall.
  destruct (Nat.ltb_spec (20 * Z.to_nat (distance senderDomain trustedDomain)) (3 * n)),
    (Z.ltb_spec (20 * distance senderDomain trustedDomain) (3 * Z.of_nat n)); try done; lia.
Qed.

Lemma find_agree {A : Type} (f g : A → bool) (l : list A) :
  Forall (λ x, f x = g x) l → List.find f l = List.find g l.
Proof.
  induction 1 as [|x l Hx _ IH]; simpl; [done|]. by rewrite Hx, IH.
Qed.

(** X22. For domains of at most 255 bytes, the window of the
    typosquatting strategy is an edit budget: the signal is for the first
    trusted domain that differs from the sender's domain by a distance [d]
    with [20 * d < 3 * max(len, len)], fewer than 15 edits in a hundred
    bytes; the rounding of the similarity moves no case across the bounds
    85 and 100. *)
Theorem TyposquattingStrategy_edit_budget
  (email : Email) (recipient : option User) (context : DetectionContext) :
  len (extractDomain (SenderEmail email)) ≤ 255 →
  Forall (λ trusted, len trusted ≤ 255) (TrustedDomains context) →
  TyposquattingStrategy_Detect email recipient context =
    Returns (typosquattingSignal (extractDomain (SenderEmail email))
               <$> List.find (fewEdits (extractDomain (SenderEmail email)))
                     (TrustedDomains context)).
Proof.
  intros Hsender Htrusted. unfold TyposquattingStrategy_Detect. cbv zeta.
  rewrite typosquattingLoop_first. do 2 f_equal. apply find_agree.
  eapply Forall_impl; [exact Htrusted|]. intros trusted Hlen.
  by apply looksAlike_fewEdits.
Qed.

(** ** Keywords inside keywords *)

Lemma prefix_append (sub : string) : ∀ s,
  String.prefix sub s = true → ∃ post, s = sub ++ post.
Proof.
  induction sub as [|a sub IH]; intros s; [by exists s|].
  destruct s as [|b s]; simpl; [done|].
  destruct (ascii_dec a b) as [->|_]; [|done].
  intros (post & ->)%IH. by exists post.
Qed.

Lemma prefix_of_append (sub post : string) : String.prefix sub (sub ++ post) = true.
Proof.
  induction sub as [|a sub IH]; [by destruct post|].
  change (String a sub ++ post) with (String a (sub ++ post)). simpl.
  by destruct (ascii_dec a a).
Qed.

Lemma Contains_unfold (s sub : string) :
  Contains s sub =
  String.prefix sub s || match s with
                         | EmptyString => false
                         | String _ rest => Contains rest sub
                         end.
Proof. by destruct s. Qed.

Lemma Contains_inside (s sub : string) :
  Contains s sub = true → ∃ pre post, s = pre ++ sub ++ post.
Proof.
  induction s as [|c s IH]; rewrite Contains_unfold.
  - rewrite orb_false_r. intros (post & ->)%prefix_append. by exists "", post.
  - intros [(post & ->)%prefix_append|(pre & post & ->)%IH]%orb_prop.
    + by exists "", post.
    + by exists (String c pre), post.
Qed.

Lemma Contains_of_inside (pre sub post : string) :
  Contains (pre ++ sub ++ post) sub = true.
Proof.
  induction pre as [|c pre IH]; rewrite Contains_unfold.
  - change ("" ++ sub ++ post) with (sub ++ post). by rewrite prefix_of_append.
  - change (String c pre ++ sub ++ post) with (String c (pre ++ sub ++ post)).
    cbv beta iota. rewrite IH. apply orb_true_r.
Qed.

Lemma append_assoc (a b c : string) : (a ++ b) ++ c = a ++ b ++ c.
Proof.
  induction a as [|x a IH]; [done|].
  change (String x ((a ++ b) ++ c) = String x (a ++ b ++ c)). by rewrite IH.
Qed.

(** A keyword that holds another one brings it along. *)
Lemma Contains_trans (text keyword inner : string) :
  Contains text keyword = true → Contains keyword inner = true →
  Contains text inner = true.
Proof.
  intros (pre & post & ->)%Contains_inside (pre' & post' & ->)%Contains_inside.
  replace (pre ++ (pre' ++ inner ++ post') ++ post)
    with ((pre ++ pre') ++ inner ++ (post' ++ post));
    [apply Contains_of_inside|].
  by rewrite !append_assoc.
Qed.

(** X23. Keywords that hold other keywords count several times: a message
    whose lower-cased text contains "urgent payment" always gets the
    language signal, of a confidence of at least 0.73: the phrase counts
    as the urgency keyword "urgent" and as the financial keywords
    "payment", "pay" and "urgent payment". *)
Theorem UrgencyFinancialStrategy_urgent_payment
  (email : Email) (recipient : option User) (context : DetectionContext) :
  Contains (ToLower (Subject email ++ " " ++ BodyPreview email)) "urgent payment" = true →
  1 ≤ (keywordCounts email).1.1 ∧ 3 ≤ (keywordCounts email).1.2 ∧
  ∃ signal,
    UrgencyFinancialStrategy_Detect email recipient context = Returns (Some signal) ∧
    Type_ signal = "URGENCY_FINANCIAL_LANGUAGE" ∧
    fle 0.73 (Confidence signal).
Proof.
  unfold keywordCounts, UrgencyFinancialStrategy_Detect. cbv zeta. cbn [fst snd].
  set (text := ToLower _). intros Hphrase.
  assert (Contains text "urgent" = true) as Hurgent
    by (by apply (Contains_trans text "urgent payment")).
  assert (Contains text "payment" = true) as Hpayment
    by (by apply (Contains_trans text "urgent payment")).
  assert (Contains text "pay" = true) as Hpay
    by (by apply (Contains_trans text "urgent payment")).
  assert (1 ≤ countKeywords text urgencyKeywords) as Hu.
  { unfold urgencyKeywords. cbn [countKeywords]. rewrite Hurgent. lia. }
  assert (3 ≤ countKeywords text financialKeywords) as Hf.
  { unfold financialKeywords. cbn [countKeywords]. rewrite Hphrase, Hpayment, Hpay. lia. }
  split; [done|]. split; [done|].
  destruct (countsMonotone_all 1 _ 3 _ 0 _
    Hu (countKeywords_bound text urgencyKeywords)
    Hf (countKeywords_bound text financialKeywords)
    (Nat.le_0_l _) (countKeywords_bound text authorityKeywords)) as [Hscore Hconf].
  assert (PrimFloat.ltb 1.5
            (languageScore (countKeywords text urgencyKeywords)
               (countKeywords text financialKeywords)
               (countKeywords text authorityKeywords)) = true) as ->.
  { eapply flt_fle_trans; [|exact Hscore]. by vm_compute. }
  eexists. split; [done|]. split; [done|].
  eapply fle_trans; [|exact Hconf]. by vm_compute.
Qed.

End Detection.

(** * The statements at sample inputs *)

(** C1 at two signals of medium confidence: the score is that of the
    larger contribution, 0.75 * 1.1. *)
Lemma medium_signals_score :
  Forall (λ d, fle 0 (Confidence d)) sampleSignals ∧
  ∃ top, top ∈ sampleSignals ∧
    Forall (λ d, fle (weighted d) (weighted top)) sampleSignals ∧
    PrimFloat.eqb (calculateRiskScore sampleSignals) (Min (weighted top) 1.0) = true.
Proof.
  assert (Forall (λ d, fle 0 (Confidence d)) sampleSignals) as H.
  { repeat constructor. }
  split; [exact H|].
  exact (proj2 (calculateRiskScore_weighted_max sampleSignals H)).
Defined.

(** The hypothesis of C1 is needed: a confidence below zero, which the
    data model excludes, loses against the start value 0.0 of the loop. *)
Example negative_confidence_scores_zero :
  calculateRiskScore
    [{| Type_ := "AUTH_FAILURES"; Confidence := -0.5; Evidence := "" |}] = 0%float.
Proof. vm_compute. reflexivity. Qed.

(** C3 at a payroll-document request sent to an HR director: the message
    gets the HR-payroll signal alone. *)
Lemma payroll_request_analysis :
  AnalyzeEmail
    (NewDetector identityLower formatFixed ["company.com"] ["microsoft.com"; "paypal.com"])
    payrollEmail (Some (sampleUser "HR Director")) = Returns payrollAnalysis ∧
  DetectedThreats payrollAnalysis =
    [{| Type_ := "BEC_HR_PAYROLL_SCAM"; Confidence := 0.80;
        Evidence := Evidence payrollSignal |}] ∧
  RiskScore payrollAnalysis = 0.80%float ∧
  RiskLevel_ payrollAnalysis = "high".
Proof.
  assert (AnalyzeEmail
    (NewDetector identityLower formatFixed ["company.com"] ["microsoft.com"; "paypal.com"])
    payrollEmail (Some (sampleUser "HR Director")) = Returns payrollAnalysis) as Hrun.
  { vm_compute. reflexivity. }
  split; [exact Hrun|]. split; [reflexivity|].
  exact (proj2 (proj2 (proj2
    (hr_payroll_signal_default_weight identityLower formatFixed
       ["company.com"] ["microsoft.com"; "paypal.com"]
       payrollEmail (Some (sampleUser "HR Director")) payrollAnalysis
       (Evidence payrollSignal) Hrun eq_refl)))).
Defined.

(** The failing input of C7: a message with one urgency keyword and six
    authority keywords has the exact score 0.3 + 6 * 0.2 = 1.5, not above
    the threshold. With every operation rounded on its own the score is
    0.3 + 1.2000000000000002, one unit in the last place above 1.5: the
    strategy returns a signal, of confidence 0.70 and not above. With
    the second addition fused the score is 1.5 and no signal is
    returned. *)
Lemma boundary_message_confidence :
  (∃ signal,
     UrgencyFinancialStrategy_Detect identityLower formatFixed boundaryEmail None
       sampleContext = Returns (Some signal) ∧
     Evidence signal =
       "High-risk language detected (score: 1.50): 1 urgency, 0 financial, 6 authority keywords" ∧
     languageScore 1 0 6 = 0x1.8000000000001p+0%float ∧
     Confidence signal = 0.70%float ∧
     PrimFloat.ltb 0.70 (Confidence signal) = false) ∧
  keywordCounts identityLower boundaryEmail = (1, 0, 6) ∧
  languageScoreIn (mkEvaluation PlainAddition true false) 1 0 6 = 1.5%float ∧
  UrgencyFinancialStrategy_DetectIn identityLower formatFixed
    (mkEvaluation PlainAddition true false) boundaryEmail None sampleContext
    = Returns None.
Proof.
  split; [|by vm_compute].
  eexists. split; [vm_compute; reflexivity|].
  repeat split; vm_compute; reflexivity.
Qed.

(** The fused operation rounds once: [0.1 * 10 - 1] is 2^-54 fused and
    zero with the product rounded first; an exact product gives the same
    result both ways. *)
Example FMA_rounds_once :
  FMA 0.1 10 (-1) = 0x1p-54%float ∧
  PrimFloat.add (PrimFloat.mul 0.1 10) (-1) = 0%float ∧
  FMA 3 0.5 0.25 = 1.75%float ∧
  FMA 6 0.2 0.3 = 1.5%float ∧
  PrimFloat.add (PrimFloat.mul 6 0.2) 0.3 = 0x1.8000000000001p+0%float.
Proof. repeat split; vm_compute; reflexivity. Qed.

(** * The tests of the repository, on the embedding

    The expectations of helpers_test.go, of the detector tests and of the
    strategy tests on ASCII input, evaluated on the definitions above. *)

(** TestLevenshteinDistance. *)
Example test_levenshteinDistance :
  levenshteinDistance "" "" = Returns 0%Z ∧
  levenshteinDistance "abc" "abc" = Returns 0%Z ∧
  levenshteinDistance "abc" "ab" = Returns 1%Z ∧
  levenshteinDistance "microsoft" "micros0ft" = Returns 1%Z ∧
  levenshteinDistance "paypal" "paypa1" = Returns 1%Z ∧
  levenshteinDistance "google" "g00gle" = Returns 2%Z.
Proof. repeat split; vm_compute; reflexivity. Qed.

(** TestDetector_CalculateRiskScore: the levels, and the scores, which
    are within the tolerance 0.01 of the expected 0.0, 1.0 and 0.825. *)
Example test_calculateRiskScore :
  calculateRiskScore [] = 0%float ∧ RiskLevel (calculateRiskScore []) = "none" ∧
  calculateRiskScore
    [{| Type_ := "DOMAIN_TYPOSQUATTING"; Confidence := 0.90; Evidence := "" |}]
    = 1%float ∧
  RiskLevel 1 = "critical" ∧
  calculateRiskScore sampleSignals = 0.8250000000000001%float ∧
  RiskLevel (calculateRiskScore sampleSignals) = "high".
Proof. repeat split; vm_compute; reflexivity. Qed.

(** TestTyposquattingStrategy_Detect. *)
Example test_TyposquattingStrategy :
  let detect sender :=
    typeOf (TyposquattingStrategy_Detect identityLower formatFixed
              (sampleEmail "" "" sender "") None sampleContext) in
  detect "user@microsoft.com" = Returns None ∧
  detect "user@micros0ft.com" = Returns (Some "DOMAIN_TYPOSQUATTING") ∧
  detect "user@microsfot.com" = Returns None ∧
  detect "user@paypa1.com" = Returns (Some "DOMAIN_TYPOSQUATTING") ∧
  detect "user@example.com" = Returns None.
Proof. repeat split; vm_compute; reflexivity. Qed.

(** TestDisplayNameStrategy_Detect. *)
Example test_DisplayNameStrategy :
  let detect name sender :=
    confidenceOf (DisplayNameStrategy_Detect identityLower
                    (sampleEmail "" name sender "") None sampleContext) in
  detect "John Smith CEO" "attacker@evil.com" = Returns (Some 0.85%float) ∧
  detect "John Smith CEO" "john@company.com" = Returns None ∧
  detect "Bob Jones" "bob@external.com" = Returns None ∧
  detect "Jane Doe, CFO" "jane@phishing.com" = Returns (Some 0.85%float).
Proof. repeat split; vm_compute; reflexivity. Qed.

(** TestUrgencyFinancialStrategy_Detect. *)
Example test_UrgencyFinancialStrategy :
  let detect subject body :=
    typeOf (UrgencyFinancialStrategy_Detect identityLower formatFixed
              (sampleEmail subject "" "" body) None sampleContext) in
  detect "URGENT: Wire Transfer Needed"
         "Please process this wire transfer immediately to our bank account"
    = Returns (Some "URGENCY_FINANCIAL_LANGUAGE") ∧
  detect "Invoice #12345" "Please find attached invoice for services rendered."
    = Returns None ∧
  detect "Need this done today"
         "Hi, I need you to purchase some iTunes gift cards urgently. Please send codes ASAP. CEO"
    = Returns (Some "URGENCY_FINANCIAL_LANGUAGE") ∧
  detect "Urgent: Meeting today" "We need to meet today to discuss the project."
    = Returns None.
Proof. repeat split; vm_compute; reflexivity. Qed.

(** TestBECRoleStrategy_Detect, but for its case with text outside ASCII. *)
Example test_BECRoleStrategy :
  let detect sender subject body recipient :=
    typeOf (BECRoleStrategy_Detect identityLower
              (sampleEmail subject "" sender body) recipient
              (NewDetectionContext ["company.com"] [])) in
  detect "attacker@evil.com" "URGENT: Wire Transfer Required"
         "Please process this wire transfer immediately to our new bank account"
         (Some (sampleUser "CEO")) = Returns (Some "BEC_CSUITE_TARGETING") ∧
  detect "fake@external.com" "Urgent Payment Needed"
         "Wire transfer must be completed asap"
         (Some (sampleUser "CFO")) = Returns (Some "BEC_CSUITE_TARGETING") ∧
  detect "scammer@phish.com" "Invoice Payment"
         "Please process payment for invoice via wire transfer"
         (Some (sampleUser "Finance Manager")) = Returns (Some "BEC_FINANCE_TARGETING") ∧
  detect "external@test.com" "Urgent Payment Needed"
         "Wire transfer must be completed immediately"
         (Some (sampleUser "Software Engineer")) = Returns None ∧
  detect "colleague@company.com" "Urgent wire transfer needed"
         "Please approve this payment"
         (Some (sampleUser "CEO")) = Returns None ∧
  detect "external@evil.com" "Urgent wire transfer" "Payment needed" None
    = Returns None.
Proof. repeat split; vm_compute; reflexivity. Qed.

(** TestDetector_AnalyzeEmail_Integration. *)
Example test_AnalyzeEmail_integration :
  ∃ analysis,
    AnalyzeEmail (NewDetector identityLower formatFixed ["company.com"] ["microsoft.com"])
      integrationEmail None = Returns analysis ∧
    Type_ <$> DetectedThreats analysis =
      ["DISPLAY_NAME_MISMATCH"; "URGENCY_FINANCIAL_LANGUAGE"; "REPLY_TO_MISMATCH"] ∧
    PrimFloat.ltb 0.7 (RiskScore analysis) = true ∧
    RiskLevel_ analysis = "critical".
Proof. eexists. split; [vm_compute; reflexivity|]. repeat split. Qed.

(** X7 at the two sample signals and their reversal. *)
Lemma reversed_signals_score :
  sampleSignals ≡ₚ reverse sampleSignals ∧
  PrimFloat.eqb (calculateRiskScore sampleSignals)
    (calculateRiskScore (reverse sampleSignals)) = true.
Proof.
  assert (sampleSignals ≡ₚ reverse sampleSignals) as H.
  { vm_compute. apply perm_swap. }
  split; [exact H|].
  exact (calculateRiskScore_permutation sampleSignals (reverse sampleSignals) H).
Defined.

(** X1 at the scores 0.5 and 0.9. *)
Lemma medium_below_critical :
  fle 0.5 0.9 ∧ levelRank (RiskLevel 0.5) ≤ levelRank (RiskLevel 0.9).
Proof.
  assert (fle 0.5 0.9) as H by reflexivity.
  split; [exact H|]. exact (RiskLevel_monotone 0.5 0.9 H).
Defined.

(** X13 at a sender address with two '@'. *)
Lemma doubled_separator_sender :
  Count (SenderEmail (sampleEmail "" "" "ceo@@micros0ft.com" "")) "@" ≠ 1 ∧
  TyposquattingStrategy_Detect identityLower formatFixed
    (sampleEmail "" "" "ceo@@micros0ft.com" "") None sampleContext = Returns None.
Proof.
  assert (Count (SenderEmail (sampleEmail "" "" "ceo@@micros0ft.com" "")) "@" ≠ 1) as H.
  { vm_compute. lia. }
  split; [exact H|].
  exact (TyposquattingStrategy_malformed_sender identityLower formatFixed _ None
           sampleContext H).
Defined.

(** X14 at a sender of hp.co, with hp.com trusted: one edit in six bytes. *)
Lemma six_byte_domains :
  len (extractDomain identityLower (SenderEmail (sampleEmail "" "" "sales@hp.co" ""))) ≤ 6 ∧
  Forall (λ trusted, len trusted ≤ 6) (TrustedDomains (NewDetectionContext [] ["hp.com"])) ∧
  TyposquattingStrategy_Detect identityLower formatFixed
    (sampleEmail "" "" "sales@hp.co" "") None (NewDetectionContext [] ["hp.com"])
    = Returns None.
Proof.
  assert (len (extractDomain identityLower
                 (SenderEmail (sampleEmail "" "" "sales@hp.co" ""))) ≤ 6) as H1.
  { vm_compute. lia. }
  assert (Forall (λ trusted, len trusted ≤ 6)
            (TrustedDomains (NewDetectionContext [] ["hp.com"]))) as H2.
  { constructor; [vm_compute; lia|constructor]. }
  split; [exact H1|]. split; [exact H2|].
  exact (TyposquattingStrategy_short_domains identityLower formatFixed _ None _ H1 H2).
Defined.

(** X15 at a message with three keywords: urgent, invoice, director. *)
Lemma three_keywords_message :
  (let '(u, f, a) :=
     keywordCounts identityLower
       (sampleEmail "Urgent" "" "" "The director asks for the invoice") in
   u + f + a) < 4 ∧
  UrgencyFinancialStrategy_Detect identityLower formatFixed
    (sampleEmail "Urgent" "" "" "The director asks for the invoice") None sampleContext
    = Returns None.
Proof.
  assert ((let '(u, f, a) :=
             keywordCounts identityLower
               (sampleEmail "Urgent" "" "" "The director asks for the invoice") in
           u + f + a) < 4) as H.
  { vm_compute. lia. }
  split; [exact H|].
  exact (UrgencyFinancialStrategy_needs_four_keywords identityLower formatFixed _ None
           sampleContext H).
Defined.

(** X16 at the boundary message and the same message with one more
    urgency keyword. *)
Lemma hurried_message_signal :
  UrgencyFinancialStrategy_Detect identityLower formatFixed boundaryEmail None
    sampleContext = Returns (Some boundarySignal) ∧
  ∃ signal',
    UrgencyFinancialStrategy_Detect identityLower formatFixed hurriedEmail None
      sampleContext = Returns (Some signal') ∧
    fle (Confidence boundarySignal) (Confidence signal').
Proof.
  assert ((keywordCounts identityLower boundaryEmail).1.1
          ≤ (keywordCounts identityLower hurriedEmail).1.1) as Hu.
  { vm_compute. lia. }
  assert ((keywordCounts identityLower boundaryEmail).1.2
          ≤ (keywordCounts identityLower hurriedEmail).1.2) as Hf.
  { vm_compute. lia. }
  assert ((keywordCounts identityLower boundaryEmail).2
          ≤ (keywordCounts identityLower hurriedEmail).2) as Ha.
  { vm_compute. lia. }
  assert (UrgencyFinancialStrategy_Detect identityLower formatFixed boundaryEmail None
            sampleContext = Returns (Some boundarySignal)) as Hsignal.
  { vm_compute. reflexivity. }
  split; [exact Hsignal|].
  exact (UrgencyFinancialStrategy_monotone identityLower formatFixed
           boundaryEmail hurriedEmail None None sampleContext sampleContext
           boundarySignal Hu Hf Ha Hsignal).
Defined.

(** X17 at an internal domain written with a capital letter. *)
Lemma capitalised_internal_domain :
  isASCII "ceo@company.com" = true ∧
  Forall (λ domain, hasUpperASCII domain = true) ["Company.com"] ∧
  isInternalDomain (extractDomain identityLower "ceo@company.com") ["Company.com"] = false.
Proof.
  assert (isASCII "ceo@company.com" = true) as H1 by reflexivity.
  assert (Forall (λ domain, hasUpperASCII domain = true) ["Company.com"]) as H2.
  { constructor; [reflexivity|constructor]. }
  split; [exact H1|]. split; [exact H2|].
  exact (isInternalDomain_upper_case_never_matches identityLower _ _ H1 H2).
Defined.

(** X18 at the executive-fraud message. *)
Lemma wire_message_urgency :
  hasUrgencyLanguage identityLower (wireEmail "cfo@evil.com") = true ∧
  1 ≤ countKeywords
        (ToLower identityLower
           (Subject (wireEmail "cfo@evil.com") ++ " "
            ++ BodyPreview (wireEmail "cfo@evil.com")))
        urgencyKeywords ∧
  containsAny
    (ToLower identityLower
       (Subject (wireEmail "cfo@evil.com") ++ " "
        ++ BodyPreview (wireEmail "cfo@evil.com")))
    becUrgencyKeywords = true.
Proof.
  assert (hasUrgencyLanguage identityLower (wireEmail "cfo@evil.com") = true) as H.
  { vm_compute. reflexivity. }
  split; [exact H|].
  exact (hasUrgencyLanguage_implies_others identityLower (wireEmail "cfo@evil.com") H).
Defined.

(** X19 at a message with the attachments README and Makefile. *)
Lemma dotless_attachments :
  Forall (λ name, Count (ToLower identityLower name) "." = 0)
    (AttachmentNames plainAttachmentsEmail) ∧
  AttachmentStrategy_Detect identityLower plainAttachmentsEmail None sampleContext
    = Returns None.
Proof.
  assert (Forall (λ name, Count (ToLower identityLower name) "." = 0)
            (AttachmentNames plainAttachmentsEmail)) as H.
  { repeat constructor. }
  split; [exact H|].
  exact (AttachmentStrategy_names_without_dot identityLower _ None sampleContext H).
Defined.

(** X20 at john.doe@company.com. *)
Lemma company_address_domain :
  ValidateEmail "john.doe@company.com" = true ∧
  isASCII "john.doe@company.com" = true ∧
  Count "john.doe@company.com" "@" = 1 ∧
  4 ≤ len (extractDomain identityLower "john.doe@company.com") ∧
  1 ≤ Count (extractDomain identityLower "john.doe@company.com") ".".
Proof.
  assert (ValidateEmail "john.doe@company.com" = true) as H by reflexivity.
  split; [exact H|].
  exact (ValidateEmail_has_domain identityLower "john.doe@company.com" H).
Defined.

(** X22 at a sender of micros0ft.com, with microsoft.com trusted: one edit
    in thirteen bytes. *)
Lemma micros0ft_edit_budget :
  len (extractDomain identityLower
         (SenderEmail (sampleEmail "" "" "user@micros0ft.com" ""))) ≤ 255 ∧
  Forall (λ trusted, len trusted ≤ 255) (TrustedDomains sampleContext) ∧
  TyposquattingStrategy_Detect identityLower formatFixed
    (sampleEmail "" "" "user@micros0ft.com" "") None sampleContext =
    Returns (typosquattingSignal formatFixed
               (extractDomain identityLower
                  (SenderEmail (sampleEmail "" "" "user@micros0ft.com" "")))
               <$> List.find
                     (fewEdits
                        (extractDomain identityLower
                           (SenderEmail (sampleEmail "" "" "user@micros0ft.com" ""))))
                     (TrustedDomains sampleContext)).
Proof.
  assert (len (extractDomain identityLower
                 (SenderEmail (sampleEmail "" "" "user@micros0ft.com" ""))) ≤ 255) as H1.
  { vm_compute. lia. }
  assert (Forall (λ trusted, len trusted ≤ 255) (TrustedDomains sampleContext)) as H2.
  { repeat (constructor; [vm_compute; lia|]). constructor. }
  split; [exact H1|]. split; [exact H2|].
  exact (TyposquattingStrategy_edit_budget identityLower formatFixed _ None
           sampleContext H1 H2).
Defined.

(** X23 at a message that asks for an urgent payment, and nothing more. *)
Lemma urgent_payment_message :
  Contains
    (ToLower identityLower
       (Subject (sampleEmail "Reminder" "" "" "An urgent payment is due")
        ++ " " ++ BodyPreview (sampleEmail "Reminder" "" "" "An urgent payment is due")))
    "urgent payment" = true ∧
  1 ≤ (keywordCounts identityLower
         (sampleEmail "Reminder" "" "" "An urgent payment is due")).1.1 ∧
  3 ≤ (keywordCounts identityLower
         (sampleEmail "Reminder" "" "" "An urgent payment is due")).1.2 ∧
  ∃ signal,
    UrgencyFinancialStrategy_Detect identityLower formatFixed
      (sampleEmail "Reminder" "" "" "An urgent payment is due") None sampleContext
      = Returns (Some signal) ∧
    Type_ signal = "URGENCY_FINANCIAL_LANGUAGE" ∧
    fle 0.73 (Confidence signal).
Proof.
  assert (Contains
    (ToLower identityLower
       (Subject (sampleEmail "Reminder" "" "" "An urgent payment is due")
        ++ " " ++ BodyPreview (sampleEmail "Reminder" "" "" "An urgent payment is due")))
    "urgent payment" = true) as H.
  { vm_compute. reflexivity. }
  split; [exact H|].
  exact (UrgencyFinancialStrategy_urgent_payment identityLower formatFixed
           (sampleEmail "Reminder" "" "" "An urgent payment is due") None sampleContext H).
Defined.
